(** * imagegen-mcp: the provider abstraction and dispatch layer

    A shallow embedding of the TypeScript sources:
    - [src/libs/providers/base.ts]: [BaseImageProvider], [ProviderType],
      [PROVIDER_CONFIGS];
    - [src/libs/providers/openaiProvider.ts]: [OpenAIImageProvider];
    - [src/libs/providers/stabilityProvider.ts]: [StabilityImageProvider];
    - [src/libs/providers/replicateProvider.ts]: [ReplicateImageProvider];
    - [src/libs/providers/huggingfaceProvider.ts]: [HuggingFaceImageProvider];
    - [src/libs/openaiImageClient.ts]: [OpenAIImageClient];
    - [src/libs/providerFactory.ts]: [ImageProviderFactory];
    - [src/index.ts]: the handlers of the two tools.

    Conventions.  A JavaScript string is a [string] of ASCII text and a
    number is an integer.  A thrown [Error] is the outcome [Throw] with its
    message.  The file system, the process environment and the value that
    [uuidv4()] returns are explicit arguments.  A method that ends in a
    request to its backend is embedded up to that request: its outcome is
    the error thrown before it, or the request sent.  What Node provides
    ([path], [fs], [Buffer]) is modelled after its documentation. *)

From Stdlib Require Import Strings.String Strings.Ascii Lists.List ZArith NArith Lia Bool Strings.Byte.
From Stdlib Require Import Numbers.DecimalString.
Import ListNotations.
Open Scope list_scope.
Open Scope string_scope.

(* ================================================================== *)
(** * JavaScript strings *)
(* ================================================================== *)

Module Js.

(** The double quote character, for messages that quote a value. *)
Definition dq : string := String "034"%char EmptyString.

(** [!!s] for a string [s]: only the empty string is falsy. *)
Definition truthy (s : string) : bool := negb (s =? "").

(** [s.startsWith(p)]. *)
Fixpoint startsWith (p s : string) : bool :=
  match p, s with
  | EmptyString, _ => true
  | String _ _, EmptyString => false
  | String a p', String b s' => Ascii.eqb a b && startsWith p' s'
  end.

(** [s.includes(p)]. *)
Fixpoint includes (p s : string) : bool :=
  startsWith p s ||
  match s with
  | EmptyString => false
  | String _ s' => includes p s'
  end.

(** [s.split(sep)] for a non-empty separator.  [cur] is the segment being
    read and [skip] the number of separator characters still to drop after a
    match. *)
Fixpoint split_from (sep : string) (skip : nat) (cur s : string) : list string :=
  match s with
  | EmptyString => [cur]
  | String c s' =>
      match skip with
      | S k => split_from sep k cur s'
      | O =>
          if startsWith sep s
          then cur :: split_from sep (String.length sep - 1) "" s'
          else split_from sep 0 (cur ++ String c "") s'
      end
  end.

Definition split (sep s : string) : list string := split_from sep 0 "" s.

(** [s.split(sep, limit)]: the first [limit] segments only; the rest of the
    string is dropped, not kept in the last segment. *)
Definition split_limit (sep s : string) (limit : nat) : list string :=
  firstn limit (split sep s).

(** [arr.join(sep)]. *)
Fixpoint join (sep : string) (l : list string) : string :=
  match l with
  | [] => ""
  | [x] => x
  | x :: rest => x ++ sep ++ join sep rest
  end.

(** [s.toLowerCase()] on ASCII text. *)
Definition lower_ascii (c : ascii) : ascii :=
  let n := nat_of_ascii c in
  if (65 <=? n)%nat && (n <=? 90)%nat then ascii_of_nat (n + 32) else c.

Fixpoint toLowerCase (s : string) : string :=
  match s with
  | EmptyString => EmptyString
  | String c s' => String (lower_ascii c) (toLowerCase s')
  end.

End Js.

(* ================================================================== *)
(** * Buffers and base64 (Node's [Buffer]) *)
(* ================================================================== *)

Module Base64.

Definition alphabet : list ascii :=
  list_ascii_of_string
    "ABCDEFGHIJKLMNOPQRSTUVWXYZabcdefghijklmnopqrstuvwxyz0123456789+/".

(** The character of a sextet. *)
Definition char_of (n : N) : ascii := nth (N.to_nat n) alphabet "A"%char.

(** The sextet of a character.  As Node's decoder does, the URL-safe
    characters [-] and [_] are accepted for 62 and 63. *)
Definition value_of (c : ascii) : option N :=
  let n := N_of_ascii c in
  if ((65 <=? n) && (n <=? 90))%N then Some (n - 65)%N
  else if ((97 <=? n) && (n <=? 122))%N then Some (n - 71)%N
  else if ((48 <=? n) && (n <=? 57))%N then Some (n + 4)%N
  else if ((n =? 43) || (n =? 45))%N then Some 62%N
  else if ((n =? 47) || (n =? 95))%N then Some 63%N
  else None.

Definition byte_of_N (n : N) : byte :=
  match Byte.of_N (n mod 256) with
  | Some b => b
  | None => x00
  end.

(** [buf.toString('base64')]: three bytes give four characters, the last
    group is padded with [=]. *)
Fixpoint encode (bs : list byte) : string :=
  match bs with
  | [] => ""
  | [a] =>
      let a := Byte.to_N a in
      String (char_of (a / 4)) (String (char_of ((a mod 4) * 16)) "==")
  | [a; b] =>
      let a := Byte.to_N a in
      let b := Byte.to_N b in
      String (char_of (a / 4))
        (String (char_of ((a mod 4) * 16 + b / 16))
           (String (char_of ((b mod 16) * 4)) "="))
  | a :: b :: c :: rest =>
      let a := Byte.to_N a in
      let b := Byte.to_N b in
      let c := Byte.to_N c in
      String (char_of (a / 4))
        (String (char_of ((a mod 4) * 16 + b / 16))
           (String (char_of ((b mod 16) * 4 + c / 64))
              (String (char_of (c mod 64)) (encode rest))))
  end%N.

(** The sextets a base64 text carries: characters outside the alphabet are
    skipped and the first [=] ends the data. *)
Fixpoint sextets (s : string) : list N :=
  match s with
  | EmptyString => []
  | String c s' =>
      if Ascii.eqb c "="%char then []
      else match value_of c with
           | Some v => v :: sextets s'
           | None => sextets s'
           end
  end.

(** Four sextets give three bytes; a last group of three gives two bytes, of
    two gives one byte, and a single left-over sextet gives none. *)
Fixpoint bytes_of (l : list N) : list byte :=
  match l with
  | s1 :: s2 :: s3 :: s4 :: rest =>
      byte_of_N (s1 * 4 + s2 / 16)
        :: byte_of_N ((s2 mod 16) * 16 + s3 / 4)
        :: byte_of_N ((s3 mod 4) * 64 + s4)
        :: bytes_of rest
  | [s1; s2; s3] =>
      [byte_of_N (s1 * 4 + s2 / 16); byte_of_N ((s2 mod 16) * 16 + s3 / 4)]
  | [s1; s2] => [byte_of_N (s1 * 4 + s2 / 16)]
  | _ => []
  end%N.

(** [Buffer.from(s, 'base64')]. *)
Definition decode (s : string) : list byte := bytes_of (sextets s).

End Base64.

(* ================================================================== *)
(** * Node's [path] (POSIX) and [fs] *)
(* ================================================================== *)

Module Path.

Definition slash : ascii := "/"%char.
Definition dot : ascii := "."%char.

Definition is_slash (c : ascii) : bool := Ascii.eqb c slash.
Definition is_dot (c : ascii) : bool := Ascii.eqb c dot.

Fixpoint drop_while {A} (f : A -> bool) (l : list A) : list A :=
  match l with
  | [] => []
  | x :: l' => if f x then drop_while f l' else l
  end.

Fixpoint take_while {A} (f : A -> bool) (l : list A) : list A :=
  match l with
  | [] => []
  | x :: l' => if f x then x :: take_while f l' else []
  end.

(** The characters of [p] after its root slash (if any), read from the end,
    once the trailing slashes are dropped. *)
Definition trimmed_rev (p : string) : list ascii :=
  let cs := list_ascii_of_string p in
  let region := match cs with
                | c :: rest => if is_slash c then rest else cs
                | [] => []
                end in
  drop_while is_slash (rev region).

Definition is_absolute (p : string) : bool := Js.startsWith "/" p.

(** [path.parse(p).base]: the last portion of the path. *)
Definition parse_base (p : string) : string :=
  string_of_list_ascii
    (rev (take_while (fun c => negb (is_slash c)) (trimmed_rev p))).

(** [path.extname(p)]: the last portion from its last [.] on; empty when
    the portion has no [.], when its only [.] is its first character, and
    for the portion [..]. *)
Definition extname (p : string) : string :=
  let base_rev := take_while (fun c => negb (is_slash c)) (trimmed_rev p) in
  let after_rev := take_while (fun c => negb (is_dot c)) base_rev in
  match drop_while (fun c => negb (is_dot c)) base_rev with
  | [] => ""
  | _ :: before_rev =>
      match before_rev with
      | [] => ""
      | _ =>
          if string_of_list_ascii (rev base_rev) =? ".." then ""
          else string_of_list_ascii (dot :: rev after_rev)
      end
  end.

(** [path.parse(p).dir]: what precedes the slash before the last portion;
    the root for a path directly under it. *)
Definition parse_dir (p : string) : string :=
  match drop_while (fun c => negb (is_slash c)) (trimmed_rev p) with
  | [] => if is_absolute p then "/" else ""
  | _ :: before_rev =>
      (if is_absolute p then "/" else "") ++ string_of_list_ascii (rev before_rev)
  end.

(** The segment walk of [path.normalize]: empty and [.] segments vanish and
    [..] removes the segment before it (it stays at the front of a relative
    path and vanishes at the root).  [stack] holds the result so far, last
    segment first. *)
Fixpoint normalize_segments (abs : bool) (stack segs : list string) : list string :=
  match segs with
  | [] => rev stack
  | seg :: rest =>
      if (seg =? "") || (seg =? ".") then normalize_segments abs stack rest
      else if seg =? ".." then
        match stack with
        | top :: stack' =>
            if top =? ".." then normalize_segments abs (seg :: stack) rest
            else normalize_segments abs stack' rest
        | [] =>
            if abs then normalize_segments abs [] rest
            else normalize_segments abs [seg] rest
        end
      else normalize_segments abs (seg :: stack) rest
  end.

Definition ends_with_slash (p : string) : bool :=
  match rev (list_ascii_of_string p) with
  | c :: _ => is_slash c
  | [] => false
  end.

(** [path.normalize(p)]. *)
Definition normalize (p : string) : string :=
  if p =? "" then "."
  else
    let abs := is_absolute p in
    let trailing := ends_with_slash p in
    let body := Js.join "/" (normalize_segments abs [] (Js.split "/" p)) in
    if body =? "" then (if abs then "/" else if trailing then "./" else ".")
    else (if abs then "/" else "") ++ body ++ (if trailing then "/" else "").

(** [path.join(a, b)]. *)
Definition join (a b : string) : string :=
  let joined :=
    if a =? "" then b
    else if b =? "" then a
    else a ++ "/" ++ b in
  if joined =? "" then "." else normalize joined.

(** The last portion of an absolute path lies directly under the root and
    is [..]. *)
Definition root_dots (p : string) : bool :=
  is_absolute p
  && match drop_while (fun c => negb (is_slash c)) (trimmed_rev p) with
     | [] => string_of_list_ascii (rev (trimmed_rev p)) =? ".."
     | _ => false
     end.

(** [path.parse(p).ext].  [path.parse] does not read the root slash of an
    absolute path when it looks for the start of the last portion, so the
    portion [..] directly under the root is not recognized and gets the
    extension [.]; everywhere else the result is [path.extname(p)]. *)
Definition parse_ext (p : string) : string :=
  if root_dots p then "." else extname p.

(** A segment that names an entry of a directory: not empty, without a
    slash, and neither [.] nor [..]. *)
Definition plain_segment (s : string) : bool :=
  Js.truthy s && negb (Js.includes "/" s) && negb (s =? ".") && negb (s =? "..").

(** An absolute, normalized path below the root: a slash before each of its
    segments, all of them plain. *)
Definition plain (p : string) : bool :=
  match Js.split "/" p with
  | root :: seg :: segs => (root =? "") && forallb plain_segment (seg :: segs)
  | _ => false
  end.

End Path.

Module Fs.

(** The part of the file system the program touches: the contents of the
    regular files and the set of directories, each under its absolute,
    normalized name ([/], [/tmp], [/tmp/out.png]).  The system is a POSIX
    one without links; the working directory of the process is the root;
    permissions and space never fail. *)
Record FileSystem := mkFs {
  file : string -> option (list byte);
  dir : string -> bool
}.

(** [fs.existsSync(p)], for the name [p] of an entry. *)
Definition existsSync (fs : FileSystem) (p : string) : bool :=
  dir fs p || match file fs p with Some _ => true | None => false end.

(** [fs.readFileSync(p)] on an existing file. *)
Definition readFileSync (fs : FileSystem) (p : string) : list byte :=
  match file fs p with Some b => b | None => [] end.

Definition empty : FileSystem :=
  {| file := fun _ => None; dir := fun q => q =? "/" |}.

(** ** The calls that change the file system

    They resolve their path as the kernel does, segment by segment from the
    root, and fail with the error of the system call. *)

Inductive Errno := ENOENT | ENOTDIR | EISDIR | EEXIST.

Definition describe (e : Errno) : string :=
  match e with
  | ENOENT => "ENOENT: no such file or directory"
  | ENOTDIR => "ENOTDIR: not a directory"
  | EISDIR => "EISDIR: illegal operation on a directory"
  | EEXIST => "EEXIST: file already exists"
  end.

(** The message of the [Error] Node throws for a failed call. *)
Definition message (e : Errno) (syscall path : string) : string :=
  describe e ++ ", " ++ syscall ++ " '" ++ path ++ "'".

(** The name of the entry reached from the root by the segments. *)
Definition key (segs : list string) : string := "/" ++ Js.join "/" segs.

(** What a segment of a path asks for: an empty segment and [.] stay in the
    directory, [..] goes to its parent, a name goes to the entry. *)
Inductive Step :=
| Stay
| Up
| Down (name : string).

Definition step_of (seg : string) : Step :=
  if (seg =? "") || (seg =? ".") then Stay
  else if seg =? ".." then Up
  else Down seg.

Definition is_file (fs : FileSystem) (k : string) : bool :=
  match file fs k with Some _ => true | None => false end.

(** The walk through the directories of a path: each name must be a
    directory.  [cur] holds the segments of the directory reached. *)
Fixpoint walk (fs : FileSystem) (cur segs : list string) : Errno + list string :=
  match segs with
  | [] => inr cur
  | seg :: rest =>
      match step_of seg with
      | Stay => walk fs cur rest
      | Up => walk fs (removelast cur) rest
      | Down name =>
          let next := (cur ++ [name])%list in
          if dir fs (key next) then walk fs next rest
          else if is_file fs (key next) then inl ENOTDIR
          else inl ENOENT
      end
  end.

(** The segments of a path before its last one, and the last one; the
    slashes at the end of the path are not read as segments. *)
Definition components (p : string) : list string * string :=
  match Path.drop_while (fun seg => seg =? "") (rev (Js.split "/" p)) with
  | [] => ([], "")
  | last :: init_rev => (rev init_rev, last)
  end.

Definition add_dir (fs : FileSystem) (k : string) : FileSystem :=
  {| file := file fs; dir := fun q => (q =? k) || dir fs q |}.

Definition put (fs : FileSystem) (k : string) (data : list byte) : FileSystem :=
  {| file := fun q => if q =? k then Some data else file fs q; dir := dir fs |}.

(** The directories of [fs.mkdirSync(p, { recursive: true })], made from
    the root on: a name that is missing is made, a directory is entered, a
    regular file stops the call.  The directories made before an error
    stay. *)
Fixpoint make (fs : FileSystem) (cur segs : list string) : FileSystem * option Errno :=
  match segs with
  | [] => (fs, None)
  | seg :: rest =>
      match step_of seg with
      | Stay => make fs cur rest
      | Up => make fs (removelast cur) rest
      | Down name =>
          let next := (cur ++ [name])%list in
          if dir fs (key next) then make fs next rest
          else if is_file fs (key next)
               then (fs, Some (match rest with [] => EEXIST | _ => ENOTDIR end))
          else make (add_dir fs (key next)) next rest
      end
  end.

(** [fs.mkdirSync(p, { recursive: true })]: the file system afterwards and
    the message of the error thrown, if any. *)
Definition mkdirSync (fs : FileSystem) (p : string) : FileSystem * option string :=
  if p =? "" then (fs, Some (message ENOENT "mkdir" p))
  else
    match make fs [] (Js.split "/" p) with
    | (fs', Some e) => (fs', Some (message e "mkdir" p))
    | (fs', None) => (fs', None)
    end.

(** [fs.writeFileSync(p, data)]: the directories of the path must exist;
    a path that ends in a slash or names a directory is no file to open. *)
Definition writeFileSync (fs : FileSystem) (p : string) (data : list byte)
  : FileSystem * option string :=
  if p =? "" then (fs, Some (message ENOENT "open" p))
  else
    match walk fs [] (fst (components p)) with
    | inl e => (fs, Some (message e "open" p))
    | inr cur =>
        if Path.ends_with_slash p then (fs, Some (message EISDIR "open" p))
        else
          match step_of (snd (components p)) with
          | Down name =>
              let k := key (cur ++ [name]) in
              if dir fs k then (fs, Some (message EISDIR "open" p))
              else (put fs k data, None)
          | _ => (fs, Some (message EISDIR "open" p))
          end
    end.

(** The contents of the regular file that a path names, by the same walk. *)
Definition contents (fs : FileSystem) (p : string) : option (list byte) :=
  if (p =? "") || Path.ends_with_slash p then None
  else
    match walk fs [] (fst (components p)) with
    | inl _ => None
    | inr cur =>
        match step_of (snd (components p)) with
        | Down name =>
            let k := key (cur ++ [name]) in
            if dir fs k then None else file fs k
        | _ => None
        end
    end.

End Fs.

(* ================================================================== *)
(** * Outcomes *)
(* ================================================================== *)

(** An outcome: a value, or the message of the [Error] thrown. *)
Inductive Outcome (A : Type) :=
| Return (a : A)
| Throw (msg : string).
Arguments Return {A} a.
Arguments Throw {A} msg.

Definition bind {A B} (m : Outcome A) (k : A -> Outcome B) : Outcome B :=
  match m with
  | Return a => k a
  | Throw msg => Throw msg
  end.

Notation "'do' x <- m ; k" := (bind m (fun x => k))
  (at level 10, x name, m at level 100, k at level 200).
Notation "'throw_if' c 'saying' msg ; k" := (if c then Throw msg else k)
  (at level 10, c at level 100, msg at level 100, k at level 200).

(* ================================================================== *)
(** * Result persistence: [saveImageToTempFile] *)
(* ================================================================== *)

(** [BaseImageProvider.base64ToBuffer] (base.ts), also the private helper of
    [OpenAIImageClient]: the text after the first [base64,] marker, up to the
    next one, is decoded; a text without the marker is decoded whole. *)
Definition stripDataUrl (base64 : string) : string :=
  if Js.includes "base64," base64
  then nth 1 (Js.split "base64," base64) ""
  else base64.

Definition base64ToBuffer (base64 : string) : list byte :=
  Base64.decode (stripDataUrl base64).

(** The directory used when no output path is given: the literal [/tmp]
    of the code, on every system. *)
Definition tmp_dir : string := "/tmp".

(** The file path [saveImageToTempFile] settles on. *)
Definition resolveFilePath (uuid outputFormat : string) (outputPath : option string) : string :=
  match outputPath with
  | Some p =>
      if Js.truthy p then
        if Js.truthy (Path.parse_ext p) then p
        else Path.join p (uuid ++ "." ++ outputFormat)
      else Path.join tmp_dir (uuid ++ "." ++ outputFormat)
  | None => Path.join tmp_dir (uuid ++ "." ++ outputFormat)
  end.

(** [saveImageToTempFile(imageData, outputFormat = 'png', outputPath?)].
    The method is written out in each of the four providers and in
    [OpenAIImageClient]; the five bodies are the same.  [uuid] is the value
    [uuidv4()] returns when it is called.  The result is the file system
    the call leaves and the path returned, or the message of the error
    thrown by [mkdirSync] or [writeFileSync]. *)
Definition saveImageToTempFile (fs : Fs.FileSystem) (uuid : string)
    (imageData : string) (outputFormat : option string)
    (outputPath : option string) : Fs.FileSystem * Outcome string :=
  let outputFormat := match outputFormat with Some f => f | None => "png" end in
  let base64Data := stripDataUrl imageData in
  let buffer := Base64.decode base64Data in
  let '(made, filePath) :=
    match outputPath with
    | Some p =>
        if Js.truthy p then
          if Js.truthy (Path.parse_ext p) then
            let dirPath := Path.parse_dir p in
            ((if Fs.existsSync fs dirPath then (fs, None) else Fs.mkdirSync fs dirPath), p)
          else
            ((if Fs.existsSync fs p then (fs, None) else Fs.mkdirSync fs p),
             Path.join p (uuid ++ "." ++ outputFormat))
        else ((fs, None), Path.join tmp_dir (uuid ++ "." ++ outputFormat))
    | None => ((fs, None), Path.join tmp_dir (uuid ++ "." ++ outputFormat))
    end in
  match made with
  | (fs1, Some msg) => (fs1, Throw msg)
  | (fs1, None) =>
      match Fs.writeFileSync fs1 filePath buffer with
      | (fs2, Some msg) => (fs2, Throw msg)
      | (fs2, None) => (fs2, Return filePath)
      end
  end.

(* ================================================================== *)
(** * JavaScript objects used as string maps *)
(* ================================================================== *)

Module Obj.

(** The own properties of a plain object whose values are strings, in the
    order [Object.keys] lists them: array-index keys first, by value, then
    the other keys in the order they were added. *)
Definition t := list (string * string).

(** What reading a property gives: [undefined], an own string, or one of the
    members every plain object inherits from [Object.prototype] (a function,
    or the prototype itself for [__proto__]): truthy, and equal to no string. *)
Inductive value :=
| Undefined
| Str (s : string)
| Inherited (name : string).

Definition proto_members : list string :=
  [ "constructor"; "hasOwnProperty"; "isPrototypeOf"; "propertyIsEnumerable";
    "toLocaleString"; "toString"; "valueOf"; "__proto__";
    "__defineGetter__"; "__defineSetter__"; "__lookupGetter__"; "__lookupSetter__" ].

Definition value_truthy (v : value) : bool :=
  match v with
  | Undefined => false
  | Str s => Js.truthy s
  | Inherited _ => true
  end.

(** [v || d] for a string [d]. *)
Definition or_else (v : value) (d : string) : value :=
  if value_truthy v then v else Str d.

(** The own property [k], if any. *)
Fixpoint own (o : t) (k : string) : option string :=
  match o with
  | [] => None
  | (k', v) :: o' => if k' =? k then Some v else own o' k
  end.

(** [o[k]]. *)
Definition get (o : t) (k : string) : value :=
  match own o k with
  | Some v => Str v
  | None => if existsb (String.eqb k) proto_members then Inherited k else Undefined
  end.

Definition entries (o : t) : list (string * string) := o.
Definition keys (o : t) : list string := map fst o.
Definition values (o : t) : list string := map snd o.

Definition digit_of (c : ascii) : option N :=
  let n := N_of_ascii c in
  if ((48 <=? n) && (n <=? 57))%N then Some (n - 48)%N else None.

Fixpoint digits_value (acc : N) (s : string) : option N :=
  match s with
  | EmptyString => Some acc
  | String c s' =>
      match digit_of c with
      | Some d => digits_value (acc * 10 + d)%N s'
      | None => None
      end
  end.

(** The array index a key denotes: a canonical decimal numeral below
    [2^32 - 1]. *)
Definition array_index (k : string) : option N :=
  match k with
  | EmptyString => None
  | String c rest =>
      if Ascii.eqb c "0"%char && Js.truthy rest then None
      else match digits_value 0 k with
           | Some n => if (n <? 4294967295)%N then Some n else None
           | None => None
           end
  end.

Fixpoint replace (o : t) (k v : string) : t :=
  match o with
  | [] => []
  | (k', v') :: o' => if k' =? k then (k', v) :: o' else (k', v') :: replace o' k v
  end.

Fixpoint insert_index (n : N) (k v : string) (o : t) : t :=
  match o with
  | [] => [(k, v)]
  | (k', v') :: o' =>
      match array_index k' with
      | Some m => if (m <? n)%N then (k', v') :: insert_index n k v o' else (k, v) :: o
      | None => (k, v) :: o
      end
  end.

(** [o[k] = v] for a string [v].  Assigning a string to [__proto__] runs the
    inherited setter, which ignores it; a new key goes to its place in the
    enumeration order; an existing key keeps its place. *)
Definition set (o : t) (k v : string) : t :=
  if k =? "__proto__" then o
  else match own o k with
       | Some _ => replace o k v
       | None =>
           match array_index k with
           | Some n => insert_index n k v o
           | None => (o ++ [(k, v)])%list
           end
       end.

(** [Object.assign(target, source)]. *)
Definition assign (target source : t) : t :=
  fold_left (fun acc kv => set acc (fst kv) (snd kv)) (entries source) target.

(** [{ ...o }]. *)
Definition spread (o : t) : t := o.

(** [arr.includes(x)] on an array of strings. *)
Definition includes (l : list string) (x : string) : bool := existsb (String.eqb x) l.

(** A string or [undefined] as a value. *)
Definition of_option (o : option string) : value :=
  match o with
  | Some s => Str s
  | None => Undefined
  end.

End Obj.

(** [field A] is an optional property of an argument object: not there,
    there with the value [undefined], or there with a value.  A spread copies
    a property that is there, [undefined] included. *)
Inductive field (A : Type) :=
| Absent
| Undef
| Given (a : A).
Arguments Absent {A}.
Arguments Undef {A}.
Arguments Given {A} a.

(** Reading the property. *)
Definition read {A} (f : field A) : option A :=
  match f with
  | Given a => Some a
  | _ => None
  end.

(** The property in [{ ...defaults, ...params }] when [defaults] has it. *)
Definition over {A} (default : A) (f : field A) : option A :=
  match f with
  | Absent => Some default
  | Undef => None
  | Given a => Some a
  end.

(** [!!s] for an optional string. *)
Definition truthy_opt (o : option string) : bool :=
  match o with
  | Some s => Js.truthy s
  | None => false
  end.

(** The lines written with [console.log] and [console.warn].  The lines
    that list the models of a provider are left out. *)
Inductive Event :=
| Log (msg : string)
| Warn (msg : string).

(* ================================================================== *)
(** * Provider identities and capability descriptors (base.ts) *)
(* ================================================================== *)

Inductive ProviderType := OPENAI | STABILITY | REPLICATE | HUGGINGFACE.

(** The string value of each member of the enum. *)
Definition provider_id (p : ProviderType) : string :=
  match p with
  | OPENAI => "openai"
  | STABILITY => "stability"
  | REPLICATE => "replicate"
  | HUGGINGFACE => "huggingface"
  end.

Definition all_provider_types : list ProviderType :=
  [OPENAI; STABILITY; REPLICATE; HUGGINGFACE].

(** A string read as a [ProviderType] ([x as ProviderType] followed by a
    lookup keyed by the enum). *)
Definition provider_of_string (s : string) : option ProviderType :=
  find (fun p => provider_id p =? s) all_provider_types.

Definition provider_eqb (p q : ProviderType) : bool :=
  match p, q with
  | OPENAI, OPENAI | STABILITY, STABILITY
  | REPLICATE, REPLICATE | HUGGINGFACE, HUGGINGFACE => true
  | _, _ => false
  end.

Record ProviderDescriptor := {
  name : string;
  description : string;
  requiresApiKey : bool;
  envKey : string;
  supportedFeatures : list string
}.

Definition PROVIDER_CONFIGS (p : ProviderType) : ProviderDescriptor :=
  match p with
  | OPENAI =>
      {| name := "OpenAI"; description := "OpenAI DALL-E models";
         requiresApiKey := true; envKey := "OPENAI_API_KEY";
         supportedFeatures := ["text-to-image"; "image-to-image"] |}
  | STABILITY =>
      {| name := "Stability AI"; description := "Stable Diffusion models";
         requiresApiKey := true; envKey := "STABILITY_API_KEY";
         supportedFeatures := ["text-to-image"; "image-to-image"] |}
  | REPLICATE =>
      {| name := "Replicate"; description := "Various open-source models";
         requiresApiKey := true; envKey := "REPLICATE_API_TOKEN";
         supportedFeatures := ["text-to-image"; "image-to-image"] |}
  | HUGGINGFACE =>
      {| name := "Hugging Face"; description := "Hugging Face Inference API";
         requiresApiKey := true; envKey := "HUGGINGFACE_API_KEY";
         supportedFeatures := ["text-to-image"] |}
  end.

(** ** Model catalogs *)

Definition OPENAI_MODELS : Obj.t :=
  [ ("GPT_IMAGE", "gpt-image-1");
    ("DALLE2", "dall-e-2");
    ("DALLE3", "dall-e-3") ].

Definition STABILITY_MODELS : Obj.t :=
  [ ("STABLE_DIFFUSION_XL", "stable-diffusion-xl-1024-v1-0");
    ("STABLE_DIFFUSION_V2_1", "stable-diffusion-v2-1");
    ("STABLE_DIFFUSION_V1_6", "stable-diffusion-v1-6");
    ("STABLE_DIFFUSION_512_V2_1", "stable-diffusion-512-v2-1") ].

Definition REPLICATE_MODELS : Obj.t :=
  [ ("STABLE_DIFFUSION_XL",
     "stability-ai/sdxl:7762fd07cf82c948538e41f63f77d685e02b063e37e496e96eefd46c929f9bdc");
    ("STABLE_DIFFUSION",
     "stability-ai/stable-diffusion:27b93a2413e7f36cd83da926f3656280b2931564ff050bf9575f1fdf9bcd7478");
    ("FLUX_SCHNELL",
     "black-forest-labs/flux-schnell:bf2f2b6c6d3c4f7b7c5e8c6f4d2f1e6b8a9c0e8f");
    ("PLAYGROUND_V2_5",
     "playgroundai/playground-v2.5-1024px-aesthetic:a45f82a1382bed5c7aeb861dac7c7d191b0fdf74d8d57c4a0e6ed7d4d0bf7d24");
    ("KANDINSKY_2_2",
     "ai-forever/kandinsky-2.2:ad9d7879fbffa2874e1d909d1d37d9bc682889cc65b31f7bb00d2362619f194a") ].

Definition HUGGINGFACE_MODELS : Obj.t :=
  [ ("STABLE_DIFFUSION_XL", "stabilityai/stable-diffusion-xl-base-1.0");
    ("STABLE_DIFFUSION_2_1", "stabilityai/stable-diffusion-2-1");
    ("DALLE_MINI", "dalle-mini/dalle-mini");
    ("FLUX_SCHNELL", "black-forest-labs/FLUX.1-schnell");
    ("STABLE_DIFFUSION_3", "stabilityai/stable-diffusion-3-medium-diffusers");
    ("PLAYGROUND_V2_5", "playgroundai/playground-v2.5-1024px-aesthetic") ].

(** The default catalog of each provider. *)
Definition default_catalog (p : ProviderType) : Obj.t :=
  match p with
  | OPENAI => OPENAI_MODELS
  | STABILITY => STABILITY_MODELS
  | REPLICATE => REPLICATE_MODELS
  | HUGGINGFACE => HUGGINGFACE_MODELS
  end.

(* ================================================================== *)
(** * Provider clients: construction *)
(* ================================================================== *)

(** [ProviderConfig]: the two properties the constructors read. *)
Record ProviderConfig := {
  apiKey : option string;
  allowedModels : option (list string)
}.

(** A constructed provider: its class, its key and the catalog it exposes. *)
Record Provider := {
  kind : ProviderType;
  key : string;
  models : Obj.t
}.

(** [arr.forEach(f)] threading the object being filled and the warnings. *)
Definition forEach {S} (f : S -> string -> S) (l : list string) (init : S) : S :=
  fold_left f l init.

(** [config.allowedModels && config.allowedModels.length > 0]. *)
Definition has_allow_list (config : ProviderConfig) : option (list string) :=
  match allowedModels config with
  | Some (x :: l) => Some (x :: l)
  | _ => None
  end.

(** The selection loop of the OpenAI and the Stability constructors: an entry
    of the allow-list selects the catalog entry whose value it equals, and is
    ignored with a warning when there is none. *)
Definition select_by_value (catalog : Obj.t) (unknown : string -> string)
    (st : Obj.t * list Event) (modelName : string) : Obj.t * list Event :=
  let '(allowed, out) := st in
  match find (fun e => snd e =? modelName) (Obj.entries catalog) with
  | Some (k, v) => (Obj.set allowed k v, out)
  | None => (allowed, (out ++ [Warn (unknown modelName)])%list)
  end.

Definition openai_unknown (modelName : string) : string :=
  "Warning: Unknown OpenAI model " ++ Js.dq ++ modelName ++ Js.dq ++ " specified. Ignoring.".

Definition stability_unknown (modelName : string) : string :=
  "Warning: Unknown Stability AI model " ++ Js.dq ++ modelName ++ Js.dq ++ " specified. Ignoring.".

Definition client_unknown (modelName : string) : string :=
  "Warning: Unknown model " ++ Js.dq ++ modelName ++ Js.dq ++ " specified. Ignoring.".

(** The catalog part of [new OpenAIImageProvider(config)]. *)
Definition openai_allowed (config : ProviderConfig) : Obj.t * list Event :=
  match has_allow_list config with
  | Some names =>
      let '(allowed, out) :=
        forEach (select_by_value OPENAI_MODELS openai_unknown) names ([], []) in
      if (List.length (Obj.keys allowed) =? 0)%nat
      then (Obj.spread OPENAI_MODELS,
            (out ++ [Warn "No valid OpenAI models specified. Using all available models."])%list)
      else (allowed, out)
  | None => (Obj.spread OPENAI_MODELS, [])
  end.

(** [new OpenAIImageProvider(config)]. *)
Definition OpenAIImageProvider (config : ProviderConfig) : Outcome Provider * list Event :=
  if truthy_opt (apiKey config) then
    let '(allowed, out) := openai_allowed config in
    (Return {| kind := OPENAI;
               key := match apiKey config with Some k => k | None => "" end;
               models := allowed |}, out)
  else (Throw "OpenAI API key is required", []).

(** The catalog part of [new StabilityImageProvider(config)]. *)
Definition stability_allowed (config : ProviderConfig) : Obj.t * list Event :=
  match has_allow_list config with
  | Some names =>
      let '(allowed, out) :=
        forEach (select_by_value STABILITY_MODELS stability_unknown) names ([], []) in
      if (List.length (Obj.keys allowed) =? 0)%nat
      then (Obj.spread STABILITY_MODELS,
            (out ++ [Warn "No valid Stability AI models specified. Using all available models."])%list)
      else (allowed, out)
  | None => (Obj.spread STABILITY_MODELS, [])
  end.

(** [new StabilityImageProvider(config)]. *)
Definition StabilityImageProvider (config : ProviderConfig) : Outcome Provider * list Event :=
  if truthy_opt (apiKey config) then
    let '(allowed, out) := stability_allowed config in
    (Return {| kind := STABILITY;
               key := match apiKey config with Some k => k | None => "" end;
               models := allowed |}, out)
  else (Throw "Stability AI API key is required", []).

(** The selection loop of the Replicate and the Hugging Face constructors:
    an entry that selects no catalog entry is exposed as it is, under its own
    name. *)
Definition select_or_pass (catalog : Obj.t) (matches : string -> string * string -> bool)
    (allowed : Obj.t) (modelName : string) : Obj.t :=
  match find (matches modelName) (Obj.entries catalog) with
  | Some (k, v) => Obj.set allowed k v
  | None => Obj.set allowed modelName modelName
  end.

(** Replicate: [key.toLowerCase().includes(modelName.toLowerCase()) || modelName === key]. *)
Definition replicate_matches (modelName : string) (e : string * string) : bool :=
  Js.includes (Js.toLowerCase modelName) (Js.toLowerCase (fst e)) || (modelName =? fst e).

(** Hugging Face: [value === modelName || value.includes(modelName)]. *)
Definition huggingface_matches (modelName : string) (e : string * string) : bool :=
  (snd e =? modelName) || Js.includes modelName (snd e).

(** The catalog part of [new ReplicateImageProvider(config)]. *)
Definition replicate_allowed (config : ProviderConfig) : Obj.t * list Event :=
  match has_allow_list config with
  | Some names =>
      let allowed := forEach (select_or_pass REPLICATE_MODELS replicate_matches) names [] in
      if (List.length (Obj.keys allowed) =? 0)%nat
      then ([("STABLE_DIFFUSION_XL",
              "stability-ai/sdxl:7762fd07cf82c948538e41f63f77d685e02b063e37e496e96eefd46c929f9bdc")],
            [Warn "No valid Replicate models specified. Using default models."])
      else (allowed, [])
  | None => (Obj.spread REPLICATE_MODELS, [])
  end.

(** [new ReplicateImageProvider(config)]. *)
Definition ReplicateImageProvider (config : ProviderConfig) : Outcome Provider * list Event :=
  if truthy_opt (apiKey config) then
    let '(allowed, out) := replicate_allowed config in
    (Return {| kind := REPLICATE;
               key := match apiKey config with Some k => k | None => "" end;
               models := allowed |}, out)
  else (Throw "Replicate API token is required", []).

(** The catalog part of [new HuggingFaceImageProvider(config)]. *)
Definition huggingface_allowed (config : ProviderConfig) : Obj.t * list Event :=
  match has_allow_list config with
  | Some names =>
      let allowed := forEach (select_or_pass HUGGINGFACE_MODELS huggingface_matches) names [] in
      if (List.length (Obj.keys allowed) =? 0)%nat
      then ([("STABLE_DIFFUSION_XL", "stabilityai/stable-diffusion-xl-base-1.0")],
            [Warn "No valid HuggingFace models specified. Using default models."])
      else (allowed, [])
  | None => (Obj.spread HUGGINGFACE_MODELS, [])
  end.

(** [new HuggingFaceImageProvider(config)]. *)
Definition HuggingFaceImageProvider (config : ProviderConfig) : Outcome Provider * list Event :=
  if truthy_opt (apiKey config) then
    let '(allowed, out) := huggingface_allowed config in
    (Return {| kind := HUGGINGFACE;
               key := match apiKey config with Some k => k | None => "" end;
               models := allowed |}, out)
  else (Throw "Hugging Face API token is required", []).

(** [new OpenAIImageClient(apiKey, allowedModels)] (openaiImageClient.ts):
    the catalog selection of the OpenAI provider, without the key check. *)
Definition OpenAIImageClient (apiKey : string) (allowedModels : option (list string))
  : Provider * list Event :=
  let '(allowed, out) :=
    match has_allow_list {| apiKey := Some apiKey; allowedModels := allowedModels |} with
    | Some names =>
        let '(allowed, out) :=
          forEach (select_by_value OPENAI_MODELS client_unknown) names ([], []) in
        if (List.length (Obj.keys allowed) =? 0)%nat
        then (Obj.spread OPENAI_MODELS,
              (out ++ [Warn "No valid models specified. Using all available models."])%list)
        else (allowed, out)
    | None => (Obj.spread OPENAI_MODELS, [])
    end in
  ({| kind := OPENAI; key := apiKey; models := allowed |}, out).

(** [getAllowedModels()] and [getDefaultModel()], the same in every class. *)
Definition getAllowedModels (p : Provider) : Obj.t := models p.

Definition getDefaultModel (p : Provider) : option string :=
  hd_error (Obj.values (models p)).

(* ================================================================== *)
(** * The provider registry (providerFactory.ts) *)
(* ================================================================== *)

(** A [Map<ProviderType, BaseImageProvider>]: the entries in insertion
    order; setting a key that is there keeps its place. *)
Module PMap.

Definition t := list (ProviderType * Provider).

Fixpoint get (m : t) (k : ProviderType) : option Provider :=
  match m with
  | [] => None
  | (k', v) :: m' => if provider_eqb k' k then Some v else get m' k
  end.

Definition has (m : t) (k : ProviderType) : bool :=
  match get m k with Some _ => true | None => false end.

Fixpoint set (m : t) (k : ProviderType) (v : Provider) : t :=
  match m with
  | [] => [(k, v)]
  | (k', v') :: m' => if provider_eqb k' k then (k', v) :: m' else (k', v') :: set m' k v
  end.

Definition keys (m : t) : list ProviderType := map fst m.
Definition size (m : t) : nat := List.length m.

(** A lookup by a string that may or may not be a member of the enum. *)
Definition get_id (m : t) (s : string) : option Provider :=
  match provider_of_string s with
  | Some k => get m k
  | None => None
  end.

End PMap.

(** The settings of one provider in [MultiProviderConfig.providerSettings]:
    its allow-list and, since the settings are spread over the provider
    configuration, a key that would replace the one of the environment. *)
Record ProviderSettings := {
  settings_allowedModels : option (list string);
  settings_apiKey : field string
}.

Record MultiProviderConfig := {
  providers : list ProviderType;
  defaultProvider : option ProviderType;
  providerSettings : ProviderType -> option ProviderSettings
}.

(** [process.env]. *)
Definition Env := string -> option string.

Record ImageProviderFactory := {
  this_providers : PMap.t;
  this_defaultProvider : option ProviderType;
  this_config : MultiProviderConfig
}.

(** The [ProviderConfig] that [createProvider] hands to the constructor:
    [{ apiKey, allowedModels: settings?.allowedModels, ...settings }]. *)
Definition provider_config (config : MultiProviderConfig) (providerType : ProviderType)
    (envApiKey : string) : ProviderConfig :=
  match providerSettings config providerType with
  | Some st =>
      {| apiKey := over envApiKey (settings_apiKey st);
         allowedModels := settings_allowedModels st |}
  | None => {| apiKey := Some envApiKey; allowedModels := None |}
  end.

(** [createProvider(providerType)]. *)
Definition createProvider (config : MultiProviderConfig) (env : Env)
    (providerType : ProviderType) : Outcome Provider * list Event :=
  let providerConfig := PROVIDER_CONFIGS providerType in
  match env (envKey providerConfig) with
  | Some apiKey =>
      if Js.truthy apiKey then
        let cfg := provider_config config providerType apiKey in
        match providerType with
        | OPENAI => OpenAIImageProvider cfg
        | STABILITY => StabilityImageProvider cfg
        | REPLICATE => ReplicateImageProvider cfg
        | HUGGINGFACE => HuggingFaceImageProvider cfg
        end
      else (Throw (envKey providerConfig ++ " environment variable is required for "
                     ++ name providerConfig), [])
  | None => (Throw (envKey providerConfig ++ " environment variable is required for "
                      ++ name providerConfig), [])
  end.

(** One turn of the loop of [initializeProviders]: the [try] sets the
    provider, the [catch] warns and goes on. *)
Definition initialize_one (config : MultiProviderConfig) (env : Env)
    (st : PMap.t * list Event) (providerType : ProviderType) : PMap.t * list Event :=
  let '(m, out) := st in
  match createProvider config env providerType with
  | (Return provider, evs) =>
      (PMap.set m providerType provider,
       (out ++ evs ++ [Log ("✅ Initialized " ++ name (PROVIDER_CONFIGS providerType)
                              ++ " provider")])%list)
  | (Throw msg, evs) =>
      (m,
       (out ++ evs ++ [Warn ("⚠️ Failed to initialize " ++ name (PROVIDER_CONFIGS providerType)
                               ++ " provider: " ++ msg)])%list)
  end.

Definition decimal (n : nat) : string := NilEmpty.string_of_uint (Nat.to_uint n).

Definition no_providers_message : string :=
  "No providers were successfully initialized. Please check your configuration and API keys.".

(** [initializeProviders()]. *)
Definition initializeProviders (this : ImageProviderFactory) (env : Env)
  : Outcome ImageProviderFactory * list Event :=
  let '(m, out) :=
    fold_left (initialize_one (this_config this) env)
      (providers (this_config this)) (this_providers this, []) in
  if (PMap.size m =? 0)%nat then (Throw no_providers_message, out)
  else
    let finish (d : ProviderType) (out : list Event) :=
      (Return {| this_providers := m;
                 this_defaultProvider := Some d;
                 this_config := this_config this |},
       (out ++ [Log ("🚀 Image provider factory initialized with "
                       ++ decimal (PMap.size m) ++ " provider(s)");
                Log ("📌 Default provider: " ++ name (PROVIDER_CONFIGS d))])%list) in
    let switch :=
      match PMap.keys m with
      | firstProvider :: _ =>
          finish firstProvider
            (out ++ [Log ("Default provider switched to: "
                            ++ name (PROVIDER_CONFIGS firstProvider))])%list
      | [] => (Throw "No providers were successfully initialized", out)
      end in
    match this_defaultProvider this with
    | Some d => if PMap.has m d then finish d out else switch
    | None => switch
    end.

(** [new ImageProviderFactory(config)]. *)
Definition new_ImageProviderFactory (config : MultiProviderConfig) (env : Env)
  : Outcome ImageProviderFactory * list Event :=
  let this :=
    {| this_providers := [];
       this_defaultProvider :=
         match defaultProvider config with
         | Some d => Some d
         | None => hd_error (providers config)
         end;
       this_config := config |} in
  initializeProviders this env.

(** [value ?? 'undefined'] as a template literal prints it. *)
Definition show_opt (o : option string) : string :=
  match o with Some s => s | None => "undefined" end.

(** [getProvider(providerType?)].  The argument is the string the caller
    passes, a member of the enum or not. *)
Definition getProvider (this : ImageProviderFactory) (providerType : option string)
  : Outcome Provider :=
  let targetProvider :=
    if truthy_opt providerType then providerType
    else option_map provider_id (this_defaultProvider this) in
  match match targetProvider with
        | Some s => PMap.get_id (this_providers this) s
        | None => None
        end with
  | Some provider => Return provider
  | None =>
      Throw ("Provider " ++ show_opt targetProvider
               ++ " is not available. Available providers: "
               ++ Js.join ", " (map provider_id (PMap.keys (this_providers this))))
  end.

(** [getDefaultProvider()]. *)
Definition getDefaultProvider (this : ImageProviderFactory) : Outcome Provider :=
  getProvider this (option_map provider_id (this_defaultProvider this)).

(** [getAvailableProviders()]. *)
Definition getAvailableProviders (this : ImageProviderFactory) : list ProviderType :=
  PMap.keys (this_providers this).

(** The inner loop of [getAllProviderModels]: every key of the catalog with
    the provider's identity in front. *)
Definition prefixed (providerType : ProviderType) (catalog : Obj.t) : Obj.t :=
  fold_left
    (fun prefixedModels e =>
       Obj.set prefixedModels (provider_id providerType ++ "/" ++ fst e) (snd e))
    (Obj.entries catalog) [].

(** [getAllProviderModels()]: an object keyed by the provider identities,
    none of which is an array index. *)
Definition getAllProviderModels (this : ImageProviderFactory) : list (string * Obj.t) :=
  map (fun e => (provider_id (fst e), prefixed (fst e) (getAllowedModels (snd e))))
      (this_providers this).

(** The first part of [getProviderFromModel]: a model with a provider in
    front.  [modelId.split('/', 2)] keeps the first two segments. *)
Definition resolve_prefixed (this : ImageProviderFactory) (modelId : string)
  : option (Provider * Obj.value) :=
  if Js.includes "/" modelId then
    match Js.split_limit "/" modelId 2 with
    | [providerName; modelName] =>
        match PMap.get_id (this_providers this) providerName with
        | Some provider =>
            let availableModels := getAllowedModels provider in
            if Obj.value_truthy (Obj.get availableModels modelName)
               || Obj.includes (Obj.values availableModels) modelName
            then Some (provider, Obj.or_else (Obj.get availableModels modelName) modelName)
            else None
        | None => None
        end
    | _ => None
    end
  else None.

(** The second part: the first provider, in the order of the map, that has
    the whole string as a value or as a key. *)
Fixpoint resolve_plain (m : PMap.t) (modelId : string) : option (Provider * Obj.value) :=
  match m with
  | [] => None
  | (_, provider) :: m' =>
      let models := getAllowedModels provider in
      if Obj.includes (Obj.values models) modelId || Obj.includes (Obj.keys models) modelId
      then Some (provider, Obj.or_else (Obj.get models modelId) modelId)
      else resolve_plain m' modelId
  end.

(** [getProviderFromModel(modelId)]. *)
Definition getProviderFromModel (this : ImageProviderFactory) (modelId : string)
  : Outcome (Provider * Obj.value) :=
  match resolve_prefixed this modelId with
  | Some r => Return r
  | None =>
      match resolve_plain (this_providers this) modelId with
      | Some r => Return r
      | None =>
          do provider <- getDefaultProvider this;
          Return (provider, Obj.Str modelId)
      end
  end.

(** The partial configuration [createFromConfig] receives, as index.ts
    builds it: a property is either left out or set. *)
Record PartialConfig := {
  partial_providers : option (list ProviderType);
  partial_defaultProvider : option ProviderType;
  partial_providerSettings : option (ProviderType -> option ProviderSettings)
}.

(** [ImageProviderFactory.createFromConfig(config?)]. *)
Definition createFromConfig (config : option PartialConfig) (env : Env)
  : Outcome ImageProviderFactory * list Event :=
  let availableProviders :=
    filter (fun p => truthy_opt (env (envKey (PROVIDER_CONFIGS p)))) all_provider_types in
  let defaultConfig :=
    match availableProviders with
    | first :: _ =>
        {| providers := availableProviders; defaultProvider := Some first;
           providerSettings := fun _ => None |}
    | [] =>
        {| providers := [OPENAI]; defaultProvider := Some OPENAI;
           providerSettings := fun _ => None |}
    end in
  let finalConfig :=
    match config with
    | Some c =>
        {| providers :=
             match partial_providers c with Some l => l | None => providers defaultConfig end;
           defaultProvider :=
             match partial_defaultProvider c with
             | Some d => Some d
             | None => defaultProvider defaultConfig
             end;
           providerSettings :=
             match partial_providerSettings c with
             | Some f => f
             | None => providerSettings defaultConfig
             end |}
    | None => defaultConfig
    end in
  new_ImageProviderFactory finalConfig env.

(** The settings index.ts gives to the enabled providers (to OpenAI when
    none is enabled) for the models of the command line. *)
Definition settings_for (enabledProviders : list ProviderType) (allowedModels : list string)
  : ProviderType -> option ProviderSettings :=
  fun provider =>
    if existsb (provider_eqb provider)
         (match enabledProviders with [] => [OPENAI] | _ => enabledProviders end)
    then Some {| settings_allowedModels := Some allowedModels; settings_apiKey := Absent |}
    else None.

(** [factoryConfig] of index.ts, from the providers after [--providers]
    and the models after [--models]. *)
Definition factoryConfig (enabledProviders : list ProviderType) (allowedModels : list string)
  : PartialConfig :=
  {| partial_providers :=
       match enabledProviders with [] => None | _ => Some enabledProviders end;
     partial_defaultProvider := hd_error enabledProviders;
     partial_providerSettings :=
       match allowedModels with
       | [] => None
       | _ => Some (settings_for enabledProviders allowedModels)
       end |}.

(* ================================================================== *)
(** * Requests to the backends *)
(* ================================================================== *)

(** A part of a multipart form. *)
Inductive FormPart :=
| FilePart (field : string) (content : list byte) (filename : string)
| TextPart (field : string) (text : string).

(** The JSON body of an OpenAI generation request: the merged parameters;
    a property that is [None] is left out by [JSON.stringify]. *)
Record GenerationBody := {
  body_prompt : string;
  body_model : option string;
  body_n : option Z;
  body_size : option string;
  body_response_format : option string;
  body_style : option string;
  body_background : option string;
  body_quality : option string;
  body_output_format : option string;
  body_output_compression : option Z;
  body_moderation : option string;
  body_user : option string;
  body_outputPath : option string
}.

(** A value in the input of an SDK call.  [ParseInt s] is the number
    [parseInt(s)] reads in [s]. *)
Inductive InputValue :=
| Text (s : string)
| Num (z : Z)
| ParseInt (s : string).

(** The first request a method sends to its backend.  The fixed tuning
    numbers of the SDK calls (steps, guidance, strength) are not listed. *)
Inductive Request :=
| FetchJson (url : string) (bearer : string) (body : GenerationBody)
| FetchForm (url : string) (bearer : string) (form : list FormPart)
| ReplicateRun (version : Obj.value) (input : list (string * InputValue))
| ImageToImage (model : Obj.value) (inputs : list byte) (prompt : string).

(** [n.toString()] for an integer. *)
Definition Z_toString (z : Z) : string := NilEmpty.string_of_int (Z.to_int z).

(** [!!n] and [n > 1] for an optional number. *)
Definition num_truthy (o : option Z) : bool :=
  match o with Some z => negb (z =? 0)%Z | None => false end.

Definition num_gt1 (o : option Z) : bool :=
  match o with Some z => (1 <? z)%Z | None => false end.

(** [o === s] for an optional string. *)
Definition equals (o : option string) (s : string) : bool :=
  match o with Some x => x =? s | None => false end.

(** [a || b] on optional strings. *)
Definition or_opt (a b : option string) : option string :=
  if truthy_opt a then a else b.

Module Generation.

(** [ImageGenerationParams] (base.ts); numbers are integers. *)
Record Params := {
  prompt : string;
  model : field string;
  n : field Z;
  size : field string;
  style : field string;
  quality : field string;
  response_format : field string;
  output_format : field string;
  output_compression : field Z;
  background : field string;
  moderation : field string;
  user : field string;
  outputPath : field string
}.

End Generation.

Module Edit.

(** [ImageEditParams] (base.ts). *)
Record Params := {
  images : list string;
  prompt : string;
  mask : field string;
  model : field string;
  n : field Z;
  size : field string;
  quality : field string;
  response_format : field string;
  output_format : field string;
  output_compression : field Z;
  user : field string;
  outputPath : field string
}.

End Edit.

(** ** Messages of the validation errors *)

Definition prompt_required : string := "Prompt is required".
Definition images_required : string := "At least one image file path is required".
Definition dalle3_n_message : string := "dall-e-3 model only supports n=1".
Definition dalle2_size_message : string :=
  "dall-e-2 only supports sizes 256x256, 512x512, or 1024x1024".
Definition dalle3_size_message : string :=
  "dall-e-3 only supports sizes 1024x1024, 1792x1024, or 1024x1792".
Definition transparent_message : string :=
  "When background is transparent, output_format must be png or webp".
Definition edit_models_message : string :=
  "Only dall-e-2 and gpt-image-1 are supported for image editing".
Definition dalle2_single_message : string :=
  "dall-e-2 only supports a single image for editing".

Definition not_allowed_message (model : option string) (listed : list string) : string :=
  "Model " ++ Js.dq ++ show_opt model ++ Js.dq ++ " is not allowed. Allowed models: "
    ++ Js.join ", " listed.

Definition image_not_found (filePath : string) : string :=
  "Image file not found: " ++ filePath.
Definition mask_not_found (filePath : string) : string :=
  "Mask file not found: " ++ filePath.

(** [BaseImageProvider.validateParams]. *)
Definition validateParams (prompt : string) : Outcome unit :=
  if Js.truthy prompt then Return tt else Throw prompt_required.

Definition openai_baseUrl : string := "https://api.openai.com/v1/images/generations".
Definition openai_editUrl : string := "https://api.openai.com/v1/images/edits".
Definition stability_baseUrl : string := "https://api.stability.ai/v1".

(** ** [generateImages] of the OpenAI provider and of the OpenAI client *)

(** [OpenAIImageProvider.generateImages(params)], up to the [fetch]. *)
Definition OpenAIImageProvider_generateImages (this : Provider)
    (params : Generation.Params) : Outcome Request :=
  do _ <- validateParams (Generation.prompt params);
  let model :=
    match Generation.model params with
    | Absent => getDefaultModel this
    | Undef => None
    | Given m => Some m
    end in
  let n := over 1%Z (Generation.n params) in
  let size := over "1024x1024" (Generation.size params) in
  let response_format := over "b64_json" (Generation.response_format params) in
  let style := over "vivid" (Generation.style params) in
  let background := over "auto" (Generation.background params) in
  let quality := over "auto" (Generation.quality params) in
  let output_format := over "png" (Generation.output_format params) in
  let output_compression := over 100%Z (Generation.output_compression params) in
  let moderation := over "low" (Generation.moderation params) in
  throw_if truthy_opt model && negb (Obj.includes (Obj.values (models this)) (show_opt model))
    saying not_allowed_message model (Obj.values (models this));
  throw_if equals model "dall-e-3" && num_truthy n && num_gt1 n
    saying dalle3_n_message;
  let style := if negb (equals model "dall-e-3") then None else style in
  throw_if equals model "dall-e-2" && truthy_opt size
           && negb (equals size "256x256") && negb (equals size "512x512") && negb (equals size "1024x1024")
    saying dalle2_size_message;
  throw_if equals model "dall-e-3" && truthy_opt size
           && negb (equals size "1024x1024") && negb (equals size "1792x1024") && negb (equals size "1024x1792")
    saying dalle3_size_message;
  throw_if equals background "transparent" && truthy_opt output_format
           && negb (equals output_format "png") && negb (equals output_format "webp")
    saying transparent_message;
  let response_format :=
    if negb (equals model "dall-e-2") && negb (equals model "dall-e-3") then None
    else response_format in
  Return (FetchJson openai_baseUrl (key this)
            {| body_prompt := Generation.prompt params;
               body_model := model;
               body_n := n;
               body_size := size;
               body_response_format := response_format;
               body_style := style;
               body_background := background;
               body_quality := quality;
               body_output_format := output_format;
               body_output_compression := output_compression;
               body_moderation := moderation;
               body_user := read (Generation.user params);
               body_outputPath := read (Generation.outputPath params) |}).

(** [OpenAIImageClient.generateImages(params)] (openaiImageClient.ts), up
    to the [fetch]: the prompt is tested in place, the rest is the text of
    the provider's method. *)
Definition OpenAIImageClient_generateImages (this : Provider)
    (params : Generation.Params) : Outcome Request :=
  throw_if negb (Js.truthy (Generation.prompt params)) saying prompt_required;
  let model :=
    match Generation.model params with
    | Absent => getDefaultModel this
    | Undef => None
    | Given m => Some m
    end in
  let n := over 1%Z (Generation.n params) in
  let size := over "1024x1024" (Generation.size params) in
  let response_format := over "b64_json" (Generation.response_format params) in
  let style := over "vivid" (Generation.style params) in
  let background := over "auto" (Generation.background params) in
  let quality := over "auto" (Generation.quality params) in
  let output_format := over "png" (Generation.output_format params) in
  let output_compression := over 100%Z (Generation.output_compression params) in
  let moderation := over "low" (Generation.moderation params) in
  throw_if truthy_opt model && negb (Obj.includes (Obj.values (models this)) (show_opt model))
    saying not_allowed_message model (Obj.values (models this));
  throw_if equals model "dall-e-3" && num_truthy n && num_gt1 n
    saying dalle3_n_message;
  let style := if negb (equals model "dall-e-3") then None else style in
  throw_if equals model "dall-e-2" && truthy_opt size
           && negb (equals size "256x256") && negb (equals size "512x512") && negb (equals size "1024x1024")
    saying dalle2_size_message;
  throw_if equals model "dall-e-3" && truthy_opt size
           && negb (equals size "1024x1024") && negb (equals size "1792x1024") && negb (equals size "1024x1792")
    saying dalle3_size_message;
  throw_if equals background "transparent" && truthy_opt output_format
           && negb (equals output_format "png") && negb (equals output_format "webp")
    saying transparent_message;
  let response_format :=
    if negb (equals model "dall-e-2") && negb (equals model "dall-e-3") then None
    else response_format in
  Return (FetchJson openai_baseUrl (key this)
            {| body_prompt := Generation.prompt params;
               body_model := model;
               body_n := n;
               body_size := size;
               body_response_format := response_format;
               body_style := style;
               body_background := background;
               body_quality := quality;
               body_output_format := output_format;
               body_output_compression := output_compression;
               body_moderation := moderation;
               body_user := read (Generation.user params);
               body_outputPath := read (Generation.outputPath params) |}).

(** ** [editImages] of the four providers *)

(** The [forEach] of the OpenAI provider over the image paths: the first
    path that does not exist throws; the others are read and attached under
    their base name. *)
Fixpoint attach_images (fs : Fs.FileSystem) (paths : list string) : Outcome (list FormPart) :=
  match paths with
  | [] => Return []
  | filePath :: rest =>
      throw_if negb (Fs.existsSync fs filePath) saying image_not_found filePath;
      do parts <- attach_images fs rest;
      Return (FilePart "image[]" (Fs.readFileSync fs filePath) (Path.parse_base filePath) :: parts)
  end.

(** [if (x) formData.append(name, x)] for an optional string. *)
Definition text_part (field : string) (o : option string) : list FormPart :=
  match o with
  | Some s => if Js.truthy s then [TextPart field s] else []
  | None => []
  end.

(** [OpenAIImageProvider.editImages(params)], up to the [fetch]. *)
Definition OpenAIImageProvider_editImages (this : Provider) (fs : Fs.FileSystem)
    (params : Edit.Params) : Outcome Request :=
  throw_if (List.length (Edit.images params) =? 0)%nat saying images_required;
  do _ <- validateParams (Edit.prompt params);
  let model := over "gpt-image-1" (Edit.model params) in
  let n := over 1%Z (Edit.n params) in
  let size := over "1024x1024" (Edit.size params) in
  let response_format := over "b64_json" (Edit.response_format params) in
  let quality := over "auto" (Edit.quality params) in
  throw_if truthy_opt model && negb (Obj.includes (Obj.values (models this)) (show_opt model))
    saying not_allowed_message model (Obj.values (models this));
  throw_if truthy_opt model && negb (equals model "dall-e-2") && negb (equals model "gpt-image-1")
    saying edit_models_message;
  throw_if equals model "dall-e-2" && negb (List.length (Edit.images params) =? 1)%nat
    saying dalle2_single_message;
  throw_if equals model "dall-e-2" && truthy_opt size
           && negb (equals size "256x256") && negb (equals size "512x512")
           && negb (equals size "1024x1024")
    saying dalle2_size_message;
  do imageParts <- attach_images fs (Edit.images params);
  let mask := read (Edit.mask params) in
  do maskParts <-
    (match mask with
     | Some m =>
         if Js.truthy m then
           throw_if negb (Fs.existsSync fs m) saying mask_not_found m;
           Return [FilePart "mask" (Fs.readFileSync fs m) (Path.parse_base m)]
         else Return []
     | None => Return []
     end);
  Return (FetchForm openai_editUrl (key this)
            (imageParts ++ maskParts
               ++ [TextPart "prompt" (Edit.prompt params)]
               ++ text_part "model" model
               ++ (if num_truthy n then [TextPart "n" (Z_toString (match n with Some z => z | None => 0%Z end))] else [])
               ++ text_part "size" size
               ++ (if negb (equals model "gpt-image-1") then text_part "response_format" response_format else [])
               ++ text_part "quality" quality
               ++ text_part "user" (read (Edit.user params)))%list).

(** [StabilityImageProvider.editImages(params)], up to the [fetch]. *)
Definition StabilityImageProvider_editImages (this : Provider) (fs : Fs.FileSystem)
    (params : Edit.Params) : Outcome Request :=
  throw_if (List.length (Edit.images params) =? 0)%nat saying images_required;
  do _ <- validateParams (Edit.prompt params);
  let model := or_opt (read (Edit.model params)) (getDefaultModel this) in
  throw_if negb (match model with
                 | Some m => Obj.includes (Obj.values (models this)) m
                 | None => false
                 end)
    saying not_allowed_message model (Obj.values (models this));
  let imagePath := nth 0 (Edit.images params) "" in
  throw_if negb (Fs.existsSync fs imagePath) saying image_not_found imagePath;
  let mask := read (Edit.mask params) in
  do maskParts <-
    (match mask with
     | Some m =>
         if Js.truthy m then
           throw_if negb (Fs.existsSync fs m) saying mask_not_found m;
           Return [FilePart "mask_image" (Fs.readFileSync fs m) (Path.parse_base m)]
         else Return []
     | None => Return []
     end);
  let n := read (Edit.n params) in
  Return (FetchForm
            (stability_baseUrl ++ "/generation/" ++ show_opt model ++ "/image-to-image")
            (key this)
            ([TextPart "text_prompts[0][text]" (Edit.prompt params);
              TextPart "text_prompts[0][weight]" "1";
              FilePart "init_image" (Fs.readFileSync fs imagePath) (Path.parse_base imagePath)]
               ++ maskParts
               ++ [TextPart "cfg_scale" "7";
                   TextPart "samples"
                     (Z_toString (if num_truthy n then match n with Some z => z | None => 1%Z end
                                  else 1%Z));
                   TextPart "steps" "30"])%list).

(** [getMimeType(filePath)] of the Replicate provider. *)
Definition getMimeType (filePath : string) : string :=
  let ext := Js.toLowerCase (Path.extname filePath) in
  if ext =? ".png" then "image/png"
  else if (ext =? ".jpg") || (ext =? ".jpeg") then "image/jpeg"
  else if ext =? ".webp" then "image/webp"
  else if ext =? ".gif" then "image/gif"
  else "image/png".

(** [data:<mime>;base64,<content>] for a file. *)
Definition dataUri (fs : Fs.FileSystem) (filePath : string) : string :=
  "data:" ++ getMimeType filePath ++ ";base64," ++ Base64.encode (Fs.readFileSync fs filePath).

(** [extractWidthFromSize] and [extractHeightFromSize]. *)
Definition extractWidthFromSize (size : string) : InputValue :=
  if Js.includes "x" size then ParseInt (nth 0 (Js.split "x" size) "") else Num 1024.

Definition extractHeightFromSize (size : string) : InputValue :=
  if Js.includes "x" size then ParseInt (nth 1 (Js.split "x" size) "") else Num 1024.

(** [this.allowedModels[model] || model], where [model] is
    [params.model || Object.keys(this.allowedModels)[0]]. *)
Definition lookup_model (this : Provider) (model : option string) : Obj.value :=
  let found := Obj.get (models this) (show_opt model) in
  if Obj.value_truthy found then found else Obj.of_option model.

(** What the [catch] of a provider throws for an error of its [try] block. *)
Definition wrap {A} (provider : string) (m : Outcome A) : Outcome A :=
  match m with
  | Return a => Return a
  | Throw msg => Throw (provider ++ " API error: " ++ msg)
  end.

(** [ReplicateImageProvider.editImages(params)], up to [replicate.run]. *)
Definition ReplicateImageProvider_editImages (this : Provider) (fs : Fs.FileSystem)
    (params : Edit.Params) : Outcome Request :=
  throw_if (List.length (Edit.images params) =? 0)%nat saying images_required;
  do _ <- validateParams (Edit.prompt params);
  let model := or_opt (read (Edit.model params)) (hd_error (Obj.keys (models this))) in
  let modelVersion := lookup_model this model in
  throw_if negb (Obj.value_truthy modelVersion)
    saying not_allowed_message model (Obj.keys (models this));
  wrap "Replicate"
    (let imagePath := nth 0 (Edit.images params) "" in
     throw_if negb (Fs.existsSync fs imagePath) saying image_not_found imagePath;
     let n := read (Edit.n params) in
     let input :=
       [("prompt", Text (Edit.prompt params));
        ("image", Text (dataUri fs imagePath));
        ("num_outputs", Num (if num_truthy n then match n with Some z => z | None => 1%Z end
                             else 1%Z))] in
     let mask := read (Edit.mask params) in
     do input <-
       (match mask with
        | Some m =>
            if Js.truthy m then
              throw_if negb (Fs.existsSync fs m) saying mask_not_found m;
              Return (input ++ [("mask", Text (dataUri fs m))])%list
            else Return input
        | None => Return input
        end);
     let size := match or_opt (read (Edit.size params)) (Some "1024x1024") with
                 | Some sz => sz
                 | None => "1024x1024"
                 end in
     let input :=
       if Js.includes "sdxl" (show_opt model) || Js.includes "inpaint" (show_opt model)
       then (input ++ [("width", extractWidthFromSize size);
                       ("height", extractHeightFromSize size)])%list
       else input in
     Return (ReplicateRun modelVersion input)).

(** [HuggingFaceImageProvider.editImages(params)], up to
    [client.imageToImage]; the mask is not used. *)
Definition HuggingFaceImageProvider_editImages (this : Provider) (fs : Fs.FileSystem)
    (params : Edit.Params) : Outcome Request :=
  throw_if (List.length (Edit.images params) =? 0)%nat saying images_required;
  do _ <- validateParams (Edit.prompt params);
  let model := or_opt (read (Edit.model params)) (hd_error (Obj.keys (models this))) in
  let modelName := lookup_model this model in
  throw_if negb (Obj.value_truthy modelName)
    saying not_allowed_message model (Obj.keys (models this));
  wrap "HuggingFace"
    (let imagePath := nth 0 (Edit.images params) "" in
     throw_if negb (Fs.existsSync fs imagePath) saying image_not_found imagePath;
     Return (ImageToImage modelName (Fs.readFileSync fs imagePath) (Edit.prompt params))).

(** [provider.editImages(params)]: the method of the provider's class. *)
Definition editImages (this : Provider) (fs : Fs.FileSystem) (params : Edit.Params)
  : Outcome Request :=
  match kind this with
  | OPENAI => OpenAIImageProvider_editImages this fs params
  | STABILITY => StabilityImageProvider_editImages this fs params
  | REPLICATE => ReplicateImageProvider_editImages this fs params
  | HUGGINGFACE => HuggingFaceImageProvider_editImages this fs params
  end.

(* ================================================================== *)
(** * The tool handlers (index.ts) *)
(* ================================================================== *)

(** [flatModels]: the prefixed catalogs of all providers in one object. *)
Definition flatModels (providerFactory : ImageProviderFactory) : Obj.t :=
  fold_left (fun flat e => Obj.assign flat (snd e))
            (getAllProviderModels providerFactory) [].

(** [Object.keys(flatModels)[0] || defaultProvider.getDefaultModel()]. *)
Definition defaultModel (providerFactory : ImageProviderFactory) : Outcome (option string) :=
  do defaultProvider <- getDefaultProvider providerFactory;
  Return (or_opt (hd_error (Obj.keys (flatModels providerFactory)))
                 (getDefaultModel defaultProvider)).

(** What the module holds once it is loaded. *)
Record Server := {
  providerFactory : ImageProviderFactory;
  server_defaultModel : option string
}.

(** The model argument once the schema has put its default in. *)
Definition schema_model (srv : Server) (given : option string) : option string :=
  match given with
  | Some m => Some m
  | None => server_defaultModel srv
  end.

(** The choice both handlers start with: the provider and the model the
    request goes to. *)
Definition select_target (srv : Server) (model provider : option string)
  : Outcome (Provider * Obj.value) :=
  do targetProvider <- getDefaultProvider (providerFactory srv);
  let targetModel := Obj.of_option (or_opt model (server_defaultModel srv)) in
  if truthy_opt provider then
    do targetProvider <- getProvider (providerFactory srv) provider;
    Return (targetProvider, targetModel)
  else if truthy_opt model then
    do providerResult <-
      getProviderFromModel (providerFactory srv)
        (match model with Some m => m | None => "" end);
    Return providerResult
  else Return (targetProvider, targetModel).

(** The arguments of the text-to-image tool, as the handler receives them. *)
Record TextToImageArgs := {
  arg_text : string;
  arg_outputPath : string;
  arg_model : option string;
  arg_provider : option string;
  arg_size : option string;
  arg_style : option string;
  arg_output_format : option string;
  arg_output_compression : option Z;
  arg_moderation : option string;
  arg_background : option string;
  arg_quality : option string;
  arg_n : option Z
}.

(** The argument of [targetProvider.generateImages] in the handler. *)
Record GenerateCall := {
  gen_prompt : string;
  gen_model : Obj.value;
  gen_size : option string;
  gen_style : option string;
  gen_response_format : string;
  gen_output_format : option string;
  gen_output_compression : option Z;
  gen_moderation : option string;
  gen_background : option string;
  gen_quality : option string;
  gen_n : option Z
}.

(** The text-to-image handler up to its call of [generateImages]: the
    provider called and the argument it gets. *)
Definition text_to_image_call (srv : Server) (args : TextToImageArgs)
  : Outcome (Provider * GenerateCall) :=
  do target <- select_target srv (arg_model args) (arg_provider args);
  Return (fst target,
          {| gen_prompt := arg_text args;
             gen_model := snd target;
             gen_size := arg_size args;
             gen_style := arg_style args;
             gen_response_format := "b64_json";
             gen_output_format := arg_output_format args;
             gen_output_compression := arg_output_compression args;
             gen_moderation := arg_moderation args;
             gen_background := arg_background args;
             gen_quality := arg_quality args;
             gen_n := arg_n args |}).

(** The arguments of the image-to-image tool. *)
Record ImageToImageArgs := {
  edit_images : list string;
  edit_prompt : string;
  edit_outputPath : string;
  edit_mask : option string;
  edit_model : option string;
  edit_provider : option string;
  edit_size : option string;
  edit_output_format : option string;
  edit_output_compression : option Z;
  edit_quality : option string;
  edit_n : option Z
}.

(** The argument of [targetProvider.editImages] in the handler. *)
Record EditCall := {
  call_images : list string;
  call_prompt : string;
  call_mask : option string;
  call_model : Obj.value;
  call_size : option string;
  call_response_format : string;
  call_output_format : option string;
  call_output_compression : option Z;
  call_quality : option string;
  call_n : option Z
}.

(** The image-to-image handler up to its call of [editImages]. *)
Definition image_to_image_call (srv : Server) (args : ImageToImageArgs)
  : Outcome (Provider * EditCall) :=
  do target <- select_target srv (edit_model args) (edit_provider args);
  Return (fst target,
          {| call_images := edit_images args;
             call_prompt := edit_prompt args;
             call_mask := edit_mask args;
             call_model := snd target;
             call_size := edit_size args;
             call_response_format := "b64_json";
             call_output_format := edit_output_format args;
             call_output_compression := edit_output_compression args;
             call_quality := edit_quality args;
             call_n := edit_n args |}).

(** [ImageObject] and [ImageGenerationResponse]. *)
Record ImageObject := {
  url : option string;
  b64_json : option string;
  revised_prompt : option string
}.

Record ImageGenerationResponse := {
  created : Z;
  data : list ImageObject
}.

(** What a handler does with the outcome of the provider's method: the
    first image is saved and its path is the text of the result; an error,
    thrown anywhere in the handler, the save included, becomes the text of
    the result.  The file system is the one the save leaves. *)
Definition finish (label : string) (fs : Fs.FileSystem) (uuid : string)
    (selected : Outcome (Provider * ImageGenerationResponse))
    (output_format : option string) (outputPath : string)
  : Fs.FileSystem * string :=
  let imageData :=
    do sel <- selected;
    match data (snd sel) with
    | [] => Throw "No images were generated"
    | image :: _ =>
        if truthy_opt (b64_json image)
        then Return (match b64_json image with Some d => d | None => "" end)
        else Throw "Image data not found in response"
    end in
  match imageData with
  | Return d =>
      match saveImageToTempFile fs uuid d output_format (Some outputPath) with
      | (fs', Return filePath) => (fs', filePath)
      | (fs', Throw msg) => (fs', label ++ msg)
      end
  | Throw msg => (fs, label ++ msg)
  end.

(** The text-to-image handler.  [respond] is what awaiting the provider's
    [generateImages] gives for a call. *)
Definition text_to_image (srv : Server)
    (respond : Provider -> GenerateCall -> Outcome ImageGenerationResponse)
    (fs : Fs.FileSystem) (uuid : string) (args : TextToImageArgs)
  : Fs.FileSystem * string :=
  finish "Error generating image: " fs uuid
    (do c <- text_to_image_call srv args;
     do result <- respond (fst c) (snd c);
     Return (fst c, result))
    (arg_output_format args) (arg_outputPath args).

(** The image-to-image handler. *)
Definition image_to_image (srv : Server)
    (respond : Provider -> EditCall -> Outcome ImageGenerationResponse)
    (fs : Fs.FileSystem) (uuid : string) (args : ImageToImageArgs)
  : Fs.FileSystem * string :=
  finish "Error editing image: " fs uuid
    (do c <- image_to_image_call srv args;
     do result <- respond (fst c) (snd c);
     Return (fst c, result))
    (edit_output_format args) (edit_outputPath args).

(* ================================================================== *)
(** * Vocabulary of the statements *)
(* ================================================================== *)

(** No character of the string is [c]. *)
Fixpoint lacks (c : ascii) (s : string) : bool :=
  match s with
  | EmptyString => true
  | String a s' => negb (Ascii.eqb a c) && lacks c s'
  end.


(** [createProvider] returns a provider. *)
Definition constructs (config : MultiProviderConfig) (env : Env) (p : ProviderType) : bool :=
  match fst (createProvider config env p) with
  | Return _ => true
  | Throw _ => false
  end.

(** The credential [createProvider] ends up with for a provider: the value
    of its environment variable, or the key of its settings in its place. *)
Definition credential (config : MultiProviderConfig) (env : Env) (p : ProviderType)
  : option string :=
  match env (envKey (PROVIDER_CONFIGS p)) with
  | Some k => if Js.truthy k then apiKey (provider_config config p k) else None
  | None => None
  end.

(** The provider is configured and constructs. *)
Definition initialized (config : MultiProviderConfig) (env : Env) (p : ProviderType) : bool :=
  existsb (provider_eqb p) (providers config) && constructs config env p.

(** The first configured provider that constructs. *)
Definition first_initialized (config : MultiProviderConfig) (env : Env) : option ProviderType :=
  find (constructs config env) (providers config).

(** The loop of [initializeProviders]. *)
Definition initialize_all (config : MultiProviderConfig) (env : Env)
    (ps : list ProviderType) (st : PMap.t * list Event) : PMap.t * list Event :=
  fold_left (initialize_one config env) ps st.

(** The lines the loop prints for a provider. *)
Definition initialized_line (p : ProviderType) : Event :=
  Log ("✅ Initialized " ++ name (PROVIDER_CONFIGS p) ++ " provider").

Definition failed_line (p : ProviderType) (msg : string) : Event :=
  Warn ("⚠️ Failed to initialize " ++ name (PROVIDER_CONFIGS p) ++ " provider: " ++ msg).

(** ** Paths of a save *)

(** The lists that start a list, the shortest first and the list itself
    last. *)
Fixpoint prefixes {A} (l : list A) : list (list A) :=
  match l with
  | [] => []
  | x :: l' => [x] :: map (cons x) (prefixes l')
  end.

(** The segments of an absolute path. *)
Definition segments (p : string) : list string := tl (Js.split "/" p).

(** The directories on the way to [p]: from the one under the root down to
    the one that holds [p]. *)
Definition directories (p : string) : list string :=
  map Fs.key (prefixes (removelast (segments p))).

(** None of the names is a regular file. *)
Definition free (fs : Fs.FileSystem) (names : list string) : bool :=
  forallb (fun a => negb (Fs.is_file fs a)) names.

(** When the last of the names is a directory, so are the names before
    it: what exists lies in directories. *)
Definition settled (fs : Fs.FileSystem) (names : list string) : bool :=
  implb (Fs.dir fs (last names "/")) (forallb (Fs.dir fs) names).

(** File systems on which a save has its way clear: conditions under which
    it succeeds, not all the cases in which it does.  For an output path
    that names the file: the path is plain (absolute, no empty segment, no
    [.] and no [..]), no regular file stands where a directory of the way
    is needed, and the path itself is not a directory. *)
Definition writable_file (fs : Fs.FileSystem) (p : string) : bool :=
  Path.plain p
  && free fs (directories p) && settled fs (directories p)
  && negb (Fs.dir fs p).

(** For an output path that names a directory: the same for the path and
    the directories of its way, and the file [name] in it is a plain
    segment that is not a directory. *)
Definition writable_directory (fs : Fs.FileSystem) (p name : string) : bool :=
  Path.plain p
  && free fs (directories p ++ [p]) && settled fs (directories p ++ [p])
  && Path.plain_segment name
  && negb (Fs.dir fs (p ++ "/" ++ name)).

(** Without an output path: [/tmp] is a directory, and the file [name] in
    it is a plain segment that is not a directory. *)
Definition writable_tmp (fs : Fs.FileSystem) (name : string) : bool :=
  Fs.dir fs tmp_dir
  && Path.plain_segment name
  && negb (Fs.dir fs (tmp_dir ++ "/" ++ name)).

(** The condition of the branch [saveImageToTempFile] takes. *)
Definition writable (fs : Fs.FileSystem) (uuid : string)
    (outputFormat outputPath : option string) : bool :=
  let name := uuid ++ "." ++ match outputFormat with Some f => f | None => "png" end in
  match outputPath with
  | Some p =>
      if Js.truthy p then
        if Js.truthy (Path.parse_ext p) then writable_file fs p
        else writable_directory fs p name
      else writable_tmp fs name
  | None => writable_tmp fs name
  end.


(** ** Sample configurations *)

(** An environment with the keys of OpenAI and Hugging Face only. *)
Definition sample_env : Env :=
  fun k =>
    if k =? "OPENAI_API_KEY" then Some "sk-test"
    else if k =? "HUGGINGFACE_API_KEY" then Some "hf-test"
    else None.

(** An environment without any key. *)
Definition empty_env : Env := fun _ => None.

(** Stability (the default asked for), Hugging Face and OpenAI are enabled;
    Hugging Face is restricted to one model given by its Hub name. *)
Definition sample_config : MultiProviderConfig :=
  {| providers := [STABILITY; HUGGINGFACE; OPENAI];
     defaultProvider := Some STABILITY;
     providerSettings :=
       fun p =>
         match p with
         | HUGGINGFACE =>
             Some {| settings_allowedModels := Some ["runwayml/stable-diffusion-v1-5"];
                     settings_apiKey := Absent |}
         | _ => None
         end |}.

(** The registry of [sample_config] in [sample_env]. *)
Definition sample_factory : ImageProviderFactory :=
  {| this_providers :=
       [ (HUGGINGFACE,
          {| kind := HUGGINGFACE; key := "hf-test";
             models := [("runwayml/stable-diffusion-v1-5", "runwayml/stable-diffusion-v1-5")] |});
         (OPENAI, {| kind := OPENAI; key := "sk-test"; models := OPENAI_MODELS |}) ];
     this_defaultProvider := Some HUGGINGFACE;
     this_config := sample_config |}.

(** The default asked for: [config.defaultProvider || config.providers[0]]. *)
Definition requested_default (config : MultiProviderConfig) : option ProviderType :=
  match defaultProvider config with
  | Some d => Some d
  | None => hd_error (providers config)
  end.

(** The map the loop of [initializeProviders] builds from the empty map. *)
Definition built_registry (config : MultiProviderConfig) (env : Env) : PMap.t :=
  fst (initialize_all config env (providers config) ([], [])).

(** What the constructor prints for [sample_config] in [sample_env]. *)
Definition sample_out : list Event :=
  snd (new_ImageProviderFactory sample_config sample_env).

(** Each sextet is read back from its character, which is neither the
    padding sign nor a comma. *)
Definition sextet_ok (n : nat) : bool :=
  match Base64.value_of (Base64.char_of (N.of_nat n)) with
  | Some m => (m =? N.of_nat n)%N
  | None => false
  end
  && negb (Ascii.eqb (Base64.char_of (N.of_nat n)) "="%char)
  && negb (Ascii.eqb (Base64.char_of (N.of_nat n)) ","%char).


(** [new XProvider(config)] for the class [p]. *)
Definition construct (p : ProviderType) (config : ProviderConfig)
  : Outcome Provider * list Event :=
  match p with
  | OPENAI => OpenAIImageProvider config
  | STABILITY => StabilityImageProvider config
  | REPLICATE => ReplicateImageProvider config
  | HUGGINGFACE => HuggingFaceImageProvider config
  end.


(** The warning of the constructor of [p] when no entry is valid. *)
Definition fallback_warning (p : ProviderType) : string :=
  match p with
  | OPENAI => "No valid OpenAI models specified. Using all available models."
  | STABILITY => "No valid Stability AI models specified. Using all available models."
  | REPLICATE => "No valid Replicate models specified. Using default models."
  | HUGGINGFACE => "No valid HuggingFace models specified. Using default models."
  end.

(** ** Model-specific constraints of the OpenAI models *)









(** The outcome is a request to the backend. *)
Definition is_request {A} (o : Outcome A) : bool :=
  match o with
  | Return _ => true
  | Throw _ => false
  end.

(** An OpenAI provider with its whole catalog. *)
Definition sample_openai : Provider :=
  {| kind := OPENAI; key := "sk-test"; models := OPENAI_MODELS |}.

(** A request for the prompt alone. *)
Definition prompt_only (prompt : string) : Generation.Params :=
  {| Generation.prompt := prompt;
     Generation.model := Absent;
     Generation.n := Absent;
     Generation.size := Absent;
     Generation.style := Absent;
     Generation.quality := Absent;
     Generation.response_format := Absent;
     Generation.output_format := Absent;
     Generation.output_compression := Absent;
     Generation.background := Absent;
     Generation.moderation := Absent;
     Generation.user := Absent;
     Generation.outputPath := Absent |}.


(** ** Files of an edit request *)

(** The mask of the request, when it has one. *)
Definition mask_path (params : Edit.Params) : list string :=
  match Edit.mask params with
  | Given m => if Js.truthy m then [m] else []
  | _ => []
  end.

(** The local files the request refers to: the source images and the mask. *)
Definition referenced (params : Edit.Params) : list string :=
  (Edit.images params ++ mask_path params)%list.

(** The local files the provider reads for the request: the OpenAI provider
    all of them, the Stability and the Replicate providers the first image
    and the mask, the Hugging Face provider the first image. *)
Definition files_read (this : Provider) (params : Edit.Params) : list string :=
  match kind this with
  | OPENAI => (Edit.images params ++ mask_path params)%list
  | STABILITY | REPLICATE => (firstn 1 (Edit.images params) ++ mask_path params)%list
  | HUGGINGFACE => firstn 1 (Edit.images params)
  end.

(** A file system in which every path is a file. *)
Definition every_file : Fs.FileSystem :=
  {| Fs.file := fun _ => Some []; Fs.dir := fun _ => false |}.

(** The parameters of the request pass the tests of the provider: with every
    file in place the request is sent. *)
Definition parameters_pass (this : Provider) (params : Edit.Params) : Prop :=
  is_request (editImages this every_file params) = true.

(** What the [catch] of the provider puts in front of a message. *)
Definition error_label (this : Provider) : string :=
  match kind this with
  | REPLICATE => "Replicate API error: "
  | HUGGINGFACE => "HuggingFace API error: "
  | _ => ""
  end.

(** The message names the path as the file that was not found. *)
Definition names_missing (this : Provider) (msg path : string) : Prop :=
  msg = error_label this ++ image_not_found path
  \/ msg = error_label this ++ mask_not_found path.

(** A Replicate provider with its whole catalog. *)
Definition sample_replicate : Provider :=
  {| kind := REPLICATE; key := "r8-test"; models := REPLICATE_MODELS |}.

(** A file system with the single file [/in/a.png]. *)
Definition one_image : Fs.FileSystem :=
  {| Fs.file := fun q => if q =? "/in/a.png" then Some [x89; x50; x4e; x47] else None;
     Fs.dir := fun q => (q =? "/") || (q =? "/in") |}.

(** An edit request for the given images and mask. *)
Definition edit_request (images : list string) (mask : field string) : Edit.Params :=
  {| Edit.images := images;
     Edit.prompt := "add a rainbow";
     Edit.mask := mask;
     Edit.model := Absent;
     Edit.n := Absent;
     Edit.size := Absent;
     Edit.quality := Absent;
     Edit.response_format := Absent;
     Edit.output_format := Absent;
     Edit.output_compression := Absent;
     Edit.user := Absent;
     Edit.outputPath := Absent |}.

(** ** The server *)

(** What index.ts holds once it is loaded with a registry. *)
Definition load (providerFactory : ImageProviderFactory) : Outcome Server :=
  do model <- defaultModel providerFactory;
  Return {| providerFactory := providerFactory; server_defaultModel := model |}.

(** The server of [sample_config] in [sample_env]. *)
Definition sample_server : Server :=
  {| providerFactory := sample_factory;
     server_defaultModel := Some "huggingface/runwayml/stable-diffusion-v1-5" |}.

(** A text-to-image call with a model and a provider. *)
Definition generate_args (model provider : option string) : TextToImageArgs :=
  {| arg_text := "a red circle";
     arg_outputPath := "/tmp/out.png";
     arg_model := model;
     arg_provider := provider;
     arg_size := Some "1024x1024";
     arg_style := Some "vivid";
     arg_output_format := Some "png";
     arg_output_compression := Some 100%Z;
     arg_moderation := Some "low";
     arg_background := Some "auto";
     arg_quality := Some "auto";
     arg_n := Some 1%Z |}.

(** An image-to-image call with a model and a provider. *)
Definition edit_args (model provider : option string) : ImageToImageArgs :=
  {| edit_images := ["/in/a.png"];
     edit_prompt := "add a rainbow";
     edit_outputPath := "/tmp/out.png";
     edit_mask := None;
     edit_model := model;
     edit_provider := provider;
     edit_size := Some "1024x1024";
     edit_output_format := Some "png";
     edit_output_compression := Some 100%Z;
     edit_quality := Some "auto";
     edit_n := Some 1%Z |}.

(** ** Registries for the resolution of model names *)

(** A Hugging Face provider with its whole catalog. *)
Definition sample_huggingface : Provider :=
  {| kind := HUGGINGFACE; key := "hf-test"; models := HUGGINGFACE_MODELS |}.

(** OpenAI (the default) and Hugging Face, both with their whole catalogs:
    the configuration of [--providers openai huggingface]. *)
Definition plain_config : MultiProviderConfig :=
  {| providers := [OPENAI; HUGGINGFACE];
     defaultProvider := Some OPENAI;
     providerSettings := fun _ => None |}.

Definition plain_factory : ImageProviderFactory :=
  {| this_providers := [(OPENAI, sample_openai); (HUGGINGFACE, sample_huggingface)];
     this_defaultProvider := Some OPENAI;
     this_config := plain_config |}.

(** The same, with the model [runwayml/stable-diffusion-v1-5], given by its
    Hub name, as the allow-list of both providers: the configuration of
    [--providers openai huggingface --models runwayml/stable-diffusion-v1-5]. *)
Definition hub_config : MultiProviderConfig :=
  {| providers := [OPENAI; HUGGINGFACE];
     defaultProvider := Some OPENAI;
     providerSettings :=
       settings_for [OPENAI; HUGGINGFACE] ["runwayml/stable-diffusion-v1-5"] |}.

Definition hub_huggingface : Provider :=
  {| kind := HUGGINGFACE; key := "hf-test";
     models := [("runwayml/stable-diffusion-v1-5", "runwayml/stable-diffusion-v1-5")] |}.

Definition hub_factory : ImageProviderFactory :=
  {| this_providers := [(OPENAI, sample_openai); (HUGGINGFACE, hub_huggingface)];
     this_defaultProvider := Some OPENAI;
     this_config := hub_config |}.

(** The catalog of the provider a constructor returns. *)
Definition models_of (r : Outcome Provider * list Event) : option Obj.t :=
  match fst r with
  | Return p => Some (models p)
  | Throw _ => None
  end.

(* ================================================================== *)
(** * Further methods of the providers *)
(* ================================================================== *)

(** A value in the input of a generation call of an SDK.
    [AspectRatio s] is the text [convertSizeToAspectRatio(s)] returns. *)
Inductive GenerationValue :=
| Plain (v : InputValue)
| AspectRatio (size : string).

(** The JSON body of a Stability generation request, without its fixed
    numbers ([cfg_scale], [steps], the weight of the prompt). *)
Record StabilityBody := {
  text_prompt : string;
  body_height : InputValue;
  body_width : InputValue;
  body_samples : Z;
  body_style_preset : option string
}.

(** The first request [generateImages] sends, for the three providers
    other than OpenAI. *)
Inductive GenerationRequest :=
| StabilityFetch (url : string) (bearer : string) (body : StabilityBody)
| ReplicateGenerate (version : Obj.value) (input : list (string * GenerationValue))
| TextToImage (model : Obj.value) (inputs : string)
              (parameters : list (string * GenerationValue)).

(** [n || 1] for an optional number. *)
Definition count_or_one (n : option Z) : Z :=
  if num_truthy n then match n with Some z => z | None => 1%Z end else 1%Z.

(** [params.size || d]. *)
Definition size_or (size : field string) (d : string) : string :=
  match or_opt (read size) (Some d) with
  | Some s => s
  | None => d
  end.

(** [StabilityImageProvider.generateImages(params)], up to the [fetch]. *)
Definition StabilityImageProvider_generateImages (this : Provider)
    (params : Generation.Params) : Outcome GenerationRequest :=
  do _ <- validateParams (Generation.prompt params);
  let model := or_opt (read (Generation.model params)) (getDefaultModel this) in
  throw_if negb (match model with
                 | Some m => Obj.includes (Obj.values (models this)) m
                 | None => false
                 end)
    saying not_allowed_message model (Obj.values (models this));
  Return (StabilityFetch
            (stability_baseUrl ++ "/generation/" ++ show_opt model ++ "/text-to-image")
            (key this)
            {| text_prompt := Generation.prompt params;
               body_height := extractHeightFromSize (size_or (Generation.size params) "1024x1024");
               body_width := extractWidthFromSize (size_or (Generation.size params) "1024x1024");
               body_samples := count_or_one (read (Generation.n params));
               body_style_preset := read (Generation.style params) |}).

(** [ReplicateImageProvider.generateImages(params)], up to
    [replicate.run]. *)
Definition ReplicateImageProvider_generateImages (this : Provider)
    (params : Generation.Params) : Outcome GenerationRequest :=
  do _ <- validateParams (Generation.prompt params);
  let model := or_opt (read (Generation.model params)) (hd_error (Obj.keys (models this))) in
  let modelVersion := lookup_model this model in
  throw_if negb (Obj.value_truthy modelVersion)
    saying not_allowed_message model (Obj.keys (models this));
  wrap "Replicate"
    (let name := show_opt model in
     let size := Generation.size params in
     let input :=
       [("prompt", Plain (Text (Generation.prompt params)));
        ("num_outputs", Plain (Num (count_or_one (read (Generation.n params)))))] in
     let input :=
       if Js.includes "sdxl" name || Js.includes "STABLE_DIFFUSION_XL" name
       then (input ++ [("width", Plain (extractWidthFromSize (size_or size "1024x1024")));
                       ("height", Plain (extractHeightFromSize (size_or size "1024x1024")))])%list
       else if Js.includes "flux" name
       then (input ++ [("aspect_ratio", AspectRatio (size_or size "1024x1024"))])%list
       else (input ++ [("width", Plain (extractWidthFromSize (size_or size "512x512")));
                       ("height", Plain (extractHeightFromSize (size_or size "512x512")))])%list in
     let input :=
       if truthy_opt (read (Generation.style params))
          && (Js.includes "playground" name || Js.includes "PLAYGROUND" name)
       then (input ++ [("style", Plain (Text (show_opt (read (Generation.style params)))))])%list
       else input in
     Return (ReplicateGenerate modelVersion input)).

(** The message of the [TypeError] for [modelName.includes(...)] when
    [modelName] is no string. *)
Definition includes_type_error : string := "modelName.includes is not a function".

(** [supportedModels.some(model => modelName.includes(model))]. *)
Definition supports (supportedModels : list string) (modelName : Obj.value) : Outcome bool :=
  match modelName with
  | Obj.Str s => Return (existsb (fun model => Js.includes model s) supportedModels)
  | _ => Throw includes_type_error
  end.

(** [supportsCustomSize(modelName)] of the Hugging Face provider. *)
Definition supportsCustomSize (modelName : Obj.value) : Outcome bool :=
  supports [ "stabilityai/stable-diffusion-xl-base-1.0";
             "stabilityai/stable-diffusion-2-1";
             "black-forest-labs/FLUX.1-schnell" ] modelName.

(** [supportsStyle(modelName)]. *)
Definition supportsStyle (modelName : Obj.value) : Outcome bool :=
  supports [ "playgroundai/playground-v2.5-1024px-aesthetic" ] modelName.

(** [HuggingFaceImageProvider.generateImages(params)], up to the first
    [client.textToImage]. *)
Definition HuggingFaceImageProvider_generateImages (this : Provider)
    (params : Generation.Params) : Outcome GenerationRequest :=
  do _ <- validateParams (Generation.prompt params);
  let model := or_opt (read (Generation.model params)) (hd_error (Obj.keys (models this))) in
  let modelName := lookup_model this model in
  throw_if negb (Obj.value_truthy modelName)
    saying not_allowed_message model (Obj.keys (models this));
  wrap "HuggingFace"
    (let size := read (Generation.size params) in
     let style := read (Generation.style params) in
     do sized <- (if truthy_opt size then supportsCustomSize modelName else Return false);
     do styled <- (if truthy_opt style then supportsStyle modelName else Return false);
     Return (TextToImage modelName (Generation.prompt params)
               ((if sized
                 then [("width", Plain (extractWidthFromSize (show_opt size)));
                       ("height", Plain (extractHeightFromSize (show_opt size)))]
                 else [])
                ++ (if styled then [("style", Plain (Text (show_opt style)))] else []))%list)).

(** [OpenAIImageClient.editImages(params)] (openaiImageClient.ts), up to
    the [fetch]: the prompt is tested in place, the rest is the text of the
    provider's method. *)
Definition OpenAIImageClient_editImages (this : Provider) (fs : Fs.FileSystem)
    (params : Edit.Params) : Outcome Request :=
  throw_if (List.length (Edit.images params) =? 0)%nat saying images_required;
  throw_if negb (Js.truthy (Edit.prompt params)) saying prompt_required;
  let model := over "gpt-image-1" (Edit.model params) in
  let n := over 1%Z (Edit.n params) in
  let size := over "1024x1024" (Edit.size params) in
  let response_format := over "b64_json" (Edit.response_format params) in
  let quality := over "auto" (Edit.quality params) in
  throw_if truthy_opt model && negb (Obj.includes (Obj.values (models this)) (show_opt model))
    saying not_allowed_message model (Obj.values (models this));
  throw_if truthy_opt model && negb (equals model "dall-e-2") && negb (equals model "gpt-image-1")
    saying edit_models_message;
  throw_if equals model "dall-e-2" && negb (List.length (Edit.images params) =? 1)%nat
    saying dalle2_single_message;
  throw_if equals model "dall-e-2" && truthy_opt size
           && negb (equals size "256x256") && negb (equals size "512x512")
           && negb (equals size "1024x1024")
    saying dalle2_size_message;
  do imageParts <- attach_images fs (Edit.images params);
  let mask := read (Edit.mask params) in
  do maskParts <-
    (match mask with
     | Some m =>
         if Js.truthy m then
           throw_if negb (Fs.existsSync fs m) saying mask_not_found m;
           Return [FilePart "mask" (Fs.readFileSync fs m) (Path.parse_base m)]
         else Return []
     | None => Return []
     end);
  Return (FetchForm openai_editUrl (key this)
            (imageParts ++ maskParts
               ++ [TextPart "prompt" (Edit.prompt params)]
               ++ text_part "model" model
               ++ (if num_truthy n then [TextPart "n" (Z_toString (match n with Some z => z | None => 0%Z end))] else [])
               ++ text_part "size" size
               ++ (if negb (equals model "gpt-image-1") then text_part "response_format" response_format else [])
               ++ text_part "quality" quality
               ++ text_part "user" (read (Edit.user params)))%list).

(** [OpenAIImageClient.saveResponseImageToTempFile(response, index = 0,
    outputFormat = 'png', outputPath?)]: the file system the call leaves
    and the path returned or the message of the error thrown. *)
Definition saveResponseImageToTempFile (fs : Fs.FileSystem) (uuid : string)
    (response : ImageGenerationResponse) (index : option Z)
    (outputFormat : option string) (outputPath : option string)
  : Fs.FileSystem * Outcome string :=
  let index := match index with Some i => i | None => 0%Z end in
  let image :=
    if (index <? 0)%Z then None else nth_error (data response) (Z.to_nat index) in
  match image with
  | Some img =>
      if truthy_opt (b64_json img) then
        saveImageToTempFile fs uuid
          (match b64_json img with Some d => d | None => "" end)
          outputFormat outputPath
      else (fs, Throw "Response does not contain base64 image data")
  | None => (fs, Throw "Response does not contain base64 image data")
  end.

(* ================================================================== *)
(** * Further parts of the registry and of index.ts *)
(* ================================================================== *)

(** An entry of [getProviderStats()]. *)
Record ProviderStats := {
  stats_name : string;
  stats_description : string;
  modelCount : nat;
  stats_models : list string;
  stats_supportedFeatures : list string;
  isDefault : bool
}.

(** [getProviderStats()]: an object keyed by the provider identities. *)
Definition getProviderStats (this : ImageProviderFactory) : list (string * ProviderStats) :=
  map (fun e =>
         let models := getAllowedModels (snd e) in
         (provider_id (fst e),
          {| stats_name := name (PROVIDER_CONFIGS (fst e));
             stats_description := description (PROVIDER_CONFIGS (fst e));
             modelCount := List.length (Obj.keys models);
             stats_models := Obj.keys models;
             stats_supportedFeatures := supportedFeatures (PROVIDER_CONFIGS (fst e));
             isDefault := match this_defaultProvider this with
                          | Some d => provider_eqb (fst e) d
                          | None => false
                          end |}))
      (this_providers this).

(** [args.indexOf(flag)] followed by the loop from the next argument: what
    follows the first [flag]. *)
Fixpoint after_flag (flag : string) (args : list string) : option (list string) :=
  match args with
  | [] => None
  | a :: rest => if a =? flag then Some rest else after_flag flag rest
  end.

(** The arguments up to the next one that starts with [--]. *)
Fixpoint until_flag (args : list string) : list string :=
  match args with
  | [] => []
  | a :: rest => if Js.startsWith "--" a then [] else a :: until_flag rest
  end.

(** The models after [--models]. *)
Definition parse_models (args : list string) : list string :=
  match after_flag "--models" args with
  | Some rest => until_flag rest
  | None => []
  end.

(** The providers after [--providers]: an argument that is no member of
    the enum is passed over. *)
Definition parse_providers (args : list string) : list ProviderType :=
  match after_flag "--providers" args with
  | Some rest =>
      flat_map (fun a => match provider_of_string a with Some p => [p] | None => [] end)
               (until_flag rest)
  | None => []
  end.

(** The registry index.ts builds from [process.argv.slice(2)]. *)
Definition start (args : list string) (env : Env) : Outcome ImageProviderFactory * list Event :=
  createFromConfig (Some (factoryConfig (parse_providers args) (parse_models args))) env.

(** [provider.generateImages] of the three providers other than OpenAI. *)
Definition generateImages (this : Provider) (params : Generation.Params)
  : Outcome GenerationRequest :=
  match kind this with
  | STABILITY => StabilityImageProvider_generateImages this params
  | REPLICATE => ReplicateImageProvider_generateImages this params
  | _ => HuggingFaceImageProvider_generateImages this params
  end.

(* ================================================================== *)
(** * Further vocabulary of the statements *)
(* ================================================================== *)

(** The warning of the constructor of [p] for an entry it ignores. *)
Definition unknown_warning (p : ProviderType) (modelName : string) : string :=
  match p with
  | STABILITY => stability_unknown modelName
  | _ => openai_unknown modelName
  end.

(** The entry of the default catalog of [p] that an entry of an allow-list
    selects, by the test of the constructor of [p]. *)
Definition selected (p : ProviderType) (modelName : string) : option (string * string) :=
  match p with
  | OPENAI => find (fun e => snd e =? modelName) (Obj.entries OPENAI_MODELS)
  | STABILITY => find (fun e => snd e =? modelName) (Obj.entries STABILITY_MODELS)
  | REPLICATE => find (replicate_matches modelName) (Obj.entries REPLICATE_MODELS)
  | HUGGINGFACE => find (huggingface_matches modelName) (Obj.entries HUGGINGFACE_MODELS)
  end.

(** The members of a list in the order of their first mention, each once. *)
Definition first_mentions (ps : list ProviderType) : list ProviderType :=
  fold_left (fun seen p => if existsb (provider_eqb p) seen then seen else (seen ++ [p])%list)
            ps [].

(** The provider has a value that is not empty in its environment
    variable. *)
Definition has_key (env : Env) (p : ProviderType) : bool :=
  truthy_opt (env (envKey (PROVIDER_CONFIGS p))).

(** No settings of the configuration carry a key of their own. *)
Definition keys_from_env (config : MultiProviderConfig) : Prop :=
  forall p st, providerSettings config p = Some st -> settings_apiKey st = Absent.

(** The allow-list index.ts hands to the providers it has settings for. *)
Definition cli_allow_list (args : list string) : option (list string) :=
  match parse_models args with
  | [] => None
  | l => Some l
  end.

(** The configuration the registry of index.ts is built with: what
    [createFromConfig] merges from the command line and the environment. *)
Definition startup_config (args : list string) (env : Env) : MultiProviderConfig :=
  let detected := filter (has_key env) all_provider_types in
  {| providers :=
       match parse_providers args with
       | [] => match detected with [] => [OPENAI] | _ => detected end
       | enabled => enabled
       end;
     defaultProvider :=
       match parse_providers args with
       | [] => match detected with [] => Some OPENAI | first :: _ => Some first end
       | first :: _ => Some first
       end;
     providerSettings :=
       match parse_models args with
       | [] => fun _ => None
       | models => settings_for (parse_providers args) models
       end |}.

(** The client lists the string among its models: as a backend model or as
    a key of its catalog. *)
Definition lists (client : Provider) (modelId : string) : bool :=
  Obj.includes (Obj.values (getAllowedModels client)) modelId
  || Obj.includes (Obj.keys (getAllowedModels client)) modelId.

(** The request with other source images. *)
Definition with_images (images : list string) (params : Edit.Params) : Edit.Params :=
  {| Edit.images := images;
     Edit.prompt := Edit.prompt params;
     Edit.mask := Edit.mask params;
     Edit.model := Edit.model params;
     Edit.n := Edit.n params;
     Edit.size := Edit.size params;
     Edit.quality := Edit.quality params;
     Edit.response_format := Edit.response_format params;
     Edit.output_format := Edit.output_format params;
     Edit.output_compression := Edit.output_compression params;
     Edit.user := Edit.user params;
     Edit.outputPath := Edit.outputPath params |}.

(** The part of the form for a file, under a field name. *)
Definition file_part (fs : Fs.FileSystem) (field : string) (filePath : string) : FormPart :=
  FilePart field (Fs.readFileSync fs filePath) (Path.parse_base filePath).

(** The part is a text field. *)
Definition is_text (part : FormPart) : bool :=
  match part with
  | TextPart _ _ => true
  | FilePart _ _ _ => false
  end.

(** A generation request for a prompt and a model. *)
Definition prompt_for (prompt model : string) : Generation.Params :=
  {| Generation.prompt := prompt;
     Generation.model := Given model;
     Generation.n := Absent;
     Generation.size := Absent;
     Generation.style := Absent;
     Generation.quality := Absent;
     Generation.response_format := Absent;
     Generation.output_format := Absent;
     Generation.output_compression := Absent;
     Generation.background := Absent;
     Generation.moderation := Absent;
     Generation.user := Absent;
     Generation.outputPath := Absent |}.

(** A Stability provider with its whole catalog. *)
Definition sample_stability : Provider :=
  {| kind := STABILITY; key := "sk-stab"; models := STABILITY_MODELS |}.

(* ================================================================== *)
(** * Properties of the string and base64 primitives *)
(* ================================================================== *)

Section StringFacts.

Lemma startsWith_app (p s : string) :
  Js.startsWith p s = true -> exists r, s = p ++ r.
Proof.
  revert s; induction p as [|a p IH]; intros s H.
  - exists s; reflexivity.
  - destruct s as [|b s]; simpl in H; [discriminate|].
    apply andb_true_iff in H as [Hab Hps].
    apply Ascii.eqb_eq in Hab; subst b.
    destruct (IH _ Hps) as [r ->].
    exists r; reflexivity.
Qed.

Lemma lacks_app c (s t : string) : lacks c (s ++ t) = lacks c s && lacks c t.
Proof.
  induction s as [|a s IH]; simpl; [reflexivity|].
  rewrite IH, andb_assoc; reflexivity.
Qed.

Lemma lacks_comma_no_marker (s : string) :
  lacks "," s = true -> Js.includes "base64," s = false.
Proof.
  induction s as [|a s IH]; intros H; [reflexivity|].
  change (Js.includes "base64," (String a s))
    with (Js.startsWith "base64," (String a s) || Js.includes "base64," s).
  apply orb_false_iff; split.
  - destruct (Js.startsWith "base64," (String a s)) eqn:E; [|reflexivity].
    apply startsWith_app in E as [r Hr].
    rewrite Hr, lacks_app in H; simpl in H; discriminate.
  - apply IH. simpl in H. apply andb_true_iff in H as [_ H]; exact H.
Qed.

Lemma includes_cons_false p a s :
  Js.includes p (String a s) = false ->
  Js.startsWith p (String a s) = false /\ Js.includes p s = false.
Proof.
  intros H.
  change (Js.startsWith p (String a s) || Js.includes p s = false) in H.
  apply orb_false_iff in H; exact H.
Qed.

Lemma append_assoc (a b c : string) : (a ++ b) ++ c = a ++ (b ++ c).
Proof. induction a as [|x a IH]; simpl; [reflexivity|]. rewrite IH; reflexivity. Qed.

Lemma append_empty_r (a : string) : a ++ "" = a.
Proof. induction a as [|x a IH]; simpl; [reflexivity|]. rewrite IH; reflexivity. Qed.

(** A text without the separator is a single segment. *)
Lemma split_from_absent sep cur s :
  Js.includes sep s = false -> Js.split_from sep 0 cur s = [cur ++ s].
Proof.
  revert cur; induction s as [|a s IH]; intros cur H.
  - simpl. rewrite append_empty_r; reflexivity.
  - apply includes_cons_false in H as [Hs Hi].
    cbn [Js.split_from]. rewrite Hs. rewrite IH by exact Hi.
    rewrite append_assoc; reflexivity.
Qed.

End StringFacts.

Section Base64Facts.

Import Base64.

Lemma sextets_ok : forallb sextet_ok (seq 0 64) = true.
Proof. vm_compute; reflexivity. Qed.

Lemma char_of_spec (n : N) :
  (n < 64)%N ->
  value_of (char_of n) = Some n
  /\ Ascii.eqb (char_of n) "="%char = false
  /\ Ascii.eqb (char_of n) ","%char = false.
Proof.
  intros Hn.
  assert (Hin : In (N.to_nat n) (seq 0 64)) by (apply in_seq; lia).
  pose proof (proj1 (forallb_forall _ _) sextets_ok _ Hin) as H.
  unfold sextet_ok in H. rewrite N2Nat.id in H.
  apply andb_true_iff in H as [H H3]. apply andb_true_iff in H as [H1 H2].
  destruct (value_of (char_of n)) as [m|]; [|discriminate].
  apply N.eqb_eq in H1; subst m.
  repeat split; [now apply negb_true_iff in H2 | now apply negb_true_iff in H3].
Qed.

Lemma byte_of_to_N (b : byte) : byte_of_N (Byte.to_N b) = b.
Proof.
  unfold byte_of_N.
  pose proof (Byte.to_N_bounded b) as Hb.
  rewrite N.mod_small by lia.
  rewrite Byte.of_to_N; reflexivity.
Qed.

Lemma sextets_cons (n : N) (s : string) :
  (n < 64)%N -> sextets (String (char_of n) s) = n :: sextets s.
Proof.
  intros Hn. destruct (char_of_spec n Hn) as (Hv & Hp & _).
  cbn [sextets]. rewrite Hp, Hv; reflexivity.
Qed.

Lemma lacks_cons (n : N) (s : string) :
  (n < 64)%N -> lacks "," (String (char_of n) s) = lacks "," s.
Proof.
  intros Hn. destruct (char_of_spec n Hn) as (_ & _ & Hc).
  cbn [lacks]. rewrite Hc; reflexivity.
Qed.

(** Induction over a list three elements at a time. *)
Lemma list_ind3 {A} (P : list A -> Prop) :
  P [] -> (forall a, P [a]) -> (forall a b, P [a; b]) ->
  (forall a b c l, P l -> P (a :: b :: c :: l)) ->
  forall l, P l.
Proof.
  intros H0 H1 H2 H3.
  fix IH 1.
  intros [|a [|b [|c l]]];
    [exact H0 | exact (H1 a) | exact (H2 a b) | exact (H3 a b c l (IH l))].
Qed.

Ltac n_arith := zify; Z.quot_rem_to_equations; Z.div_mod_to_equations; lia.

Lemma byte_of_N_eq (n : N) (b : byte) : n = Byte.to_N b -> byte_of_N n = b.
Proof. intros ->. apply byte_of_to_N. Qed.

(** [Buffer.from(buf.toString('base64'), 'base64')] gives the bytes back. *)
Lemma decode_encode (bs : list byte) : decode (encode bs) = bs.
Proof.
  unfold decode.
  induction bs as [|a|a b|a b c l IH] using list_ind3.
  - reflexivity.
  - pose proof (Byte.to_N_bounded a) as Ha.
    cbn [encode]. rewrite !sextets_cons by n_arith.
    cbn [sextets Ascii.eqb Bool.eqb bytes_of].
    f_equal. apply byte_of_N_eq. n_arith.
  - pose proof (Byte.to_N_bounded a) as Ha. pose proof (Byte.to_N_bounded b) as Hb.
    cbn [encode]. rewrite !sextets_cons by n_arith.
    cbn [sextets Ascii.eqb Bool.eqb bytes_of].
    f_equal; [|f_equal]; apply byte_of_N_eq; n_arith.
  - pose proof (Byte.to_N_bounded a) as Ha. pose proof (Byte.to_N_bounded b) as Hb.
    pose proof (Byte.to_N_bounded c) as Hc.
    cbn [encode]. rewrite !sextets_cons by n_arith.
    cbn [bytes_of]. rewrite IH.
    f_equal; [|f_equal; [|f_equal]]; apply byte_of_N_eq; n_arith.
Qed.

(** A base64 text has no comma, hence no [base64,] marker. *)
Lemma encode_lacks_comma (bs : list byte) : lacks "," (encode bs) = true.
Proof.
  induction bs as [|a|a b|a b c l IH] using list_ind3.
  - reflexivity.
  - pose proof (Byte.to_N_bounded a) as Ha.
    cbn [encode]. rewrite !lacks_cons by n_arith. reflexivity.
  - pose proof (Byte.to_N_bounded a) as Ha. pose proof (Byte.to_N_bounded b) as Hb.
    cbn [encode]. rewrite !lacks_cons by n_arith. reflexivity.
  - pose proof (Byte.to_N_bounded a) as Ha. pose proof (Byte.to_N_bounded b) as Hb.
    pose proof (Byte.to_N_bounded c) as Hc.
    cbn [encode]. rewrite !lacks_cons by n_arith. exact IH.
Qed.

End Base64Facts.

Section Persistence.

Import Base64.

(** The marker is stripped from a data URL of a base64 text. *)
Lemma stripDataUrl_prefixed (bs : list byte) :
  stripDataUrl ("data:image/png;base64," ++ encode bs) = encode bs.
Proof.
  unfold stripDataUrl.
  assert (Hinc : Js.includes "base64," ("data:image/png;base64," ++ encode bs) = true).
  { cbn. repeat (rewrite ?orb_true_r, ?orb_true_l); reflexivity. }
  rewrite Hinc.
  unfold Js.split. cbn.
  rewrite split_from_absent by (apply lacks_comma_no_marker, encode_lacks_comma).
  reflexivity.
Qed.

Lemma stripDataUrl_plain (bs : list byte) : stripDataUrl (encode bs) = encode bs.
Proof.
  unfold stripDataUrl.
  rewrite lacks_comma_no_marker by apply encode_lacks_comma. reflexivity.
Qed.

Lemma eqb_string_refl (p : string) : (p =? p) = true.
Proof. apply String.eqb_refl. Qed.

Lemma truthy_true (p : string) : p <> "" -> Js.truthy p = true.
Proof.
  intros H. unfold Js.truthy. apply negb_true_iff, String.eqb_neq; exact H.
Qed.

Lemma truthy_false (p : string) : p = "" -> Js.truthy p = false.
Proof. intros ->; reflexivity. Qed.

(** ** Paths and their segments *)

Lemma includes_slash_lacks (s : string) : Js.includes "/" s = false -> lacks "/" s = true.
Proof.
  induction s as [|a s IH]; intros H; [reflexivity|].
  apply includes_cons_false in H as [Hs Hi].
  cbn [lacks]. rewrite (IH Hi), andb_true_r.
  cbn [Js.startsWith] in Hs. rewrite andb_true_r in Hs.
  rewrite Ascii.eqb_sym, Hs. reflexivity.
Qed.

Lemma join_cons (sep x : string) (l : list string) :
  l <> [] -> Js.join sep (x :: l) = x ++ sep ++ Js.join sep l.
Proof. destruct l; [intros H; contradiction H; reflexivity | reflexivity]. Qed.

Lemma split_from_nonempty (sep cur s : string) (skip : nat) :
  Js.split_from sep skip cur s <> [].
Proof.
  revert cur skip; induction s as [|a s IH]; intros cur skip; cbn [Js.split_from];
    [discriminate|].
  destruct skip; [|apply IH].
  destruct (Js.startsWith sep (String a s)); [discriminate | apply IH].
Qed.

Lemma join_split_from (cur s : string) :
  Js.join "/" (Js.split_from "/" 0 cur s) = cur ++ s.
Proof.
  revert cur; induction s as [|a s IH]; intros cur; cbn [Js.split_from].
  - cbn. rewrite append_empty_r. reflexivity.
  - destruct (Js.startsWith "/" (String a s)) eqn:E.
    + cbn [String.length Nat.sub].
      rewrite join_cons by apply split_from_nonempty. rewrite IH.
      cbn [Js.startsWith] in E. rewrite andb_true_r in E.
      apply Ascii.eqb_eq in E. subst a. reflexivity.
    + rewrite IH, append_assoc. reflexivity.
Qed.

Lemma join_split (p : string) : Js.join "/" (Js.split "/" p) = p.
Proof. unfold Js.split. apply join_split_from. Qed.

Lemma split_from_segment (cur s t : string) :
  Js.includes "/" s = false ->
  Js.split_from "/" 0 cur (s ++ "/" ++ t) = (cur ++ s) :: Js.split_from "/" 0 "" t.
Proof.
  revert cur; induction s as [|a s IH]; intros cur H.
  - cbn. rewrite append_empty_r. reflexivity.
  - apply includes_cons_false in H as [Hs Hi].
    cbn [Js.startsWith] in Hs. rewrite andb_true_r in Hs.
    cbn [append Js.split_from Js.startsWith]. rewrite Hs. cbn [andb].
    rewrite (IH _ Hi), append_assoc. reflexivity.
Qed.

Lemma split_join (segs : list string) :
  segs <> [] ->
  forallb (fun s => negb (Js.includes "/" s)) segs = true ->
  Js.split_from "/" 0 "" (Js.join "/" segs) = segs.
Proof.
  induction segs as [|x segs IH]; intros Hne H; [contradiction Hne; reflexivity|].
  cbn [forallb] in H. apply andb_true_iff in H as [Hx Hrest].
  apply negb_true_iff in Hx.
  destruct segs as [|y segs].
  - cbn [Js.join]. rewrite (split_from_absent _ _ _ Hx). reflexivity.
  - rewrite join_cons by discriminate.
    rewrite (split_from_segment _ _ _ Hx). cbn [append].
    rewrite IH; [reflexivity | discriminate | exact Hrest].
Qed.

Lemma split_key (segs : list string) :
  segs <> [] ->
  forallb (fun s => negb (Js.includes "/" s)) segs = true ->
  Js.split "/" (Fs.key segs) = "" :: segs.
Proof.
  intros Hne H. unfold Js.split, Fs.key. cbn [append Js.split_from Js.startsWith].
  cbn [Ascii.eqb Bool.eqb andb String.length Nat.sub].
  rewrite (split_join segs Hne H). reflexivity.
Qed.

Lemma join_snoc (segs : list string) (x : string) :
  segs <> [] -> Js.join "/" (segs ++ [x]) = Js.join "/" segs ++ "/" ++ x.
Proof.
  induction segs as [|a segs IH]; intros H; [contradiction H; reflexivity|].
  destruct segs as [|b segs]; [reflexivity|].
  change ((a :: b :: segs) ++ [x])%list with (a :: ((b :: segs) ++ [x]))%list.
  rewrite join_cons by (destruct segs; discriminate).
  rewrite IH by discriminate.
  rewrite (join_cons "/" a (b :: segs)) by discriminate.
  rewrite !append_assoc. reflexivity.
Qed.

Lemma key_snoc (segs : list string) (x : string) :
  segs <> [] -> Fs.key (segs ++ [x]) = Fs.key segs ++ "/" ++ x.
Proof.
  intros H. unfold Fs.key. rewrite (join_snoc segs x H), append_assoc. reflexivity.
Qed.

Lemma plain_segment_spec (s : string) :
  Path.plain_segment s = true ->
  s <> "" /\ Js.includes "/" s = false /\ Fs.step_of s = Fs.Down s.
Proof.
  unfold Path.plain_segment, Fs.step_of. intros H.
  apply andb_true_iff in H as [H Hdd]. apply andb_true_iff in H as [H Hd].
  apply andb_true_iff in H as [Ht Hs].
  apply negb_true_iff in Hdd, Hd, Hs.
  unfold Js.truthy in Ht. apply negb_true_iff in Ht.
  rewrite Ht, Hd, Hdd. cbn [orb].
  split; [apply String.eqb_neq; exact Ht | split; [exact Hs | reflexivity]].
Qed.

Lemma plain_segments_slash (segs : list string) :
  forallb Path.plain_segment segs = true ->
  forallb (fun s => negb (Js.includes "/" s)) segs = true.
Proof.
  induction segs as [|x segs IH]; [reflexivity|].
  cbn [forallb]. intros H. apply andb_true_iff in H as [Hx Hrest].
  destruct (plain_segment_spec x Hx) as (_ & Hs & _).
  rewrite Hs, (IH Hrest). reflexivity.
Qed.

(** A plain path is the name made of its segments. *)
Lemma plain_spec (p : string) :
  Path.plain p = true ->
  exists segs,
    segs <> []
    /\ Js.split "/" p = "" :: segs
    /\ forallb Path.plain_segment segs = true
    /\ p = Fs.key segs.
Proof.
  unfold Path.plain. intros H.
  destruct (Js.split "/" p) as [|root [|seg segs]] eqn:E; try discriminate.
  apply andb_true_iff in H as [Hroot Hsegs].
  apply String.eqb_eq in Hroot. subst root.
  exists (seg :: segs). split; [discriminate|]. split; [reflexivity|].
  split; [exact Hsegs|].
  rewrite <- (join_split p), E. unfold Fs.key.
  rewrite join_cons by discriminate. reflexivity.
Qed.

Lemma plain_key (segs : list string) :
  segs <> [] -> forallb Path.plain_segment segs = true -> Path.plain (Fs.key segs) = true.
Proof.
  intros Hne H. unfold Path.plain.
  rewrite (split_key segs Hne (plain_segments_slash segs H)).
  destruct segs as [|seg segs]; [contradiction Hne; reflexivity|].
  rewrite H. reflexivity.
Qed.

(** ** The characters of a path *)

Lemma chars_app (a b : string) :
  list_ascii_of_string (a ++ b) = (list_ascii_of_string a ++ list_ascii_of_string b)%list.
Proof. induction a as [|c a IH]; cbn; [reflexivity | rewrite IH; reflexivity]. Qed.

Lemma lacks_chars (s : string) :
  lacks "/" s = true -> forallb (fun c => negb (Path.is_slash c)) (list_ascii_of_string s) = true.
Proof.
  induction s as [|a s IH]; [reflexivity|].
  cbn [lacks list_ascii_of_string forallb]. intros H.
  apply andb_true_iff in H as [Ha Hs]. rewrite (IH Hs), andb_true_r. exact Ha.
Qed.

Lemma forallb_rev {A} (f : A -> bool) (l : list A) :
  forallb f l = true -> forallb f (rev l) = true.
Proof.
  intros H. apply forallb_forall. intros x Hx. apply in_rev in Hx.
  rewrite forallb_forall in H. apply H, Hx.
Qed.

Lemma drop_while_all {A} (f : A -> bool) (l rest : list A) :
  forallb f l = true -> Path.drop_while f (l ++ rest)%list = Path.drop_while f rest.
Proof.
  induction l as [|x l IH]; [reflexivity|].
  cbn [forallb app Path.drop_while]. intros H. apply andb_true_iff in H as [Hx Hl].
  rewrite Hx. apply IH, Hl.
Qed.

Lemma drop_while_none {A} (f : A -> bool) (l : list A) :
  forallb (fun x => negb (f x)) l = true -> l <> [] -> Path.drop_while f l = l.
Proof.
  destruct l as [|x l]; [intros _ H; contradiction H; reflexivity|].
  cbn [forallb Path.drop_while]. intros H _. apply andb_true_iff in H as [Hx _].
  apply negb_true_iff in Hx. rewrite Hx. reflexivity.
Qed.

(** The characters of a segment without a slash, read from the end. *)
Lemma segment_rev (s : string) :
  s <> "" -> Js.includes "/" s = false ->
  rev (list_ascii_of_string s) <> []
  /\ forallb (fun c => negb (Path.is_slash c)) (rev (list_ascii_of_string s)) = true.
Proof.
  intros Hne Hs. split.
  - destruct s as [|c s]; [contradiction Hne; reflexivity|].
    cbn [list_ascii_of_string rev]. intros H. apply app_eq_nil in H as [_ H]. discriminate H.
  - apply forallb_rev, lacks_chars, includes_slash_lacks, Hs.
Qed.

Lemma chars_of_key (init : list string) (last : string) :
  rev (list_ascii_of_string (Js.join "/" (init ++ [last])))
  = (rev (list_ascii_of_string last)
       ++ match init with
          | [] => []
          | _ => "/"%char :: rev (list_ascii_of_string (Js.join "/" init))
          end)%list.
Proof.
  destruct init as [|a init].
  - cbn [app Js.join]. rewrite app_nil_r. reflexivity.
  - rewrite join_snoc by discriminate.
    rewrite !chars_app, !rev_app_distr. cbn [list_ascii_of_string rev app].
    rewrite <- app_assoc. reflexivity.
Qed.

Lemma trimmed_rev_key (init : list string) (last : string) :
  last <> "" -> Js.includes "/" last = false ->
  Path.trimmed_rev (Fs.key (init ++ [last]))
  = rev (list_ascii_of_string (Js.join "/" (init ++ [last]))).
Proof.
  intros Hne Hs. unfold Path.trimmed_rev, Fs.key.
  cbn [append list_ascii_of_string]. cbn [Path.is_slash Path.slash Ascii.eqb Bool.eqb andb].
  rewrite chars_of_key.
  destruct (segment_rev last Hne Hs) as [Hnil Hall].
  destruct (rev (list_ascii_of_string last)) as [|c r]; [contradiction Hnil; reflexivity|].
  cbn [forallb] in Hall. apply andb_true_iff in Hall as [Hc _].
  apply negb_true_iff in Hc. cbn [app Path.drop_while]. rewrite Hc. reflexivity.
Qed.

(** The directory of a plain path is the name of the segments before the
    last one. *)
Lemma parse_dir_key (init : list string) (last : string) :
  last <> "" -> Js.includes "/" last = false ->
  Path.parse_dir (Fs.key (init ++ [last])) = Fs.key init.
Proof.
  intros Hne Hs. unfold Path.parse_dir.
  rewrite (trimmed_rev_key init last Hne Hs), chars_of_key.
  destruct (segment_rev last Hne Hs) as [_ Hall].
  rewrite (drop_while_all _ _ _ Hall).
  destruct init as [|a init]; cbn [Path.drop_while].
  - reflexivity.
  - cbn [Path.is_slash Path.slash Ascii.eqb Bool.eqb andb negb].
    rewrite rev_involutive, string_of_list_ascii_of_string. reflexivity.
Qed.

Lemma ends_with_slash_key (init : list string) (last : string) :
  last <> "" -> Js.includes "/" last = false ->
  Path.ends_with_slash (Fs.key (init ++ [last])) = false.
Proof.
  intros Hne Hs. unfold Path.ends_with_slash, Fs.key.
  cbn [append list_ascii_of_string rev].
  rewrite chars_of_key.
  destruct (segment_rev last Hne Hs) as [Hnil Hall].
  destruct (rev (list_ascii_of_string last)) as [|c r]; [contradiction Hnil; reflexivity|].
  cbn [forallb] in Hall. apply andb_true_iff in Hall as [Hc _].
  apply negb_true_iff in Hc. cbn [app]. exact Hc.
Qed.

Lemma components_key (init : list string) (last : string) :
  last <> "" ->
  forallb (fun s => negb (Js.includes "/" s)) (init ++ [last])%list = true ->
  Fs.components (Fs.key (init ++ [last])) = ("" :: init, last).
Proof.
  intros Hne H. unfold Fs.components.
  rewrite split_key; [|destruct init; discriminate | exact H].
  cbn [rev]. rewrite rev_app_distr. cbn [rev app Path.drop_while].
  apply String.eqb_neq in Hne. rewrite Hne.
  rewrite rev_app_distr, rev_involutive. reflexivity.
Qed.

Lemma normalize_plain (abs : bool) (segs stack : list string) :
  forallb Path.plain_segment segs = true ->
  Path.normalize_segments abs stack segs = (rev stack ++ segs)%list.
Proof.
  revert stack; induction segs as [|x segs IH]; intros stack H.
  - cbn. rewrite app_nil_r. reflexivity.
  - cbn [forallb] in H. apply andb_true_iff in H as [Hx Hrest].
    unfold Path.plain_segment in Hx.
    apply andb_true_iff in Hx as [Hx Hdd]. apply andb_true_iff in Hx as [Hx Hd].
    apply andb_true_iff in Hx as [Ht _].
    apply negb_true_iff in Hdd, Hd. unfold Js.truthy in Ht. apply negb_true_iff in Ht.
    cbn [Path.normalize_segments]. rewrite Ht, Hd, Hdd. cbn [orb].
    rewrite (IH _ Hrest). cbn [rev]. rewrite <- app_assoc. reflexivity.
Qed.

(** A name joined to a plain path is the plain path with one more
    segment. *)
Lemma join_key (segs : list string) (name : string) :
  segs <> [] ->
  forallb Path.plain_segment (segs ++ [name])%list = true ->
  Path.join (Fs.key segs) name = Fs.key (segs ++ [name])
  /\ Fs.key (segs ++ [name]) = Fs.key segs ++ "/" ++ name.
Proof.
  intros Hne H.
  assert (Hname : Path.plain_segment name = true).
  { rewrite forallb_app in H. apply andb_true_iff in H as [_ H].
    cbn [forallb] in H. rewrite andb_true_r in H. exact H. }
  destruct (plain_segment_spec name Hname) as (Hn & Hs & _).
  pose proof (key_snoc segs name Hne) as Hk.
  split; [|exact Hk].
  unfold Path.join. rewrite <- Hk.
  assert (E1 : (Fs.key segs =? "") = false) by reflexivity.
  assert (E2 : (name =? "") = false) by (apply String.eqb_neq; exact Hn).
  assert (E3 : (Fs.key (segs ++ [name]) =? "") = false) by reflexivity.
  rewrite E1, E2, E3. unfold Path.normalize. rewrite E3.
  rewrite (ends_with_slash_key segs name Hn Hs).
  rewrite split_key; [|destruct segs; discriminate | apply plain_segments_slash, H].
  cbn [Path.normalize_segments String.eqb orb].
  rewrite (normalize_plain _ _ [] H). cbn [rev app].
  assert (E4 : (Js.join "/" (segs ++ [name]) =? "") = false).
  { rewrite (join_snoc segs name Hne).
    destruct (Js.join "/" segs); reflexivity. }
  rewrite E4. assert (Ha : Path.is_absolute (Fs.key (segs ++ [name])) = true) by reflexivity.
  rewrite Ha. rewrite append_empty_r. reflexivity.
Qed.

(** ** The calls that change the file system *)

Lemma walk_dirs (fs : Fs.FileSystem) (segs cur : list string) :
  forallb Path.plain_segment segs = true ->
  forallb (Fs.dir fs) (map (fun pre => Fs.key (cur ++ pre)) (prefixes segs)) = true ->
  Fs.walk fs cur segs = inr (cur ++ segs)%list.
Proof.
  revert cur; induction segs as [|a segs IH]; intros cur Hplain Hdirs.
  - cbn. rewrite app_nil_r. reflexivity.
  - cbn [forallb] in Hplain. apply andb_true_iff in Hplain as [Ha Hrest].
    destruct (plain_segment_spec a Ha) as (_ & _ & Hstep).
    cbn [prefixes map forallb] in Hdirs. apply andb_true_iff in Hdirs as [Hd Hds].
    cbn [Fs.walk]. rewrite Hstep, Hd.
    rewrite (IH (cur ++ [a])%list Hrest).
    + rewrite <- app_assoc. reflexivity.
    + rewrite map_map in Hds.
      erewrite map_ext; [exact Hds|]. intros pre. cbn beta.
      rewrite <- app_assoc. reflexivity.
Qed.

Lemma walk_same_dirs (fs fs' : Fs.FileSystem) (segs cur r : list string) :
  (forall k, Fs.dir fs' k = Fs.dir fs k) ->
  Fs.walk fs cur segs = inr r -> Fs.walk fs' cur segs = inr r.
Proof.
  intros Hsame. revert cur; induction segs as [|a segs IH]; intros cur; cbn [Fs.walk];
    [intros H; exact H|].
  destruct (Fs.step_of a) as [| |seg]; try apply IH.
  rewrite Hsame. destruct (Fs.dir fs (Fs.key (cur ++ [seg]))); [apply IH|].
  destruct (Fs.is_file fs _); discriminate.
Qed.

(** What [mkdirSync] leaves, whatever its path and its outcome: the
    regular files as they were and the directories that were there. *)
Lemma make_frame (fs : Fs.FileSystem) (segs cur : list string) :
  (forall k, Fs.file (fst (Fs.make fs cur segs)) k = Fs.file fs k)
  /\ (forall k, Fs.dir fs k = true -> Fs.dir (fst (Fs.make fs cur segs)) k = true).
Proof.
  revert fs cur; induction segs as [|a segs IH]; intros fs cur; cbn [Fs.make].
  - split; [reflexivity | intros k H; exact H].
  - destruct (Fs.step_of a) as [| |seg]; try apply IH.
    destruct (Fs.dir fs (Fs.key (cur ++ [seg]))); [apply IH|].
    destruct (Fs.is_file fs (Fs.key (cur ++ [seg]))).
    + split; [reflexivity | intros k H; exact H].
    + destruct (IH (Fs.add_dir fs (Fs.key (cur ++ [seg]))) (cur ++ [seg])%list) as [Hf Hd].
      split.
      * intros k. rewrite Hf. reflexivity.
      * intros k H. apply Hd. cbn. rewrite H. apply orb_true_r.
Qed.

Lemma mkdir_frame (fs : Fs.FileSystem) (p : string) :
  (forall k, Fs.file (fst (Fs.mkdirSync fs p)) k = Fs.file fs k)
  /\ (forall k, Fs.dir fs k = true -> Fs.dir (fst (Fs.mkdirSync fs p)) k = true).
Proof.
  unfold Fs.mkdirSync. destruct (p =? ""); [split; [reflexivity | intros k H; exact H]|].
  pose proof (make_frame fs (Js.split "/" p) []) as H.
  destruct (Fs.make fs [] (Js.split "/" p)) as [fs' [e|]]; exact H.
Qed.

(** The directories [mkdirSync] makes on a way without regular files. *)
Lemma make_dirs (segs cur : list string) (fs : Fs.FileSystem) :
  forallb Path.plain_segment segs = true ->
  forallb (fun k => negb (Fs.is_file fs k))
          (map (fun pre => Fs.key (cur ++ pre)) (prefixes segs)) = true ->
  exists fs',
    Fs.make fs cur segs = (fs', None)
    /\ forallb (Fs.dir fs') (map (fun pre => Fs.key (cur ++ pre)) (prefixes segs)) = true
    /\ (forall k, Fs.dir fs' k = true ->
          Fs.dir fs k = true
          \/ In k (map (fun pre => Fs.key (cur ++ pre)) (prefixes segs))).
Proof.
  revert cur fs; induction segs as [|a segs IH]; intros cur fs Hplain Hfree.
  - exists fs. split; [reflexivity|]. split; [reflexivity|]. intros k H; left; exact H.
  - cbn [forallb] in Hplain. apply andb_true_iff in Hplain as [Ha Hrest].
    destruct (plain_segment_spec a Ha) as (_ & _ & Hstep).
    cbn [prefixes map forallb] in Hfree. apply andb_true_iff in Hfree as [Hf Hfs].
    apply negb_true_iff in Hf.
    assert (Hkeys : forall g : string -> bool,
               forallb g (map (fun pre => Fs.key (cur ++ pre)) (map (cons a) (prefixes segs)))
               = forallb g (map (fun pre => Fs.key ((cur ++ [a]) ++ pre)) (prefixes segs))).
    { intros g. rewrite map_map. f_equal. apply map_ext. intros pre.
      rewrite <- app_assoc. reflexivity. }
    assert (Hin : forall k,
               In k (map (fun pre => Fs.key ((cur ++ [a]) ++ pre)) (prefixes segs)) ->
               In k (map (fun pre => Fs.key (cur ++ pre)) (map (cons a) (prefixes segs)))).
    { intros k Hk. rewrite map_map. apply in_map_iff in Hk. destruct Hk as (pre & <- & Hpre).
      apply in_map_iff. exists pre. split; [|exact Hpre]. rewrite <- app_assoc. reflexivity. }
    rewrite Hkeys in Hfs.
    cbn [Fs.make]. rewrite Hstep.
    destruct (Fs.dir fs (Fs.key (cur ++ [a]))) eqn:Hd.
    + destruct (IH (cur ++ [a])%list fs Hrest Hfs) as (fs' & Hm & Hdirs & Hnew).
      pose proof (make_frame fs segs (cur ++ [a])%list) as [_ Hmono]. rewrite Hm in Hmono. cbn [fst] in Hmono.
      exists fs'. split; [exact Hm|]. split.
      * cbn [prefixes map forallb]. rewrite Hkeys, Hdirs, (Hmono _ Hd). reflexivity.
      * intros k Hk. destruct (Hnew k Hk) as [H|H]; [left; exact H|].
        right. cbn [prefixes map]. right. apply Hin, H.
    + rewrite Hf.
      destruct (IH (cur ++ [a])%list (Fs.add_dir fs (Fs.key (cur ++ [a]))) Hrest Hfs)
        as (fs' & Hm & Hdirs & Hnew).
      pose proof (make_frame (Fs.add_dir fs (Fs.key (cur ++ [a]))) segs (cur ++ [a])%list)
        as [_ Hmono].
      rewrite Hm in Hmono. cbn [fst] in Hmono.
      exists fs'. split; [exact Hm|]. split.
      * cbn [prefixes map forallb]. rewrite Hkeys, Hdirs.
        rewrite (Hmono (Fs.key (cur ++ [a]))); [reflexivity|].
        cbn. rewrite String.eqb_refl. reflexivity.
      * intros k Hk. destruct (Hnew k Hk) as [H|H].
        -- cbn in H. apply orb_true_iff in H. destruct H as [H|H]; [|left; exact H].
           apply String.eqb_eq in H. right. cbn [prefixes map]. left. symmetry; exact H.
        -- right. cbn [prefixes map]. right. apply Hin, H.
Qed.

Lemma mkdir_key (segs : list string) (fs : Fs.FileSystem) :
  forallb Path.plain_segment segs = true ->
  free fs (map Fs.key (prefixes segs)) = true ->
  exists fs',
    Fs.mkdirSync fs (Fs.key segs) = (fs', None)
    /\ forallb (Fs.dir fs') (map Fs.key (prefixes segs)) = true
    /\ (forall k, Fs.dir fs' k = true ->
          Fs.dir fs k = true \/ In k (map Fs.key (prefixes segs))).
Proof.
  intros Hplain Hfree. unfold Fs.mkdirSync.
  assert (E : (Fs.key segs =? "") = false) by reflexivity. rewrite E.
  destruct segs as [|a segs].
  - exists fs. split; [reflexivity|]. split; [reflexivity|]. intros k H; left; exact H.
  - rewrite split_key; [|discriminate | apply plain_segments_slash, Hplain].
    change (Fs.make fs [] ("" :: a :: segs)) with (Fs.make fs [] (a :: segs)).
    destruct (make_dirs (a :: segs) [] fs Hplain Hfree) as (fs' & Hm & Hd & Hnew).
    rewrite Hm. exists fs'. split; [reflexivity|]. split; [exact Hd | exact Hnew].
Qed.

(** A write that succeeds is read back through the same path; it changes
    one regular file and no directory.  A write that fails changes
    nothing. *)
Lemma write_outcome (fs fs' : Fs.FileSystem) (p : string) (data : list byte)
    (r : option string) :
  Fs.writeFileSync fs p data = (fs', r) ->
  match r with
  | None => Fs.contents fs' p = Some data /\ exists k, fs' = Fs.put fs k data
  | Some _ => fs' = fs
  end.
Proof.
  unfold Fs.writeFileSync, Fs.contents.
  destruct (p =? ""); [intros [= <- <-]; reflexivity|].
  destruct (Fs.walk fs [] (fst (Fs.components p))) as [e|cur] eqn:Ew;
    [intros [= <- <-]; reflexivity|].
  destruct (Path.ends_with_slash p); [intros [= <- <-]; reflexivity|].
  destruct (Fs.step_of (snd (Fs.components p))) as [| |seg];
    try (intros [= <- <-]; reflexivity).
  destruct (Fs.dir fs (Fs.key (cur ++ [seg]))) eqn:Ed; intros [= <- <-]; [reflexivity|].
  split; [|eexists; reflexivity].
  cbn [orb].
  rewrite (walk_same_dirs fs (Fs.put fs (Fs.key (cur ++ [seg])) data) _ _ cur);
    [|reflexivity | exact Ew].
  cbn [Fs.put Fs.dir Fs.file]. rewrite Ed, String.eqb_refl. reflexivity.
Qed.

Lemma write_key (fs : Fs.FileSystem) (init : list string) (last : string) (data : list byte) :
  forallb Path.plain_segment (init ++ [last])%list = true ->
  forallb (Fs.dir fs) (map Fs.key (prefixes init)) = true ->
  Fs.dir fs (Fs.key (init ++ [last])) = false ->
  Fs.writeFileSync fs (Fs.key (init ++ [last])) data
  = (Fs.put fs (Fs.key (init ++ [last])) data, None).
Proof.
  intros Hplain Hdirs Hfree.
  pose proof Hplain as Hp. rewrite forallb_app in Hp. apply andb_true_iff in Hp as [Hinit Hlast].
  cbn [forallb] in Hlast. rewrite andb_true_r in Hlast.
  destruct (plain_segment_spec last Hlast) as (Hne & Hs & Hstep).
  unfold Fs.writeFileSync.
  assert (E : (Fs.key (init ++ [last]) =? "") = false) by reflexivity. rewrite E.
  rewrite (components_key init last Hne (plain_segments_slash _ Hplain)).
  cbn [fst snd]. change (Fs.walk fs [] ("" :: init)) with (Fs.walk fs [] init).
  rewrite (walk_dirs fs init [] Hinit Hdirs). cbn [app].
  rewrite (ends_with_slash_key init last Hne Hs), Hstep, Hfree. reflexivity.
Qed.

(** ** The save *)

(** What every save leaves: the directories that were there; on an error
    the regular files as they were; on a return the decoded bytes behind
    the path returned, in one regular file, and the path is the one
    [resolveFilePath] gives. *)
Lemma save_outcome (fs : Fs.FileSystem) (uuid imageData : string)
    (fmt outputPath : option string) :
  let r := saveImageToTempFile fs uuid imageData fmt outputPath in
  (forall k, Fs.dir fs k = true -> Fs.dir (fst r) k = true)
  /\ match snd r with
     | Throw _ => forall k, Fs.file (fst r) k = Fs.file fs k
     | Return path =>
         path = resolveFilePath uuid (match fmt with Some f => f | None => "png" end) outputPath
         /\ Fs.contents (fst r) path = Some (base64ToBuffer imageData)
         /\ exists k, Fs.file (fst r) k = Some (base64ToBuffer imageData)
                      /\ forall q, q <> k -> Fs.file (fst r) q = Fs.file fs q
     end.
Proof.
  cbv zeta. unfold saveImageToTempFile, resolveFilePath, base64ToBuffer.
  set (buffer := Base64.decode (stripDataUrl imageData)).
  set (format := match fmt with Some f => f | None => "png" end).
  assert (Hgen : forall (made : Fs.FileSystem * option string) (filePath : string),
            ((forall k, Fs.file (fst made) k = Fs.file fs k)
             /\ (forall k, Fs.dir fs k = true -> Fs.dir (fst made) k = true)) ->
            let r := match made with
                     | (fs1, Some msg) => (fs1, Throw msg)
                     | (fs1, None) =>
                         match Fs.writeFileSync fs1 filePath buffer with
                         | (fs2, Some msg) => (fs2, Throw msg)
                         | (fs2, None) => (fs2, Return filePath)
                         end
                     end in
            (forall k, Fs.dir fs k = true -> Fs.dir (fst r) k = true)
            /\ match snd r with
               | Throw _ => forall k, Fs.file (fst r) k = Fs.file fs k
               | Return path =>
                   path = filePath
                   /\ Fs.contents (fst r) path = Some buffer
                   /\ exists k, Fs.file (fst r) k = Some buffer
                                /\ forall q, q <> k -> Fs.file (fst r) q = Fs.file fs q
               end).
  { intros [fs1 [msg|]] filePath [Hf Hd]; cbn [fst snd] in Hf, Hd; cbv zeta.
    - split; [exact Hd | exact Hf].
    - destruct (Fs.writeFileSync fs1 filePath buffer) as [fs2 r] eqn:Ew.
      pose proof (write_outcome fs1 fs2 filePath buffer r Ew) as Hw.
      destruct r as [msg|]; cbn [fst snd].
      + subst fs2. split; [exact Hd | exact Hf].
      + destruct Hw as [Hc (k & ->)]. split; [intros q Hq; apply Hd, Hq|].
        split; [reflexivity|]. split; [exact Hc|].
        exists k. cbn [Fs.put Fs.file]. rewrite String.eqb_refl. split; [reflexivity|].
        intros q Hq. apply String.eqb_neq in Hq. rewrite Hq. apply Hf. }
  assert (Hsame : (forall k, Fs.file fs k = Fs.file fs k)
                  /\ (forall k, Fs.dir fs k = true -> Fs.dir fs k = true))
    by (split; [reflexivity | intros k H; exact H]).
  destruct outputPath as [p|];
    [destruct (Js.truthy p); [destruct (Js.truthy (Path.parse_ext p))|]|]; cbv beta iota.
  - apply (Hgen _ p).
    destruct (Fs.existsSync fs (Path.parse_dir p)); [exact Hsame | apply mkdir_frame].
  - apply (Hgen _ (Path.join p (uuid ++ "." ++ format))).
    destruct (Fs.existsSync fs p); [exact Hsame | apply mkdir_frame].
  - apply (Hgen (fs, None) _). exact Hsame.
  - apply (Hgen (fs, None) _). exact Hsame.
Qed.

(** ** The directories on the way *)

Lemma prefixes_snoc {A} (l : list A) (x : A) :
  prefixes (l ++ [x]) = (prefixes l ++ [l ++ [x]])%list.
Proof.
  induction l as [|a l IH]; [reflexivity|].
  cbn [app prefixes]. rewrite IH, map_app. reflexivity.
Qed.

Lemma prefixes_in {A} (l pre : list A) :
  In pre (prefixes l) ->
  pre <> [] /\ length pre <= length l
  /\ forall g, forallb g l = true -> forallb g pre = true.
Proof.
  revert pre; induction l as [|a l IH]; intros pre H; [destruct H|].
  cbn [prefixes] in H. destruct H as [<- | H].
  - split; [discriminate|]. split; [cbn; lia|].
    intros g Hg. cbn [forallb] in *. apply andb_true_iff in Hg as [Ha _].
    rewrite Ha. reflexivity.
  - apply in_map_iff in H. destruct H as (q & <- & Hq).
    destruct (IH q Hq) as (_ & Hlen & Hall).
    split; [discriminate|]. split; [cbn; lia|].
    intros g Hg. cbn [forallb] in *. apply andb_true_iff in Hg as [Ha Hl].
    rewrite Ha, (Hall g Hl). reflexivity.
Qed.

Lemma last_prefix_key (l : list string) (d : string) :
  l <> [] -> last (map Fs.key (prefixes l)) d = Fs.key l.
Proof.
  intros Hl. rewrite (app_removelast_last "" Hl) at 1.
  rewrite prefixes_snoc, map_app. cbn [map]. rewrite last_last.
  rewrite <- (app_removelast_last "" Hl). reflexivity.
Qed.

Lemma key_of_prefix (segs : list string) (x k : string) :
  forallb Path.plain_segment (segs ++ [x])%list = true ->
  In k (map Fs.key (prefixes segs)) -> k <> Fs.key (segs ++ [x]).
Proof.
  intros Hplain Hk E. apply in_map_iff in Hk. destruct Hk as (pre & <- & Hpre).
  destruct (prefixes_in segs pre Hpre) as (Hne & Hlen & Hall).
  pose proof (plain_segments_slash _ Hplain) as Hs.
  pose proof Hs as Hs'. rewrite forallb_app in Hs'. apply andb_true_iff in Hs' as [Hsegs _].
  apply (f_equal (Js.split "/")) in E.
  rewrite (split_key pre Hne (Hall _ Hsegs)) in E.
  rewrite (split_key (segs ++ [x])%list) in E; [|destruct segs; discriminate | exact Hs].
  injection E as E. apply (f_equal (@length string)) in E.
  rewrite length_app in E. cbn in E. lia.
Qed.

Lemma plain_parts (p : string) :
  Path.plain p = true ->
  exists init last,
    p = Fs.key (init ++ [last])
    /\ forallb Path.plain_segment (init ++ [last])%list = true
    /\ directories p = map Fs.key (prefixes init)
    /\ (directories p ++ [p])%list = map Fs.key (prefixes (init ++ [last])).
Proof.
  intros Hp. destruct (plain_spec p Hp) as (segs & Hne & Hsplit & Hplain & Hkey).
  exists (removelast segs), (last segs "").
  rewrite <- (app_removelast_last "" Hne).
  assert (Hd : directories p = map Fs.key (prefixes (removelast segs))).
  { unfold directories, segments. rewrite Hsplit. reflexivity. }
  split; [exact Hkey|]. split; [exact Hplain|]. split; [exact Hd|].
  rewrite Hd. rewrite (app_removelast_last "" Hne) at 2.
  rewrite prefixes_snoc, map_app. cbn [map].
  rewrite <- (app_removelast_last "" Hne), <- Hkey. reflexivity.
Qed.

(** The test for the directory and the call that makes it: afterwards
    every directory of the way is there, and no other is new. *)
Lemma ensure_dirs (fs : Fs.FileSystem) (segs : list string) :
  forallb Path.plain_segment segs = true ->
  free fs (map Fs.key (prefixes segs)) = true ->
  settled fs (map Fs.key (prefixes segs)) = true ->
  exists fs1,
    (if Fs.existsSync fs (Fs.key segs) then (fs, None) else Fs.mkdirSync fs (Fs.key segs))
    = (fs1, None)
    /\ (forall k, Fs.file fs1 k = Fs.file fs k)
    /\ forallb (Fs.dir fs1) (map Fs.key (prefixes segs)) = true
    /\ (forall k, Fs.dir fs k = true -> Fs.dir fs1 k = true)
    /\ (forall k, Fs.dir fs1 k = true ->
          Fs.dir fs k = true \/ In k (map Fs.key (prefixes segs))).
Proof.
  intros Hplain Hfree Hsettled.
  destruct (Fs.existsSync fs (Fs.key segs)) eqn:Ex.
  - exists fs. split; [reflexivity|]. split; [reflexivity|].
    split; [|split; [intros k H; exact H | intros k H; left; exact H]].
    destruct segs as [|a segs]; [reflexivity|].
    assert (Hne : a :: segs <> []) by discriminate.
    unfold settled in Hsettled. rewrite (last_prefix_key _ "/" Hne) in Hsettled.
    unfold Fs.existsSync in Ex.
    assert (Hfile : Fs.is_file fs (Fs.key (a :: segs)) = false).
    { unfold free in Hfree. rewrite forallb_forall in Hfree.
      apply negb_true_iff, Hfree.
      rewrite <- (last_prefix_key (a :: segs) "/" Hne).
      apply (@exists_last _ _) in Hne as Hl.
      destruct (prefixes (a :: segs)) as [|q qs] eqn:Eq; [discriminate Eq|].
      assert (Hq : map Fs.key (q :: qs) <> []) by discriminate.
      rewrite (app_removelast_last "/" Hq) at 2.
      apply in_or_app. right. left. reflexivity. }
    unfold Fs.is_file in Hfile. rewrite Hfile, orb_false_r in Ex.
    rewrite Ex in Hsettled. exact Hsettled.
  - destruct (mkdir_key segs fs Hplain Hfree) as (fs1 & Hm & Hd & Hnew).
    pose proof (mkdir_frame fs (Fs.key segs)) as [Hf Hmono]. rewrite Hm in Hf, Hmono.
    exists fs1. split; [exact Hm|]. split; [exact Hf|]. split; [exact Hd|].
    split; [exact Hmono | exact Hnew].
Qed.

(** ** The three branches of the save *)

Lemma truthy_key (segs : list string) : Js.truthy (Fs.key segs) = true.
Proof. reflexivity. Qed.

Lemma save_to_file (fs : Fs.FileSystem) (uuid imageData : string) (fmt : option string)
    (init : list string) (last : string) :
  forallb Path.plain_segment (init ++ [last])%list = true ->
  Path.parse_ext (Fs.key (init ++ [last])) <> "" ->
  free fs (map Fs.key (prefixes init)) = true ->
  settled fs (map Fs.key (prefixes init)) = true ->
  Fs.dir fs (Fs.key (init ++ [last])) = false ->
  exists fs1,
    saveImageToTempFile fs uuid imageData fmt (Some (Fs.key (init ++ [last])))
    = (Fs.put fs1 (Fs.key (init ++ [last])) (base64ToBuffer imageData),
       Return (Fs.key (init ++ [last])))
    /\ (forall k, Fs.file fs1 k = Fs.file fs k)
    /\ forallb (Fs.dir fs1) (map Fs.key (prefixes init)) = true
    /\ (forall k, Fs.dir fs k = true -> Fs.dir fs1 k = true)
    /\ (forall k, Fs.dir fs1 k = true ->
          Fs.dir fs k = true \/ In k (map Fs.key (prefixes init))).
Proof.
  intros Hplain Hext Hfree Hsettled Hdir.
  pose proof Hplain as Hp. rewrite forallb_app in Hp. apply andb_true_iff in Hp as [Hinit Hlast].
  cbn [forallb] in Hlast. rewrite andb_true_r in Hlast.
  destruct (plain_segment_spec last Hlast) as (Hne & Hs & _).
  destruct (ensure_dirs fs init Hinit Hfree Hsettled) as (fs1 & He & Hf & Hd & Hmono & Hnew).
  exists fs1. split; [|split; [exact Hf | split; [exact Hd | split; [exact Hmono | exact Hnew]]]].
  unfold saveImageToTempFile.
  rewrite truthy_key, (truthy_true _ Hext), (parse_dir_key init last Hne Hs), He.
  rewrite (write_key fs1 init last _ Hplain Hd); [reflexivity|].
  destruct (Fs.dir fs1 (Fs.key (init ++ [last]))) eqn:E; [|reflexivity].
  destruct (Hnew _ E) as [H|H]; [congruence|].
  exfalso. exact (key_of_prefix init last _ Hplain H eq_refl).
Qed.

Lemma save_to_directory (fs : Fs.FileSystem) (uuid imageData : string) (fmt : option string)
    (segs : list string) :
  let name := uuid ++ "." ++ match fmt with Some f => f | None => "png" end in
  segs <> [] ->
  forallb Path.plain_segment (segs ++ [name])%list = true ->
  Path.parse_ext (Fs.key segs) = "" ->
  free fs (map Fs.key (prefixes segs)) = true ->
  settled fs (map Fs.key (prefixes segs)) = true ->
  Fs.dir fs (Fs.key (segs ++ [name])) = false ->
  exists fs1,
    saveImageToTempFile fs uuid imageData fmt (Some (Fs.key segs))
    = (Fs.put fs1 (Fs.key (segs ++ [name])) (base64ToBuffer imageData),
       Return (Fs.key (segs ++ [name])))
    /\ (forall k, Fs.file fs1 k = Fs.file fs k)
    /\ forallb (Fs.dir fs1) (map Fs.key (prefixes segs)) = true
    /\ (forall k, Fs.dir fs k = true -> Fs.dir fs1 k = true)
    /\ (forall k, Fs.dir fs1 k = true ->
          Fs.dir fs k = true \/ In k (map Fs.key (prefixes segs))).
Proof.
  intros name Hne Hplain Hext Hfree Hsettled Hdir.
  pose proof Hplain as Hp. rewrite forallb_app in Hp. apply andb_true_iff in Hp as [Hsegs _].
  destruct (ensure_dirs fs segs Hsegs Hfree Hsettled) as (fs1 & He & Hf & Hd & Hmono & Hnew).
  exists fs1. split; [|split; [exact Hf | split; [exact Hd | split; [exact Hmono | exact Hnew]]]].
  unfold saveImageToTempFile.
  rewrite truthy_key, (truthy_false _ Hext), He.
  fold name. rewrite (proj1 (join_key segs name Hne Hplain)).
  rewrite (write_key fs1 segs name _ Hplain Hd); [reflexivity|].
  destruct (Fs.dir fs1 (Fs.key (segs ++ [name]))) eqn:E; [|reflexivity].
  destruct (Hnew _ E) as [H|H]; [congruence|].
  exfalso. exact (key_of_prefix segs name _ Hplain H eq_refl).
Qed.

Lemma tmp_file_key (name : string) :
  Path.plain_segment name = true ->
  Path.join tmp_dir name = Fs.key ["tmp"; name]
  /\ Fs.key ["tmp"; name] = tmp_dir ++ "/" ++ name
  /\ forallb Path.plain_segment ["tmp"; name] = true.
Proof.
  intros Hn.
  assert (Hplain : forallb Path.plain_segment (["tmp"] ++ [name])%list = true).
  { cbn [app forallb]. rewrite Hn. reflexivity. }
  destruct (join_key ["tmp"] name) as [Hj Hk]; [discriminate | exact Hplain|].
  split; [exact Hj|]. split; [exact Hk | exact Hplain].
Qed.

Lemma save_to_tmp (fs : Fs.FileSystem) (uuid imageData : string)
    (fmt o : option string) :
  let name := uuid ++ "." ++ match fmt with Some f => f | None => "png" end in
  o = None \/ o = Some "" ->
  Path.plain_segment name = true ->
  (Fs.dir fs tmp_dir = true -> Fs.dir fs (tmp_dir ++ "/" ++ name) = false ->
     saveImageToTempFile fs uuid imageData fmt o
     = (Fs.put fs (tmp_dir ++ "/" ++ name) (base64ToBuffer imageData),
        Return (tmp_dir ++ "/" ++ name)))
  /\ (Fs.existsSync fs tmp_dir = false ->
     saveImageToTempFile fs uuid imageData fmt o
     = (fs, Throw (Fs.message Fs.ENOENT "open" (tmp_dir ++ "/" ++ name)))).
Proof.
  intros name Ho Hn.
  destruct (tmp_file_key name Hn) as (Hj & Hk & Hplain).
  destruct (plain_segment_spec name Hn) as (Hne & Hs & Hstep).
  assert (E : saveImageToTempFile fs uuid imageData fmt o
              = match Fs.writeFileSync fs (Fs.key ["tmp"; name]) (base64ToBuffer imageData) with
                | (fs2, Some msg) => (fs2, Throw msg)
                | (fs2, None) => (fs2, Return (Fs.key ["tmp"; name]))
                end).
  { unfold saveImageToTempFile. fold name.
    destruct Ho as [-> | ->]; cbv beta iota; rewrite ?(truthy_false "" eq_refl), Hj; reflexivity. }
  rewrite E, <- Hk. split.
  - intros Htmp Hfree.
    rewrite (write_key fs ["tmp"] name _ Hplain); [reflexivity | | exact Hfree].
    cbn [prefixes map forallb]. rewrite andb_true_r. exact Htmp.
  - intros Hno. unfold Fs.existsSync in Hno. apply orb_false_iff in Hno as [Hd Hf].
    unfold Fs.writeFileSync.
    assert (E0 : (Fs.key ["tmp"; name] =? "") = false) by reflexivity. rewrite E0.
    pose proof (components_key ["tmp"] name Hne (plain_segments_slash _ Hplain)) as Hc.
    cbn [app] in Hc. rewrite Hc. cbn [fst snd].
    assert (Ew : Fs.walk fs [] [""; "tmp"] = inl Fs.ENOENT).
    { change (Fs.walk fs [] [""; "tmp"])
        with (if Fs.dir fs tmp_dir then Fs.walk fs ["tmp"] []
              else if Fs.is_file fs tmp_dir then inl Fs.ENOTDIR else inl Fs.ENOENT).
      rewrite Hd. unfold Fs.is_file. rewrite Hf. reflexivity. }
    rewrite Ew. reflexivity.
Qed.

(** A save whose way is clear returns, and leaves the decoded bytes under
    the path it returns. *)
Lemma save_writable (fs : Fs.FileSystem) (uuid imageData : string)
    (fmt outputPath : option string) :
  writable fs uuid fmt outputPath = true ->
  exists fs1 path,
    saveImageToTempFile fs uuid imageData fmt outputPath
    = (Fs.put fs1 path (base64ToBuffer imageData), Return path).
Proof.
  unfold writable.
  set (name := uuid ++ "." ++ match fmt with Some f => f | None => "png" end).
  assert (Htmp : forall o, o = None \/ o = Some "" -> writable_tmp fs name = true ->
            exists fs1 path,
              saveImageToTempFile fs uuid imageData fmt o
              = (Fs.put fs1 path (base64ToBuffer imageData), Return path)).
  { intros o Ho H. unfold writable_tmp in H.
    apply andb_true_iff in H as [H Hfree]. apply andb_true_iff in H as [Hd Hn].
    apply negb_true_iff in Hfree.
    destruct (save_to_tmp fs uuid imageData fmt o Ho Hn) as [Hok _].
    exists fs, (tmp_dir ++ "/" ++ name). exact (Hok Hd Hfree). }
  destruct outputPath as [p|]; [|apply Htmp; left; reflexivity].
  destruct (Js.truthy p) eqn:Tp.
  2:{ unfold Js.truthy in Tp. apply negb_false_iff, String.eqb_eq in Tp. subst p.
      apply Htmp. right. reflexivity. }
  destruct (Js.truthy (Path.parse_ext p)) eqn:Te.
  - unfold writable_file. intros H.
    apply andb_true_iff in H as [H Hdir]. apply andb_true_iff in H as [H Hsettled].
    apply andb_true_iff in H as [Hp Hfree]. apply negb_true_iff in Hdir.
    destruct (plain_parts p Hp) as (init & last & -> & Hplain & Hds & _).
    rewrite Hds in Hfree, Hsettled.
    destruct (save_to_file fs uuid imageData fmt init last Hplain) as (fs1 & E & _);
      [|exact Hfree | exact Hsettled | exact Hdir | exists fs1; eexists; exact E].
    intros E. rewrite E in Te. discriminate Te.
  - unfold writable_directory. intros H.
    apply andb_true_iff in H as [H Hdir]. apply andb_true_iff in H as [H Hn].
    apply andb_true_iff in H as [H Hsettled].
    apply andb_true_iff in H as [Hp Hfree]. apply negb_true_iff in Hdir.
    destruct (plain_parts p Hp) as (init & last & -> & Hplain & _ & Hds).
    rewrite Hds in Hfree, Hsettled.
    assert (Hne : (init ++ [last])%list <> []) by (destruct init; discriminate).
    assert (Hall : forallb Path.plain_segment ((init ++ [last]) ++ [name])%list = true).
    { rewrite forallb_app, Hplain. cbn [forallb]. rewrite Hn. reflexivity. }
    rewrite <- (proj2 (join_key _ name Hne Hall)) in Hdir.
    destruct (save_to_directory fs uuid imageData fmt (init ++ [last])%list Hne Hall)
      as (fs1 & E & _);
      [|exact Hfree | exact Hsettled | exact Hdir | exists fs1; eexists; exact E].
    unfold Js.truthy in Te. apply negb_false_iff, String.eqb_eq in Te. exact Te.
Qed.

(** C6.  A base64 text with the prefix [data:image/png;base64,] in front
    is saved exactly as the text without it: same outcome, same file
    system.  When the save returns a path, the file read through that path
    holds exactly the bytes the text encodes; it returns whenever the way
    of its output path is clear ([writable]), whatever the format.
    [base64ToBuffer] gives the same bytes. *)
Theorem persist_roundtrip (b : list byte) (fs : Fs.FileSystem) (uuid : string)
    (fmt outputPath : option string) :
  let prefixed := saveImageToTempFile fs uuid ("data:image/png;base64," ++ encode b) fmt outputPath in
  let plain := saveImageToTempFile fs uuid (encode b) fmt outputPath in
  prefixed = plain
  /\ (forall path, snd plain = Return path -> Fs.contents (fst plain) path = Some b)
  /\ (writable fs uuid fmt outputPath = true ->
      exists path, snd plain = Return path /\ Fs.file (fst plain) path = Some b)
  /\ base64ToBuffer ("data:image/png;base64," ++ encode b) = b
  /\ base64ToBuffer (encode b) = b.
Proof.
  assert (H1 : base64ToBuffer ("data:image/png;base64," ++ encode b) = b).
  { unfold base64ToBuffer. rewrite stripDataUrl_prefixed. apply decode_encode. }
  assert (H2 : base64ToBuffer (encode b) = b).
  { unfold base64ToBuffer. rewrite stripDataUrl_plain. apply decode_encode. }
  cbv zeta. split; [|split; [|split; [|split; [exact H1 | exact H2]]]].
  - unfold saveImageToTempFile. rewrite stripDataUrl_prefixed, stripDataUrl_plain. reflexivity.
  - intros path Hret.
    pose proof (save_outcome fs uuid (encode b) fmt outputPath) as [_ Hout].
    cbv zeta in Hout. rewrite Hret in Hout. destruct Hout as (_ & Hc & _).
    rewrite H2 in Hc. exact Hc.
  - intros Hw.
    destruct (save_writable fs uuid (encode b) fmt outputPath Hw) as (fs1 & path & E).
    rewrite E, H2. exists path. split; [reflexivity|].
    cbn [fst Fs.put Fs.file]. rewrite String.eqb_refl. reflexivity.
Qed.

(** The theorem at the bytes of [Man], sent with and without the prefix to
    the path [/tmp/out.png] on the file system that has the root directory
    only. *)
Lemma persist_roundtrip_witness :
  saveImageToTempFile Fs.empty "u" "data:image/png;base64,TWFu" None (Some "/tmp/out.png")
  = saveImageToTempFile Fs.empty "u" "TWFu" None (Some "/tmp/out.png")
  /\ Fs.contents (fst (saveImageToTempFile Fs.empty "u" "TWFu" None (Some "/tmp/out.png")))
       "/tmp/out.png"
     = Some ["M"%byte; "a"%byte; "n"%byte]
  /\ exists path,
       snd (saveImageToTempFile Fs.empty "u" "TWFu" None (Some "/tmp/out.png")) = Return path
       /\ Fs.file (fst (saveImageToTempFile Fs.empty "u" "TWFu" None (Some "/tmp/out.png"))) path
          = Some ["M"%byte; "a"%byte; "n"%byte].
Proof.
  destruct (persist_roundtrip ["M"%byte; "a"%byte; "n"%byte] Fs.empty "u" None
              (Some "/tmp/out.png")) as (Hsame & Hread & Hw & _).
  split; [exact Hsame|]. split; [apply Hread; reflexivity | apply Hw; reflexivity].
Defined.




End Persistence.

(* ================================================================== *)
(** * The registry *)
(* ================================================================== *)

Section Registry.

Lemma provider_eqb_eq (p q : ProviderType) : provider_eqb p q = true <-> p = q.
Proof. destruct p, q; simpl; split; intros H; try reflexivity; discriminate. Qed.

Lemma provider_eqb_refl (p : ProviderType) : provider_eqb p p = true.
Proof. destruct p; reflexivity. Qed.

Lemma provider_eqb_sym (p q : ProviderType) : provider_eqb p q = provider_eqb q p.
Proof. destruct p, q; reflexivity. Qed.

Lemma provider_of_id (p : ProviderType) : provider_of_string (provider_id p) = Some p.
Proof. destruct p; reflexivity. Qed.

Lemma provider_id_truthy (p : ProviderType) : Js.truthy (provider_id p) = true.
Proof. destruct p; reflexivity. Qed.

Lemma get_set (m : PMap.t) (k p : ProviderType) (v : Provider) :
  PMap.get (PMap.set m k v) p = if provider_eqb k p then Some v else PMap.get m p.
Proof.
  induction m as [|[k' v'] m IH]; simpl.
  - reflexivity.
  - destruct (provider_eqb k' k) eqn:Ek; simpl.
    + apply provider_eqb_eq in Ek; subst k'.
      destruct (provider_eqb k p); reflexivity.
    + rewrite IH. destruct (provider_eqb k' p) eqn:Ep; [|reflexivity].
      apply provider_eqb_eq in Ep; subst k'.
      rewrite provider_eqb_sym, Ek; reflexivity.
Qed.

Lemma set_head (m : PMap.t) (k : ProviderType) (v : Provider) :
  hd_error (PMap.keys (PMap.set m k v))
  = match m with [] => Some k | (k', _) :: _ => Some k' end.
Proof.
  destruct m as [|[k' v'] m]; simpl; [reflexivity|].
  destruct (provider_eqb k' k); reflexivity.
Qed.

Variable config : MultiProviderConfig.
Variable env : Env.

Lemma constructs_credential (p : ProviderType) :
  constructs config env p = truthy_opt (credential config env p).
Proof.
  unfold constructs, credential, createProvider.
  destruct (env (envKey (PROVIDER_CONFIGS p))) as [k|]; [|reflexivity].
  destruct (Js.truthy k); [|reflexivity].
  destruct p; cbv beta iota;
    unfold OpenAIImageProvider, StabilityImageProvider, ReplicateImageProvider,
      HuggingFaceImageProvider;
    destruct (truthy_opt (apiKey (provider_config config _ k))); try reflexivity.
  - destruct (openai_allowed _); reflexivity.
  - destruct (stability_allowed _); reflexivity.
  - destruct (replicate_allowed _); reflexivity.
  - destruct (huggingface_allowed _); reflexivity.
Qed.

(** A provider that is constructed is of the class asked for. *)
Lemma createProvider_kind (p : ProviderType) (client : Provider) :
  fst (createProvider config env p) = Return client -> kind client = p.
Proof.
  unfold createProvider.
  destruct (env (envKey (PROVIDER_CONFIGS p))) as [k|]; [|discriminate].
  destruct (Js.truthy k); [|discriminate].
  destruct p; cbv beta iota;
    unfold OpenAIImageProvider, StabilityImageProvider, ReplicateImageProvider,
      HuggingFaceImageProvider;
    destruct (truthy_opt (apiKey (provider_config config _ k))); try discriminate.
  - destruct (openai_allowed _); intros [= <-]; reflexivity.
  - destruct (stability_allowed _); intros [= <-]; reflexivity.
  - destruct (replicate_allowed _); intros [= <-]; reflexivity.
  - destruct (huggingface_allowed _); intros [= <-]; reflexivity.
Qed.

(** The providers of the map after the loop. *)
Lemma initialize_all_get (ps : list ProviderType) (m : PMap.t) (out : list Event)
    (p : ProviderType) :
  PMap.get (fst (initialize_all config env ps (m, out))) p
  = if existsb (provider_eqb p) ps
    then match fst (createProvider config env p) with
         | Return client => Some client
         | Throw _ => PMap.get m p
         end
    else PMap.get m p.
Proof.
  revert m out; induction ps as [|q ps IH]; intros m out; [reflexivity|].
  unfold initialize_all in *. cbn [fold_left existsb].
  unfold initialize_one at 2.
  destruct (createProvider config env q) as [[client|msg] evs] eqn:Eq.
  - rewrite IH, get_set.
    destruct (provider_eqb p q) eqn:Epq.
    + apply provider_eqb_eq in Epq; subst q. rewrite Eq. cbn [fst orb].
      rewrite provider_eqb_refl. destruct (existsb _ ps); reflexivity.
    + rewrite provider_eqb_sym, Epq. cbn [orb]. reflexivity.
  - rewrite IH.
    destruct (provider_eqb p q) eqn:Epq; cbn [orb]; [|reflexivity].
    apply provider_eqb_eq in Epq; subst q. rewrite Eq. cbn [fst].
    destruct (existsb _ ps); reflexivity.
Qed.

(** The first provider of the map after the loop. *)
Lemma initialize_all_head (ps : list ProviderType) (m : PMap.t) (out : list Event) :
  hd_error (PMap.keys (fst (initialize_all config env ps (m, out))))
  = match m with
    | [] => find (constructs config env) ps
    | (k, _) :: _ => Some k
    end.
Proof.
  revert m out; induction ps as [|q ps IH]; intros m out.
  - destruct m as [|[k v] m]; reflexivity.
  - unfold initialize_all in *. cbn [fold_left find].
    unfold initialize_one at 2.
    destruct (createProvider config env q) as [[client|msg] evs] eqn:Eq; cbn [fst].
    + assert (Hc : constructs config env q = true)
        by (unfold constructs; rewrite Eq; reflexivity).
      rewrite IH, Hc.
      pose proof (set_head m q client) as Hh.
      destruct (PMap.set m q client) as [|[k v] m'] eqn:Es.
      * destruct m as [|[k' v'] m]; simpl in Es; [discriminate|].
        destruct (provider_eqb k' q); discriminate.
      * simpl in Hh. destruct m as [|[k' v'] m]; exact Hh.
    + assert (Hc : constructs config env q = false)
        by (unfold constructs; rewrite Eq; reflexivity).
      rewrite IH, Hc. reflexivity.
Qed.

(** The lines printed so far stay; every provider of the list gets its line. *)
Lemma initialize_all_keeps (ps : list ProviderType) (m : PMap.t) (out : list Event) (e : Event) :
  In e out -> In e (snd (initialize_all config env ps (m, out))).
Proof.
  revert m out; induction ps as [|q ps IH]; intros m out H; [exact H|].
  unfold initialize_all in *. cbn [fold_left]. unfold initialize_one at 2.
  destruct (createProvider config env q) as [[client|msg] evs];
    apply IH; apply in_or_app; left; exact H.
Qed.

Lemma initialize_all_lines (ps : list ProviderType) (m : PMap.t) (out : list Event)
    (p : ProviderType) :
  In p ps ->
  In (match fst (createProvider config env p) with
      | Return _ => initialized_line p
      | Throw msg => failed_line p msg
      end)
     (snd (initialize_all config env ps (m, out))).
Proof.
  revert m out; induction ps as [|q ps IH]; intros m out H; [contradiction|].
  destruct H as [-> | H].
  - unfold initialize_all. cbn [fold_left]. unfold initialize_one at 2.
    destruct (createProvider config env p) as [[client|msg] evs]; cbn [fst];
      apply initialize_all_keeps; apply in_or_app; right; apply in_or_app; right; left; reflexivity.
  - unfold initialize_all in *. cbn [fold_left].
    destruct (initialize_one config env (m, out) q) as [m' out']. apply IH; exact H.
Qed.

End Registry.

Section RegistryInitialization.

Variable config : MultiProviderConfig.
Variable env : Env.


Lemma registry_get (p : ProviderType) :
  PMap.get (built_registry config env) p
  = if existsb (provider_eqb p) (providers config)
    then match fst (createProvider config env p) with
         | Return client => Some client
         | Throw _ => None
         end
    else None.
Proof. unfold built_registry. rewrite initialize_all_get. reflexivity. Qed.

Lemma registry_has (p : ProviderType) : PMap.has (built_registry config env) p = initialized config env p.
Proof.
  unfold PMap.has, initialized, constructs. rewrite registry_get.
  destruct (existsb _ _); [|reflexivity].
  destruct (fst (createProvider config env p)); reflexivity.
Qed.

Lemma registry_head : hd_error (PMap.keys (built_registry config env)) = first_initialized config env.
Proof. unfold built_registry. rewrite initialize_all_head. reflexivity. Qed.

Lemma head_is_live (m : PMap.t) (d : ProviderType) :
  hd_error (PMap.keys m) = Some d -> PMap.has m d = true.
Proof.
  destruct m as [|[k v] m]; simpl; [discriminate|].
  intros [= ->]. unfold PMap.has; simpl. rewrite provider_eqb_refl; reflexivity.
Qed.

(** What the constructor returns, in terms of the map the loop builds. *)
Lemma new_factory_return (f : ImageProviderFactory) (out : list Event) :
  new_ImageProviderFactory config env = (Return f, out) ->
  this_providers f = (built_registry config env)
  /\ (built_registry config env) <> []
  /\ this_config f = config
  /\ this_defaultProvider f
     = match (requested_default config) with
       | Some r => if PMap.has (built_registry config env) r then Some r else hd_error (PMap.keys (built_registry config env))
       | None => hd_error (PMap.keys (built_registry config env))
       end.
Proof.
  unfold new_ImageProviderFactory, initializeProviders. cbn [this_config this_providers this_defaultProvider].
  change (match defaultProvider config with
          | Some d => Some d
          | None => hd_error (providers config)
          end) with (requested_default config).
  match goal with
  | |- context [fold_left ?g ?l ?i] => destruct (fold_left g l i) as [m o] eqn:Em
  end.
  assert (Hm : (built_registry config env) = m) by exact (f_equal fst Em).
  rewrite Hm. clear Hm Em. cbv beta iota.
  destruct m as [|[k v] m]; [cbn [PMap.size List.length Nat.eqb]; discriminate|].
  cbn [PMap.size List.length Nat.eqb PMap.keys map fst hd_error].
  destruct (requested_default config) as [r|].
  - destruct (PMap.has ((k, v) :: m) r); intros [= <- _]; repeat split; discriminate.
  - intros [= <- _]; repeat split; discriminate.
Qed.

Lemma new_factory_throw (msg : string) (out : list Event) :
  new_ImageProviderFactory config env = (Throw msg, out) ->
  (built_registry config env) = [] /\ msg = no_providers_message.
Proof.
  unfold new_ImageProviderFactory, initializeProviders. cbn [this_config this_providers this_defaultProvider].
  change (match defaultProvider config with
          | Some d => Some d
          | None => hd_error (providers config)
          end) with (requested_default config).
  match goal with
  | |- context [fold_left ?g ?l ?i] => destruct (fold_left g l i) as [m o] eqn:Em
  end.
  assert (Hm : (built_registry config env) = m) by exact (f_equal fst Em).
  rewrite Hm. clear Hm Em. cbv beta iota.
  destruct m as [|[k v] m].
  - intros [= <- _]; split; reflexivity.
  - cbn [PMap.size List.length Nat.eqb PMap.keys map fst hd_error].
    destruct (requested_default config) as [r|]; [destruct (PMap.has ((k, v) :: m) r)|]; discriminate.
Qed.

Lemma new_factory_out :
  forall e, In e (snd (initialize_all config env (providers config) ([], []))) ->
            In e (snd (new_ImageProviderFactory config env)).
Proof.
  intros e He.
  unfold new_ImageProviderFactory, initializeProviders. cbn [this_config this_providers this_defaultProvider].
  match goal with
  | |- context [fold_left ?g ?l ?i] => destruct (fold_left g l i) as [m o] eqn:Em
  end.
  assert (Ho : snd (initialize_all config env (providers config) ([], [])) = o)
    by exact (f_equal snd Em).
  rewrite Ho in He. clear Ho Em. cbv beta iota.
  destruct m as [|[k v] m]; [exact He|].
  cbn [PMap.size List.length Nat.eqb PMap.keys map fst hd_error].
  destruct (match defaultProvider config with
            | Some d => Some d
            | None => hd_error (providers config)
            end) as [r|]; [destruct (PMap.has ((k, v) :: m) r)|]; cbn [snd];
    repeat (apply in_or_app; left); exact He.
Qed.

End RegistryInitialization.

Section RegistryClaims.

Lemma existsb_eqb_In (p : ProviderType) (ps : list ProviderType) :
  existsb (provider_eqb p) ps = true <-> In p ps.
Proof.
  rewrite existsb_exists. split.
  - intros (q & Hq & E). apply provider_eqb_eq in E; subst q; exact Hq.
  - intros H. exists p. split; [exact H | apply provider_eqb_refl].
Qed.

Lemma getProvider_live (f : ImageProviderFactory) (p : ProviderType) (client : Provider) :
  PMap.get (this_providers f) p = Some client ->
  getProvider f (Some (provider_id p)) = Return client.
Proof.
  intros H. unfold getProvider. cbn [truthy_opt]. rewrite provider_id_truthy.
  unfold PMap.get_id. rewrite provider_of_id, H. reflexivity.
Qed.

(** C2.  Every configured provider is attempted.  One that constructs is
    in the registry and has its line in the output.  One that does not is
    left out with a warning that carries the error, its credential is
    missing, and the others are still attempted: the registry is returned as
    soon as one provider constructs.  When none constructs the constructor
    throws the configuration error; it never returns an empty registry. *)
Theorem registry_initialization (config : MultiProviderConfig) (env : Env) :
  let r := new_ImageProviderFactory config env in
  (forall p client, In p (providers config) ->
     fst (createProvider config env p) = Return client ->
     In (initialized_line p) (snd r)
     /\ forall f, fst r = Return f -> PMap.get (this_providers f) p = Some client)
  /\ (forall p msg, In p (providers config) ->
     fst (createProvider config env p) = Throw msg ->
     In (failed_line p msg) (snd r)
     /\ truthy_opt (credential config env p) = false
     /\ forall f, fst r = Return f -> PMap.get (this_providers f) p = None)
  /\ ((exists p, In p (providers config) /\ constructs config env p = true) ->
      exists f, fst r = Return f)
  /\ ((forall p, In p (providers config) -> constructs config env p = false) ->
      fst r = Throw no_providers_message)
  /\ (forall f, fst r = Return f ->
      this_providers f <> []
      /\ forall p, PMap.has (this_providers f) p = true
                   <-> In p (providers config) /\ constructs config env p = true).
Proof.
  cbv zeta.
  assert (Hret : forall f, fst (new_ImageProviderFactory config env) = Return f ->
            this_providers f = built_registry config env
            /\ this_providers f <> []).
  { intros f Hf. destruct (new_ImageProviderFactory config env) as [res out] eqn:E.
    cbn [fst] in Hf; subst res.
    destruct (new_factory_return config env f out E) as (H1 & H2 & _).
    split; [exact H1 | rewrite H1; exact H2]. }
  assert (Hlive : forall p, PMap.has (built_registry config env) p = true
            <-> In p (providers config) /\ constructs config env p = true).
  { intros p. rewrite registry_has. unfold initialized.
    rewrite andb_true_iff, existsb_eqb_In. reflexivity. }
  split; [|split; [|split; [|split]]].
  - intros p client Hin Hc. split.
    + apply new_factory_out.
      pose proof (initialize_all_lines config env (providers config) [] [] p Hin) as H.
      rewrite Hc in H. exact H.
    + intros f Hf. destruct (Hret f Hf) as [-> _].
      rewrite registry_get, (proj2 (existsb_eqb_In p _) Hin), Hc. reflexivity.
  - intros p msg Hin Hc. split; [|split].
    + apply new_factory_out.
      pose proof (initialize_all_lines config env (providers config) [] [] p Hin) as H.
      rewrite Hc in H. exact H.
    + rewrite <- constructs_credential. unfold constructs. rewrite Hc. reflexivity.
    + intros f Hf. destruct (Hret f Hf) as [-> _].
      rewrite registry_get, (proj2 (existsb_eqb_In p _) Hin), Hc. reflexivity.
  - intros (p & Hin & Hc).
    destruct (new_ImageProviderFactory config env) as [[f|msg] out] eqn:E.
    + exists f; reflexivity.
    + exfalso. destruct (new_factory_throw config env msg out E) as [Hnil _].
      pose proof (proj2 (Hlive p) (conj Hin Hc)) as Hp.
      rewrite Hnil in Hp. discriminate.
  - intros Hnone.
    destruct (new_ImageProviderFactory config env) as [[f|msg] out] eqn:E.
    + exfalso. destruct (new_factory_return config env f out E) as (_ & Hne & _).
      destruct (built_registry config env) as [|[k v] m] eqn:Em;
        [apply Hne; reflexivity|].
      assert (Hk : PMap.has ((k, v) :: m) k = true).
      { unfold PMap.has; simpl. rewrite provider_eqb_refl; reflexivity. }
      apply Hlive in Hk as [Hin Hc]. rewrite (Hnone k Hin) in Hc. discriminate.
    + destruct (new_factory_throw config env msg out E) as [_ ->]. reflexivity.
  - intros f Hf. destruct (Hret f Hf) as [Heq Hne]. split; [exact Hne|].
    intros p. rewrite Heq. apply Hlive.
Qed.

(** The default provider of a registry that the constructor returns: the
    default asked for when it is configured and constructs, the first
    configured provider that constructs otherwise. *)
Lemma built_default_choice (config : MultiProviderConfig) (env : Env)
    (f : ImageProviderFactory) (out : list Event) :
  new_ImageProviderFactory config env = (Return f, out) ->
  this_defaultProvider f
  = match defaultProvider config with
    | Some r => if initialized config env r then Some r else first_initialized config env
    | None => first_initialized config env
    end.
Proof.
  intros E.
  destruct (new_factory_return config env f out E) as (_ & _ & _ & Hd).
  rewrite Hd. unfold requested_default.
  destruct (defaultProvider config) as [r|].
  - rewrite registry_has, registry_head. reflexivity.
  - destruct (providers config) as [|q ps] eqn:Eps; cbn [hd_error];
      [apply registry_head|].
    rewrite registry_has, registry_head.
    destruct (initialized config env q) eqn:Eq; [|reflexivity].
    unfold initialized in Eq. apply andb_true_iff in Eq as [_ Eq].
    unfold first_initialized. rewrite Eps. cbn [find]. rewrite Eq. reflexivity.
Qed.

(** It is a provider of the registry. *)
Lemma built_default_in (config : MultiProviderConfig) (env : Env)
    (f : ImageProviderFactory) (out : list Event) :
  new_ImageProviderFactory config env = (Return f, out) ->
  exists d, this_defaultProvider f = Some d /\ PMap.has (this_providers f) d = true.
Proof.
  intros E.
  rewrite (built_default_choice config env f out E).
  destruct (new_factory_return config env f out E) as (Hm & Hne & _).
  rewrite Hm.
  assert (Hfirst : exists d, first_initialized config env = Some d
                             /\ PMap.has (built_registry config env) d = true).
  { destruct (hd_error (PMap.keys (built_registry config env))) as [d|] eqn:Eh.
    - exists d. split; [rewrite <- registry_head; exact Eh | apply head_is_live; exact Eh].
    - destruct (built_registry config env) as [|[k v] m];
        [contradiction Hne; reflexivity | discriminate]. }
  destruct Hfirst as (d0 & Hd0 & Hlive0).
  destruct (defaultProvider config) as [r|].
  - destruct (initialized config env r) eqn:Er.
    + exists r. split; [reflexivity|]. rewrite registry_has. exact Er.
    + exists d0. split; assumption.
  - exists d0. split; assumption.
Qed.

(** C8.  A registry that the constructor returns has a default provider,
    the default provider is in the registry, and [getDefaultProvider]
    returns it.  It is the default asked for when that provider is
    configured and constructs, and the first configured provider that
    constructs otherwise. *)
Theorem default_provider_live (config : MultiProviderConfig) (env : Env)
    (f : ImageProviderFactory) (out : list Event) :
  new_ImageProviderFactory config env = (Return f, out) ->
  exists d client,
    this_defaultProvider f = Some d
    /\ PMap.get (this_providers f) d = Some client
    /\ getDefaultProvider f = Return client
    /\ Some d = match defaultProvider config with
                | Some r => if initialized config env r then Some r
                            else first_initialized config env
                | None => first_initialized config env
                end.
Proof.
  intros E.
  destruct (built_default_in config env f out E) as (d & Hdef & Hhas).
  unfold PMap.has in Hhas.
  destruct (PMap.get (this_providers f) d) as [client|] eqn:Eg; [|discriminate].
  exists d, client. split; [|split; [|split]].
  - exact Hdef.
  - exact Eg.
  - unfold getDefaultProvider, getProvider. rewrite Hdef.
    cbn [option_map truthy_opt]. rewrite provider_id_truthy.
    unfold PMap.get_id. rewrite provider_of_id, Eg. reflexivity.
  - rewrite <- Hdef. apply (built_default_choice config env f out E).
Qed.

(** The theorem on [sample_config]: OpenAI constructs and is in the
    registry, Stability is warned about and left out, the registry is
    returned; without any key the constructor throws. *)
Lemma registry_initialization_witness :
  (In (initialized_line OPENAI) sample_out
   /\ PMap.get (this_providers sample_factory) OPENAI
      = Some {| kind := OPENAI; key := "sk-test"; models := OPENAI_MODELS |})
  /\ (In (failed_line STABILITY "STABILITY_API_KEY environment variable is required for Stability AI")
         sample_out
      /\ PMap.get (this_providers sample_factory) STABILITY = None)
  /\ (exists f, fst (new_ImageProviderFactory sample_config sample_env) = Return f)
  /\ fst (new_ImageProviderFactory sample_config empty_env) = Throw no_providers_message
  /\ this_providers sample_factory <> [].
Proof.
  destruct (registry_initialization sample_config sample_env) as (Hok & Hfail & Hsome & _ & Hlive).
  destruct (registry_initialization sample_config empty_env) as (_ & _ & _ & Hnone & _).
  split; [|split; [|split; [|split]]].
  - destruct (Hok OPENAI {| kind := OPENAI; key := "sk-test"; models := OPENAI_MODELS |})
      as [Hline Hget].
    + simpl; auto.
    + vm_compute; reflexivity.
    + split; [exact Hline | apply Hget; vm_compute; reflexivity].
  - destruct (Hfail STABILITY "STABILITY_API_KEY environment variable is required for Stability AI")
      as (Hline & _ & Hget).
    + simpl; auto.
    + vm_compute; reflexivity.
    + split; [exact Hline | apply Hget; vm_compute; reflexivity].
  - apply Hsome. exists OPENAI. split; [simpl; auto | vm_compute; reflexivity].
  - apply Hnone. intros p _. destruct p; vm_compute; reflexivity.
  - apply (Hlive sample_factory). vm_compute; reflexivity.
Defined.

(** The theorem on [sample_config]: Stability, the default asked for, does
    not construct, and Hugging Face, the first provider that does, is the
    default. *)
Lemma default_provider_live_witness :
  new_ImageProviderFactory sample_config sample_env = (Return sample_factory, sample_out)
  /\ exists d client,
       this_defaultProvider sample_factory = Some d
       /\ PMap.get (this_providers sample_factory) d = Some client
       /\ getDefaultProvider sample_factory = Return client
       /\ Some d = match defaultProvider sample_config with
                   | Some r => if initialized sample_config sample_env r then Some r
                               else first_initialized sample_config sample_env
                   | None => first_initialized sample_config sample_env
                   end.
Proof.
  assert (H : new_ImageProviderFactory sample_config sample_env = (Return sample_factory, sample_out))
    by (vm_compute; reflexivity).
  split; [exact H|].
  exact (default_provider_live sample_config sample_env sample_factory sample_out H).
Defined.

End RegistryClaims.

(* ================================================================== *)
(** * Objects and catalogs *)
(* ================================================================== *)

Section Objects.

Lemma own_replace_same (o : Obj.t) (k v : string) :
  Obj.own o k <> None -> Obj.own (Obj.replace o k v) k = Some v.
Proof.
  induction o as [|[k' v'] o IH]; simpl; intros H; [contradiction H; reflexivity|].
  destruct (k' =? k) eqn:E; simpl; rewrite E; [reflexivity | apply IH; exact H].
Qed.

Lemma own_replace_other (o : Obj.t) (k v k0 : string) :
  k0 <> k -> Obj.own (Obj.replace o k v) k0 = Obj.own o k0.
Proof.
  intros Hne. induction o as [|[k' v'] o IH]; simpl; [reflexivity|].
  destruct (k' =? k) eqn:E; simpl.
  - apply String.eqb_eq in E; subst k'.
    rewrite (proj2 (String.eqb_neq k k0)) by congruence. reflexivity.
  - rewrite IH. reflexivity.
Qed.

Lemma own_insert_same (n : N) (o : Obj.t) (k v : string) :
  Obj.own o k = None -> Obj.own (Obj.insert_index n k v o) k = Some v.
Proof.
  induction o as [|[k' v'] o IH]; simpl; intros H.
  - rewrite String.eqb_refl; reflexivity.
  - destruct (k' =? k) eqn:E; [discriminate|].
    destruct (Obj.array_index k') as [m|]; [destruct (m <? n)%N|]; simpl;
      rewrite ?E, ?String.eqb_refl; auto.
Qed.

Lemma own_insert_other (n : N) (o : Obj.t) (k v k0 : string) :
  k0 <> k -> Obj.own (Obj.insert_index n k v o) k0 = Obj.own o k0.
Proof.
  intros Hne. apply String.eqb_neq in Hne. rewrite String.eqb_sym in Hne.
  induction o as [|[k' v'] o IH]; simpl.
  - rewrite Hne; reflexivity.
  - destruct (Obj.array_index k') as [m|]; [destruct (m <? n)%N|]; simpl;
      rewrite ?IH, ?Hne; reflexivity.
Qed.

Lemma own_app (o o' : Obj.t) (k : string) :
  Obj.own (o ++ o')%list k = match Obj.own o k with Some v => Some v | None => Obj.own o' k end.
Proof.
  induction o as [|[k' v'] o IH]; simpl; [reflexivity|].
  destruct (k' =? k); [reflexivity | exact IH].
Qed.

(** Reading back a property that was set. *)
Lemma own_set_same (o : Obj.t) (k v : string) :
  k <> "__proto__" -> Obj.own (Obj.set o k v) k = Some v.
Proof.
  intros Hk. unfold Obj.set.
  rewrite (proj2 (String.eqb_neq _ _) Hk).
  destruct (Obj.own o k) eqn:E.
  - apply own_replace_same. rewrite E; discriminate.
  - destruct (Obj.array_index k).
    + apply own_insert_same; exact E.
    + rewrite own_app, E. simpl. rewrite String.eqb_refl; reflexivity.
Qed.

(** The other properties are as they were. *)
Lemma own_set_other (o : Obj.t) (k v k0 : string) :
  k0 <> k -> Obj.own (Obj.set o k v) k0 = Obj.own o k0.
Proof.
  intros Hne. unfold Obj.set.
  destruct (k =? "__proto__"); [reflexivity|].
  destruct (Obj.own o k).
  - apply own_replace_other; exact Hne.
  - destruct (Obj.array_index k).
    + apply own_insert_other; exact Hne.
    + rewrite own_app. simpl.
      rewrite (proj2 (String.eqb_neq k k0)) by congruence.
      destruct (Obj.own o k0); reflexivity.
Qed.

Lemma own_In_keys (o : Obj.t) (k : string) :
  In k (Obj.keys o) <-> Obj.own o k <> None.
Proof.
  induction o as [|[k' v'] o IH]; simpl.
  - split; [contradiction | intros H; apply H; reflexivity].
  - destruct (k' =? k) eqn:E.
    + apply String.eqb_eq in E. split; [discriminate | auto].
    + apply String.eqb_neq in E. rewrite <- IH. split; [intros [H|H]; [contradiction | exact H] | auto].
Qed.

Lemma own_In_values (o : Obj.t) (k v : string) :
  Obj.own o k = Some v -> In v (Obj.values o).
Proof.
  induction o as [|[k' v'] o IH]; simpl; [discriminate|].
  destruct (k' =? k); [intros [= ->]; left; reflexivity | intros H; right; apply IH; exact H].
Qed.

(** Setting a property adds no key but its own. *)
Lemma keys_set (o : Obj.t) (k v k0 : string) :
  In k0 (Obj.keys (Obj.set o k v)) -> k0 = k \/ In k0 (Obj.keys o).
Proof.
  intros H. destruct (String.eqb_spec k0 k) as [E|E]; [left; exact E|].
  right. apply own_In_keys. rewrite <- (own_set_other o k v k0 E).
  apply own_In_keys. exact H.
Qed.

(** An object that has a property keeps having one. *)
Lemma set_nonempty (o : Obj.t) (k v : string) : o <> [] -> Obj.set o k v <> [].
Proof.
  intros Ho. unfold Obj.set.
  destruct (k =? "__proto__"); [exact Ho|].
  destruct (Obj.own o k).
  - destruct o as [|[k' v'] o]; [contradiction Ho; reflexivity|].
    simpl. destruct (k' =? k); discriminate.
  - destruct (Obj.array_index k).
    + destruct o as [|[k' v'] o]; [contradiction Ho; reflexivity|].
      simpl. destruct (Obj.array_index k') as [m|]; [destruct (m <? n)%N|]; discriminate.
    + destruct o; [contradiction Ho; reflexivity | discriminate].
Qed.

Lemma set_first (k v : string) : k <> "__proto__" -> Obj.set [] k v = [(k, v)].
Proof.
  intros Hk. unfold Obj.set. rewrite (proj2 (String.eqb_neq _ _) Hk). simpl.
  destruct (Obj.array_index k); reflexivity.
Qed.

Lemma find_none_existsb {A} (f : A -> bool) (l : list A) :
  existsb f l = false -> find f l = None.
Proof.
  induction l as [|x l IH]; simpl; [reflexivity|].
  destruct (f x); [discriminate | exact IH].
Qed.

End Objects.

Section Constructors.






Lemma length_zero {A} (l : list A) : (List.length l =? 0)%nat = false <-> l <> [].
Proof.
  destruct l; simpl; split; intros H.
  - discriminate.
  - contradiction H; reflexivity.
  - discriminate.
  - reflexivity.
Qed.

Lemma keys_nil (o : Obj.t) : Obj.keys o = [] <-> o = [].
Proof. destruct o; simpl; split; intros H; congruence. Qed.




End Constructors.

(* ================================================================== *)
(** * Validation before the backend is called *)
(* ================================================================== *)

Section GenerationValidation.

Lemma equals_spec (o : option string) (s : string) : equals o s = true <-> o = Some s.
Proof.
  destruct o as [x|]; simpl; [|split; discriminate].
  rewrite String.eqb_eq. split; [intros ->; reflexivity | intros [= ->]; reflexivity].
Qed.








(** A request within the constraints is sent. *)
Example plain_request_is_sent :
  is_request (OpenAIImageProvider_generateImages sample_openai (prompt_only "a red circle")) = true.
Proof. reflexivity. Qed.

(** An empty string is no value to the tests of the method: a request whose
    size is the empty string is sent like one without a size. *)
Example empty_size_is_no_size :
  is_request
    (OpenAIImageProvider_generateImages sample_openai
       {| Generation.prompt := "a red circle";
          Generation.model := Given "dall-e-2";
          Generation.n := Absent;
          Generation.size := Given "";
          Generation.style := Absent;
          Generation.quality := Absent;
          Generation.response_format := Absent;
          Generation.output_format := Absent;
          Generation.output_compression := Absent;
          Generation.background := Absent;
          Generation.moderation := Absent;
          Generation.user := Absent;
          Generation.outputPath := Absent |}) = true.
Proof. reflexivity. Qed.

End GenerationValidation.

Section EditValidation.

Variable fs : Fs.FileSystem.

Lemma every_file_exists (p : string) : Fs.existsSync every_file p = true.
Proof. reflexivity. Qed.

(** The images are attached when all of them exist; the first that does
    not is named otherwise. *)
Lemma attach_images_spec (g : Fs.FileSystem) (paths : list string) :
  (forallb (Fs.existsSync g) paths = true /\ exists parts, attach_images g paths = Return parts)
  \/ (exists p, In p paths /\ Fs.existsSync g p = false
                /\ attach_images g paths = Throw (image_not_found p)).
Proof.
  induction paths as [|x paths IH]; [left; split; [reflexivity | eexists; reflexivity]|].
  cbn [attach_images forallb].
  destruct (Fs.existsSync g x) eqn:Ex; cbn [negb andb].
  - destruct IH as [[Hall [parts ->]] | (p & Hin & Hp & ->)].
    + left. split; [exact Hall | eexists; reflexivity].
    + right. exists p. repeat split; [right; exact Hin | exact Hp].
  - right. exists x. repeat split; [left; reflexivity | exact Ex].
Qed.

Lemma forallb_missing (g : Fs.FileSystem) (paths : list string) (p : string) :
  forallb (Fs.existsSync g) paths = true -> In p paths -> Fs.existsSync g p = false -> False.
Proof.
  intros Hall Hin Hp. rewrite forallb_forall in Hall. rewrite (Hall p Hin) in Hp. discriminate.
Qed.

Lemma mask_path_cases (params : Edit.Params) :
  (mask_path params = [] /\ truthy_opt (read (Edit.mask params)) = false)
  \/ (exists m, mask_path params = [m] /\ read (Edit.mask params) = Some m /\ Js.truthy m = true).
Proof.
  unfold mask_path. destruct (Edit.mask params) as [| |m]; cbn [read truthy_opt]; auto.
  destruct (Js.truthy m) eqn:E; [right; exists m; auto | left; auto].
Qed.

Lemma first_image (params : Edit.Params) :
  (List.length (Edit.images params) =? 0)%nat = false ->
  firstn 1 (Edit.images params) = [nth 0 (Edit.images params) ""].
Proof. destruct (Edit.images params); [discriminate | reflexivity]. Qed.

(** A test on the parameters throws whatever the files are. *)
Ltac parameter_test :=
  match goal with
  | |- context [if ?c then Throw _ else _] =>
      destruct c eqn:?;
      [eexists; split; [reflexivity | intros Hsent; discriminate Hsent] |]
  end.

Ltac prompt_test :=
  unfold validateParams;
  match goal with
  | |- context [Js.truthy (Edit.prompt ?params)] =>
      destruct (Js.truthy (Edit.prompt params)) eqn:?; cbn [bind];
      [| eexists; split; [reflexivity | intros Hsent; discriminate Hsent]]
  end.

Lemma openai_edit_missing (this : Provider) (params : Edit.Params) :
  (exists p, In p (Edit.images params ++ mask_path params)%list /\ Fs.existsSync fs p = false) ->
  exists msg,
    OpenAIImageProvider_editImages this fs params = Throw msg
    /\ (is_request (OpenAIImageProvider_editImages this every_file params) = true ->
        exists p, In p (Edit.images params ++ mask_path params)%list
                  /\ Fs.existsSync fs p = false
                  /\ (msg = image_not_found p \/ msg = mask_not_found p)).
Proof.
  intros (p & Hin & Hp).
  unfold OpenAIImageProvider_editImages.
  parameter_test. prompt_test. do 4 parameter_test.
  destruct (attach_images_spec fs (Edit.images params)) as [[Hall [parts ->]] | (q & Hq & Hmiss & ->)].
  2:{ eexists. split; [reflexivity|]. intros _. exists q.
      split; [apply in_or_app; left; exact Hq | split; [exact Hmiss | left; reflexivity]]. }
  cbn [bind].
  apply in_app_or in Hin as [Hin|Hin]; [exfalso; exact (forallb_missing _ _ _ Hall Hin Hp)|].
  destruct (mask_path_cases params) as [[Hm _] | (m & Hm & Hr & Ht)];
    rewrite Hm in Hin; [contradiction|].
  destruct Hin as [<-|[]].
  rewrite Hr, Ht, Hp. cbn [negb bind].
  eexists. split; [reflexivity|]. intros _. exists m.
  split; [apply in_or_app; right; rewrite Hm; left; reflexivity | split; [exact Hp | right; reflexivity]].
Qed.

Lemma stability_edit_missing (this : Provider) (params : Edit.Params) :
  (exists p, In p (firstn 1 (Edit.images params) ++ mask_path params)%list
             /\ Fs.existsSync fs p = false) ->
  exists msg,
    StabilityImageProvider_editImages this fs params = Throw msg
    /\ (is_request (StabilityImageProvider_editImages this every_file params) = true ->
        exists p, In p (firstn 1 (Edit.images params) ++ mask_path params)%list
                  /\ Fs.existsSync fs p = false
                  /\ (msg = image_not_found p \/ msg = mask_not_found p)).
Proof.
  intros (p & Hin & Hp).
  unfold StabilityImageProvider_editImages.
  parameter_test. prompt_test. parameter_test.
  rewrite first_image in * by assumption.
  set (imagePath := nth 0 (Edit.images params) "") in *.
  destruct (Fs.existsSync fs imagePath) eqn:Ei; cbn [negb].
  2:{ eexists. split; [reflexivity|]. intros _. exists imagePath.
      split; [left; reflexivity | split; [exact Ei | left; reflexivity]]. }
  destruct Hin as [<-|Hin]; [congruence|].
  destruct (mask_path_cases params) as [[Hm _] | (m & Hm & Hr & Ht)];
    rewrite Hm in Hin; [contradiction|].
  destruct Hin as [<-|[]].
  rewrite Hr, Ht, Hp. cbn [negb bind].
  eexists. split; [reflexivity|]. intros _. exists m.
  split; [right; rewrite Hm; left; reflexivity | split; [exact Hp | right; reflexivity]].
Qed.

Lemma replicate_edit_missing (this : Provider) (params : Edit.Params) :
  (exists p, In p (firstn 1 (Edit.images params) ++ mask_path params)%list
             /\ Fs.existsSync fs p = false) ->
  exists msg,
    ReplicateImageProvider_editImages this fs params = Throw msg
    /\ (is_request (ReplicateImageProvider_editImages this every_file params) = true ->
        exists p, In p (firstn 1 (Edit.images params) ++ mask_path params)%list
                  /\ Fs.existsSync fs p = false
                  /\ (msg = "Replicate API error: " ++ image_not_found p
                      \/ msg = "Replicate API error: " ++ mask_not_found p)).
Proof.
  intros (p & Hin & Hp).
  unfold ReplicateImageProvider_editImages.
  parameter_test. prompt_test. parameter_test.
  rewrite first_image in * by assumption.
  set (imagePath := nth 0 (Edit.images params) "") in *.
  destruct (Fs.existsSync fs imagePath) eqn:Ei; cbn [negb].
  2:{ eexists. split; [reflexivity|]. intros _. exists imagePath.
      split; [left; reflexivity | split; [exact Ei | left; reflexivity]]. }
  destruct Hin as [<-|Hin]; [congruence|].
  destruct (mask_path_cases params) as [[Hm _] | (m & Hm & Hr & Ht)];
    rewrite Hm in Hin; [contradiction|].
  destruct Hin as [<-|[]].
  rewrite Hr, Ht, Hp. cbn [negb bind wrap].
  eexists. split; [reflexivity|]. intros _. exists m.
  split; [right; rewrite Hm; left; reflexivity | split; [exact Hp | right; reflexivity]].
Qed.

Lemma huggingface_edit_missing (this : Provider) (params : Edit.Params) :
  (exists p, In p (firstn 1 (Edit.images params)) /\ Fs.existsSync fs p = false) ->
  exists msg,
    HuggingFaceImageProvider_editImages this fs params = Throw msg
    /\ (is_request (HuggingFaceImageProvider_editImages this every_file params) = true ->
        exists p, In p (firstn 1 (Edit.images params))
                  /\ Fs.existsSync fs p = false
                  /\ (msg = "HuggingFace API error: " ++ image_not_found p
                      \/ msg = "HuggingFace API error: " ++ mask_not_found p)).
Proof.
  intros (p & Hin & Hp).
  unfold HuggingFaceImageProvider_editImages.
  parameter_test. prompt_test. parameter_test.
  rewrite first_image in * by assumption.
  destruct Hin as [<-|[]].
  rewrite Hp. cbn [negb wrap].
  eexists. split; [reflexivity|]. intros _. eexists.
  split; [left; reflexivity | split; [exact Hp | left; reflexivity]].
Qed.

(** C4, as the code has it.  When a file that the provider reads for an
    edit request does not exist, [editImages] throws and no request is sent.
    When the parameters of the request pass, the message names a file that
    the provider reads and that does not exist. *)
Theorem edit_missing_file (this : Provider) (params : Edit.Params) :
  (exists p, In p (files_read this params) /\ Fs.existsSync fs p = false) ->
  exists msg,
    editImages this fs params = Throw msg
    /\ (parameters_pass this params ->
        exists p, In p (files_read this params)
                  /\ Fs.existsSync fs p = false
                  /\ names_missing this msg p).
Proof.
  unfold parameters_pass, names_missing, error_label, files_read, editImages.
  destruct (kind this); cbn [String.append].
  - apply openai_edit_missing.
  - apply stability_edit_missing.
  - apply replicate_edit_missing.
  - apply huggingface_edit_missing.
Qed.

End EditValidation.

(** The theorem for a Replicate provider and a request whose only image
    does not exist. *)
Lemma edit_missing_file_witness :
  (exists p, In p (files_read sample_replicate (edit_request ["/in/b.png"] Absent))
             /\ Fs.existsSync one_image p = false)
  /\ parameters_pass sample_replicate (edit_request ["/in/b.png"] Absent)
  /\ editImages sample_replicate one_image (edit_request ["/in/b.png"] Absent)
     = Throw "Replicate API error: Image file not found: /in/b.png".
Proof.
  assert (Hmiss : exists p, In p (files_read sample_replicate (edit_request ["/in/b.png"] Absent))
                            /\ Fs.existsSync one_image p = false).
  { exists "/in/b.png". split; [left; reflexivity | reflexivity]. }
  assert (Hpass : parameters_pass sample_replicate (edit_request ["/in/b.png"] Absent))
    by reflexivity.
  destruct (edit_missing_file one_image sample_replicate (edit_request ["/in/b.png"] Absent) Hmiss)
    as (msg & E & Hname).
  split; [exact Hmiss | split; [exact Hpass|]].
  destruct (Hname Hpass) as (p & [<-|[]] & _ & [->| ->]); [exact E|].
  exfalso. vm_compute in E. discriminate E.
Defined.

(** C4 as the specification states it fails for a Replicate provider: the
    second image of the request does not exist, and the request is sent. *)
Lemma edit_missing_file_counterexample :
  ~ (forall (this : Provider) (fs : Fs.FileSystem) (params : Edit.Params),
       (exists p, In p (referenced params) /\ Fs.existsSync fs p = false) ->
       exists msg, editImages this fs params = Throw msg).
Proof.
  intros H.
  destruct (H sample_replicate one_image (edit_request ["/in/a.png"; "/in/b.png"] Absent))
    as (msg & E).
  - exists "/in/b.png". split; [right; left; reflexivity | reflexivity].
  - vm_compute in E. discriminate E.
Qed.

(* ================================================================== *)
(** * Dispatch *)
(* ================================================================== *)

Section Dispatch.

(** A fold of assignments adds no key but the ones assigned. *)
Lemma fold_set_keys {E} (g h : E -> string) (l : list E) (o : Obj.t) (k : string) :
  In k (Obj.keys (fold_left (fun acc e => Obj.set acc (g e) (h e)) l o)) ->
  In k (Obj.keys o) \/ exists e, In e l /\ k = g e.
Proof.
  revert o; induction l as [|x l IH]; intros o H; [left; exact H|].
  cbn [fold_left] in H. destruct (IH _ H) as [H1 | (e & He & Hk)].
  - destruct (keys_set _ _ _ _ H1) as [-> | H2].
    + right. exists x. split; [left; reflexivity | reflexivity].
    + left; exact H2.
  - right. exists e. split; [right; exact He | exact Hk].
Qed.

(** It gives a non-empty object from a non-empty one, and from some
    assignment to a key other than [__proto__]. *)
Lemma fold_set_nonempty {E} (g h : E -> string) (l : list E) (o : Obj.t) :
  o <> [] \/ (l <> [] /\ forall e, In e l -> g e <> "__proto__") ->
  fold_left (fun acc e => Obj.set acc (g e) (h e)) l o <> [].
Proof.
  revert o; induction l as [|x l IH]; intros o H.
  - destruct H as [H | [H _]]; [exact H | contradiction H; reflexivity].
  - cbn [fold_left]. apply IH. left.
    destruct H as [H | [_ H]]; [apply set_nonempty; exact H|].
    destruct o as [|e o]; [|apply set_nonempty; discriminate].
    rewrite set_first by (apply H; left; reflexivity). discriminate.
Qed.

Lemma prefixed_not_proto (p : ProviderType) (k : string) :
  provider_id p ++ "/" ++ k <> "__proto__".
Proof. destruct p; cbn; discriminate. Qed.

Lemma prefixed_truthy (p : ProviderType) (k : string) :
  Js.truthy (provider_id p ++ "/" ++ k) = true.
Proof. destruct p; reflexivity. Qed.

(** The keys of a prefixed catalog. *)
Lemma prefixed_keys (p : ProviderType) (catalog : Obj.t) (s : string) :
  In s (Obj.keys (prefixed p catalog)) ->
  exists k, In k (Obj.keys catalog) /\ s = provider_id p ++ "/" ++ k.
Proof.
  unfold prefixed. intros H.
  destruct (fold_set_keys (fun e : string * string => provider_id p ++ "/" ++ fst e) snd _ _ _ H)
    as [[] | (e & He & ->)].
  exists (fst e). split; [apply in_map; exact He | reflexivity].
Qed.

Lemma prefixed_nonempty (p : ProviderType) (catalog : Obj.t) :
  catalog <> [] -> prefixed p catalog <> [].
Proof.
  intros H. unfold prefixed.
  apply (fold_set_nonempty (fun e : string * string => provider_id p ++ "/" ++ fst e) snd).
  right. split; [exact H | intros e _; apply prefixed_not_proto].
Qed.

(** The keys of [flatModels] are prefixed keys of the providers. *)
Lemma flat_keys (all : list (string * Obj.t)) (flat : Obj.t) (s : string) :
  In s (Obj.keys (fold_left (fun flat e => Obj.assign flat (snd e)) all flat)) ->
  In s (Obj.keys flat) \/ exists e, In e all /\ In s (Obj.keys (snd e)).
Proof.
  revert flat; induction all as [|x all IH]; intros flat H; [left; exact H|].
  cbn [fold_left] in H. destruct (IH _ H) as [H1 | (e & He & Hs)].
  - unfold Obj.assign in H1.
    destruct (fold_set_keys fst snd _ _ _ H1) as [H2 | (e & He & ->)].
    + left; exact H2.
    + right. exists x. split; [left; reflexivity | apply in_map; exact He].
  - right. exists e. split; [right; exact He | exact Hs].
Qed.

Lemma flat_nonempty (all : list (string * Obj.t)) (flat : Obj.t) :
  flat <> [] -> fold_left (fun flat e => Obj.assign flat (snd e)) all flat <> [].
Proof.
  revert flat; induction all as [|x all IH]; intros flat H; [exact H|].
  cbn [fold_left]. apply IH. unfold Obj.assign.
  apply (fold_set_nonempty fst snd). left; exact H.
Qed.

(** A provider that is constructed exposes at least one model. *)
Lemma constructed_catalog (config : MultiProviderConfig) (env : Env)
    (p : ProviderType) (client : Provider) :
  fst (createProvider config env p) = Return client -> models client <> [].
Proof.
  unfold createProvider.
  destruct (env (envKey (PROVIDER_CONFIGS p))) as [k|]; [|discriminate].
  destruct (Js.truthy k); [|discriminate].
  set (cfg := provider_config config p k).
  destruct p; cbv beta iota;
    unfold OpenAIImageProvider, StabilityImageProvider, ReplicateImageProvider,
      HuggingFaceImageProvider;
    (destruct (truthy_opt (apiKey cfg)); [|discriminate]);
    unfold openai_allowed, stability_allowed, replicate_allowed, huggingface_allowed;
    (destruct (has_allow_list cfg) as [names|]; [|intros [= <-]; discriminate]).
  - match goal with
    | |- context [forEach ?g names ?i] => destruct (forEach g names i) as [allowed out]
    end.
    destruct (List.length (Obj.keys allowed) =? 0)%nat eqn:E; intros [= <-]; cbn [models];
      [discriminate | apply length_zero in E; rewrite keys_nil in E; exact E].
  - match goal with
    | |- context [forEach ?g names ?i] => destruct (forEach g names i) as [allowed out]
    end.
    destruct (List.length (Obj.keys allowed) =? 0)%nat eqn:E; intros [= <-]; cbn [models];
      [discriminate | apply length_zero in E; rewrite keys_nil in E; exact E].
  - destruct (List.length (Obj.keys _) =? 0)%nat eqn:E; intros [= <-]; cbn [models];
      [discriminate | apply length_zero in E; rewrite keys_nil in E; exact E].
  - destruct (List.length (Obj.keys _) =? 0)%nat eqn:E; intros [= <-]; cbn [models];
      [discriminate | apply length_zero in E; rewrite keys_nil in E; exact E].
Qed.

(** The entries of the map the loop builds are constructed providers. *)
Lemma initialize_all_constructed (config : MultiProviderConfig) (env : Env)
    (ps : list ProviderType) (m : PMap.t) (out : list Event) :
  Forall (fun e => fst (createProvider config env (fst e)) = Return (snd e)) m ->
  Forall (fun e => fst (createProvider config env (fst e)) = Return (snd e))
         (fst (initialize_all config env ps (m, out))).
Proof.
  revert m out; induction ps as [|q ps IH]; intros m out Hm; [exact Hm|].
  unfold initialize_all in *. cbn [fold_left]. unfold initialize_one at 2.
  destruct (createProvider config env q) as [[client|msg] evs] eqn:Eq; apply IH; [|exact Hm].
  clear IH. induction m as [|[k v] m IHm]; cbn [PMap.set].
  - constructor; [cbn [fst snd]; rewrite Eq; reflexivity | constructor].
  - inversion Hm as [|? ? Hhead Htail]; subst.
    destruct (provider_eqb k q) eqn:Ek.
    + apply provider_eqb_eq in Ek; subst k.
      constructor; [cbn [fst snd]; rewrite Eq; reflexivity | exact Htail].
    + constructor; [exact Hhead | apply IHm; exact Htail].
Qed.

(** The registry that the constructor returns holds constructed providers. *)
Lemma built_constructed (config : MultiProviderConfig) (env : Env)
    (f : ImageProviderFactory) (out : list Event) :
  new_ImageProviderFactory config env = (Return f, out) ->
  this_providers f <> []
  /\ Forall (fun e => models (snd e) <> []) (this_providers f).
Proof.
  intros E. destruct (new_factory_return config env f out E) as (Hm & Hne & _).
  rewrite Hm. split; [exact Hne|].
  unfold built_registry.
  pose proof (initialize_all_constructed config env (providers config) [] [] (Forall_nil _)) as H.
  eapply Forall_impl; [|exact H].
  intros [q client] Hq. cbn [fst snd] in *. eapply constructed_catalog; exact Hq.
Qed.

(** The first key of [flatModels] is a key of a provider of the registry
    with the identity of the provider in front. *)
Lemma flat_head (f : ImageProviderFactory) :
  this_providers f <> [] ->
  Forall (fun e => models (snd e) <> []) (this_providers f) ->
  exists q client k,
    In (q, client) (this_providers f)
    /\ In k (Obj.keys (models client))
    /\ hd_error (Obj.keys (flatModels f)) = Some (provider_id q ++ "/" ++ k).
Proof.
  intros Hne Hall.
  assert (Hflat : flatModels f <> []).
  { unfold flatModels, getAllProviderModels.
    destruct (this_providers f) as [|[q0 c0] rest]; [contradiction Hne; reflexivity|].
    cbn [map fold_left fst snd]. apply flat_nonempty.
    unfold Obj.assign. apply (fold_set_nonempty fst snd). right.
    inversion Hall as [|? ? Hc0 _]; subst. cbn [snd] in Hc0.
    split; [apply prefixed_nonempty; exact Hc0|].
    intros e He. apply (in_map fst) in He.
    destruct (prefixed_keys _ _ _ He) as (k & _ & ->). apply prefixed_not_proto. }
  destruct (flatModels f) as [|[s v] flat] eqn:Ef; [contradiction Hflat; reflexivity|].
  assert (Hin : In s (Obj.keys (flatModels f))) by (rewrite Ef; left; reflexivity).
  unfold flatModels in Hin.
  destruct (flat_keys _ _ _ Hin) as [[] | (e & He & Hs)].
  unfold getAllProviderModels in He. apply in_map_iff in He as ([q client] & <- & Hqc).
  cbn [fst snd] in Hs. destruct (prefixed_keys _ _ _ Hs) as (k & Hk & ->).
  exists q, client, k. split; [exact Hqc | split; [exact Hk | reflexivity]].
Qed.

Lemma select_explicit (srv : Server) (p : ProviderType) (client dflt : Provider)
    (model : option string) :
  getDefaultProvider (providerFactory srv) = Return dflt ->
  PMap.get (this_providers (providerFactory srv)) p = Some client ->
  select_target srv model (Some (provider_id p))
  = Return (client, Obj.of_option (or_opt model (server_defaultModel srv))).
Proof.
  intros Hd Hp. unfold select_target. rewrite Hd. cbn [bind truthy_opt].
  rewrite provider_id_truthy, (getProvider_live _ _ _ Hp). reflexivity.
Qed.

Lemma select_resolved (srv : Server) (dflt : Provider) (m : string) (provider : option string) :
  getDefaultProvider (providerFactory srv) = Return dflt ->
  truthy_opt provider = false ->
  m <> "" ->
  select_target srv (Some m) provider = getProviderFromModel (providerFactory srv) m.
Proof.
  intros Hd Hp Hm. unfold select_target. rewrite Hd, Hp. cbn [bind truthy_opt].
  rewrite (truthy_true m Hm).
  destruct (getProviderFromModel (providerFactory srv) m) as [[c v]|msg]; reflexivity.
Qed.

(** C10.  For a registry that the constructor returns, the module loads,
    and the default of the model argument is a key of a provider with the
    identity of the provider in front.  When a handler is called with a
    provider that is in the registry, it calls the method of that provider
    and passes the model argument as it is: the string given, the default
    when none is given; [getProviderFromModel] has no part in it.  Without a
    provider the handler calls the provider, and passes the model, that
    [getProviderFromModel] returns for the model given. *)
Theorem explicit_provider_skips_resolution (config : MultiProviderConfig) (env : Env)
    (f : ImageProviderFactory) (out : list Event) :
  new_ImageProviderFactory config env = (Return f, out) ->
  exists srv,
    load f = Return srv
    /\ providerFactory srv = f
    /\ (exists q client k,
          In (q, client) (this_providers f)
          /\ In k (Obj.keys (models client))
          /\ server_defaultModel srv = Some (provider_id q ++ "/" ++ k))
    /\ (forall p client, PMap.get (this_providers f) p = Some client ->
          (forall args, arg_provider args = Some (provider_id p) ->
             exists call,
               text_to_image_call srv args = Return (client, call)
               /\ (forall m, arg_model args = Some m -> m <> "" -> gen_model call = Obj.Str m)
               /\ (arg_model args = None ->
                   gen_model call = Obj.of_option (server_defaultModel srv)))
          /\ (forall args, edit_provider args = Some (provider_id p) ->
             exists call,
               image_to_image_call srv args = Return (client, call)
               /\ (forall m, edit_model args = Some m -> m <> "" -> call_model call = Obj.Str m)
               /\ (edit_model args = None ->
                   call_model call = Obj.of_option (server_defaultModel srv))))
    /\ (forall m client v, m <> "" -> getProviderFromModel f m = Return (client, v) ->
          (forall args, truthy_opt (arg_provider args) = false -> arg_model args = Some m ->
             exists call, text_to_image_call srv args = Return (client, call)
                          /\ gen_model call = v)
          /\ (forall args, truthy_opt (edit_provider args) = false -> edit_model args = Some m ->
             exists call, image_to_image_call srv args = Return (client, call)
                          /\ call_model call = v)).
Proof.
  intros E.
  assert (Hdflt : exists dflt, getDefaultProvider f = Return dflt).
  { destruct (built_default_in config env f out E) as (d & Hdef & Hhas).
    unfold PMap.has in Hhas.
    destruct (PMap.get (this_providers f) d) as [dflt|] eqn:Eg; [|discriminate].
    exists dflt. unfold getDefaultProvider. rewrite Hdef. apply getProvider_live. exact Eg. }
  destruct Hdflt as [dflt Hd].
  destruct (built_constructed config env f out E) as [Hne Hall].
  destruct (flat_head f Hne Hall) as (q & qc & k & Hq & Hk & Hhead).
  exists {| providerFactory := f;
            server_defaultModel := Some (provider_id q ++ "/" ++ k) |}.
  assert (Hor : forall (m : string) o, m <> "" -> or_opt (Some m) o = Some m).
  { intros m o Hm. unfold or_opt. cbn [truthy_opt]. rewrite (truthy_true m Hm). reflexivity. }
  split; [|split; [reflexivity | split; [|split]]].
  - unfold load, defaultModel. rewrite Hd. cbn [bind]. rewrite Hhead.
    unfold or_opt. cbn [truthy_opt]. rewrite prefixed_truthy. reflexivity.
  - exists q, qc, k. split; [exact Hq | split; [exact Hk | reflexivity]].
  - intros p client Hp. split.
    + intros args Ha. unfold text_to_image_call. rewrite Ha.
      rewrite (select_explicit _ p client dflt) by assumption.
      cbn [bind fst snd]. eexists. split; [reflexivity|]. cbn [gen_model]. split.
      * intros m -> Hm. rewrite Hor by exact Hm. reflexivity.
      * intros ->. reflexivity.
    + intros args Ha. unfold image_to_image_call. rewrite Ha.
      rewrite (select_explicit _ p client dflt) by assumption.
      cbn [bind fst snd]. eexists. split; [reflexivity|]. cbn [call_model]. split.
      * intros m -> Hm. rewrite Hor by exact Hm. reflexivity.
      * intros ->. reflexivity.
  - intros m client v Hm Hr. split.
    + intros args Hp Ha. unfold text_to_image_call. rewrite Ha.
      rewrite (select_resolved _ dflt) by assumption.
      cbn [providerFactory]. rewrite Hr. cbn [bind fst snd].
      eexists. split; reflexivity.
    + intros args Hp Ha. unfold image_to_image_call. rewrite Ha.
      rewrite (select_resolved _ dflt) by assumption.
      cbn [providerFactory]. rewrite Hr. cbn [bind fst snd].
      eexists. split; reflexivity.
Qed.

End Dispatch.

(** The theorem on [sample_config]: with the provider [openai] given, the
    default of the model argument, a key of Hugging Face with its prefix,
    goes to the OpenAI provider as it is, from both handlers. *)
Lemma explicit_provider_skips_resolution_witness :
  new_ImageProviderFactory sample_config sample_env = (Return sample_factory, sample_out)
  /\ load sample_factory = Return sample_server
  /\ (exists call,
        text_to_image_call sample_server
          (generate_args (schema_model sample_server None) (Some "openai"))
        = Return (sample_openai, call)
        /\ gen_model call = Obj.Str "huggingface/runwayml/stable-diffusion-v1-5")
  /\ (exists call,
        image_to_image_call sample_server
          (edit_args (schema_model sample_server None) (Some "openai"))
        = Return (sample_openai, call)
        /\ call_model call = Obj.Str "huggingface/runwayml/stable-diffusion-v1-5").
Proof.
  assert (H : new_ImageProviderFactory sample_config sample_env = (Return sample_factory, sample_out))
    by (vm_compute; reflexivity).
  assert (Hload : load sample_factory = Return sample_server) by (vm_compute; reflexivity).
  destruct (explicit_provider_skips_resolution sample_config sample_env sample_factory sample_out H)
    as (srv & Hsrv & _ & _ & Hexplicit & _).
  rewrite Hload in Hsrv. injection Hsrv as <-.
  destruct (Hexplicit OPENAI sample_openai eq_refl) as [Hgen Hedit].
  split; [exact H | split; [exact Hload | split]].
  - destruct (Hgen (generate_args (schema_model sample_server None) (Some "openai")) eq_refl)
      as (call & Hc & Hm & _).
    exists call. split; [exact Hc | apply Hm; [reflexivity | discriminate]].
  - destruct (Hedit (edit_args (schema_model sample_server None) (Some "openai")) eq_refl)
      as (call & Hc & Hm & _).
    exists call. split; [exact Hc | apply Hm; [reflexivity | discriminate]].
Defined.

(* ================================================================== *)
(** * Resolution of model names *)
(* ================================================================== *)

Section Resolution.

Lemma lacks_slash_no_separator (s : string) :
  lacks "/" s = true -> Js.includes "/" s = false.
Proof.
  induction s as [|a s IH]; intros H; [reflexivity|].
  cbn [lacks] in H. apply andb_true_iff in H as [Ha Hs].
  change (Js.includes "/" (String a s))
    with (Js.startsWith "/" (String a s) || Js.includes "/" s).
  rewrite (IH Hs), orb_false_r. cbn [Js.startsWith].
  apply negb_true_iff in Ha. rewrite Ascii.eqb_sym, Ha. reflexivity.
Qed.

(** A provider identity and a name without a slash are the two segments of
    the prefixed name. *)
Lemma split_prefixed (p : ProviderType) (k : string) :
  lacks "/" k = true ->
  Js.includes "/" (provider_id p ++ "/" ++ k) = true
  /\ Js.split_limit "/" (provider_id p ++ "/" ++ k) 2 = [provider_id p; k].
Proof.
  intros Hk. apply lacks_slash_no_separator in Hk.
  split.
  - destruct p; cbn; repeat rewrite ?orb_true_r, ?orb_true_l; reflexivity.
  - unfold Js.split_limit, Js.split.
    destruct p; cbn; rewrite (split_from_absent "/" "" k Hk); reflexivity.
Qed.

(** A key without a slash, with the identity of its provider in front,
    resolves to the provider and to the backend model of the key. *)
Lemma prefixed_key_resolves (f : ImageProviderFactory) (p : ProviderType)
    (client : Provider) (k v : string) :
  PMap.get (this_providers f) p = Some client ->
  Obj.own (models client) k = Some v ->
  v <> "" ->
  lacks "/" k = true ->
  getProviderFromModel f (provider_id p ++ "/" ++ k) = Return (client, Obj.Str v).
Proof.
  intros Hp Hk Hv Hs.
  destruct (split_prefixed p k Hs) as [Hinc Hsplit].
  unfold getProviderFromModel, resolve_prefixed.
  rewrite Hinc, Hsplit. unfold PMap.get_id. rewrite provider_of_id, Hp.
  unfold getAllowedModels, Obj.get. rewrite Hk.
  unfold Obj.or_else. cbn [Obj.value_truthy]. rewrite (truthy_true v Hv). reflexivity.
Qed.

(** C1 at the model [huggingface/stabilityai/stable-diffusion-xl-base-1.0].
    Hugging Face is in the registry and
    [stabilityai/stable-diffusion-xl-base-1.0] is a value of its catalog,
    yet the name resolves to the default provider, OpenAI, with the whole
    string as the model: [split('/', 2)] keeps [stabilityai] alone as the
    model. *)
Theorem prefixed_backend_id_unresolved :
  fst (createFromConfig (Some (factoryConfig [OPENAI; HUGGINGFACE] [])) sample_env)
  = Return plain_factory
  /\ PMap.get_id (this_providers plain_factory) "huggingface" = Some sample_huggingface
  /\ In "stabilityai/stable-diffusion-xl-base-1.0" (Obj.values (getAllowedModels sample_huggingface))
  /\ Js.split_limit "/" "huggingface/stabilityai/stable-diffusion-xl-base-1.0" 2
     = ["huggingface"; "stabilityai"]
  /\ getProviderFromModel plain_factory "huggingface/stabilityai/stable-diffusion-xl-base-1.0"
     = Return (sample_openai,
               Obj.Str "huggingface/stabilityai/stable-diffusion-xl-base-1.0").
Proof.
  split; [vm_compute; reflexivity|].
  split; [reflexivity|].
  split; [left; reflexivity|].
  split; [reflexivity|].
  vm_compute; reflexivity.
Qed.

(** C9 at the registry of [hub_config].  The name
    [huggingface/runwayml/stable-diffusion-v1-5] is listed for Hugging Face
    with the backend model [runwayml/stable-diffusion-v1-5], and resolves to
    OpenAI with the listed name as the model. *)
Theorem enumerated_name_unresolved :
  fst (createFromConfig
         (Some (factoryConfig [OPENAI; HUGGINGFACE] ["runwayml/stable-diffusion-v1-5"]))
         sample_env)
  = Return hub_factory
  /\ In ("huggingface",
         [("huggingface/runwayml/stable-diffusion-v1-5", "runwayml/stable-diffusion-v1-5")])
        (getAllProviderModels hub_factory)
  /\ PMap.get (this_providers hub_factory) HUGGINGFACE = Some hub_huggingface
  /\ getProviderFromModel hub_factory "huggingface/runwayml/stable-diffusion-v1-5"
     = Return (sample_openai, Obj.Str "huggingface/runwayml/stable-diffusion-v1-5").
Proof.
  split; [vm_compute; reflexivity|].
  split; [right; left; reflexivity|].
  split; [reflexivity|].
  vm_compute; reflexivity.
Qed.

(** A name of a member that every object inherits is read from the catalog
    as that member: the model returned is not a string. *)
Example inherited_member_is_resolved :
  getProviderFromModel plain_factory "openai/toString"
  = Return (sample_openai, Obj.Inherited "toString").
Proof. vm_compute; reflexivity. Qed.

(** A name that no provider knows goes to the default provider as it is. *)
Example unknown_name_passes :
  getProviderFromModel plain_factory "some-model"
  = Return (sample_openai, Obj.Str "some-model").
Proof. vm_compute; reflexivity. Qed.

(** The name of the sunrise script resolves: a backend model without a
    slash after the identity of its provider. *)
Example backend_id_without_slash :
  getProviderFromModel plain_factory "openai/dall-e-3"
  = Return (sample_openai, Obj.Str "dall-e-3").
Proof. vm_compute; reflexivity. Qed.

End Resolution.

(* ================================================================== *)
(** * The embedding on concrete values *)
(* ================================================================== *)

Section Checks.

Example split_keeps_two_segments :
  Js.split_limit "/" "a/b/c" 2 = ["a"; "b"] /\ Js.split "base64," "x;base64,AAA" = ["x;"; "AAA"].
Proof. split; reflexivity. Qed.

Example base64_of_Man :
  Base64.encode ["M"%byte; "a"%byte; "n"%byte] = "TWFu"
  /\ Base64.encode ["M"%byte; "a"%byte] = "TWE="
  /\ Base64.encode ["M"%byte] = "TQ=="
  /\ Base64.decode "TWE=" = ["M"%byte; "a"%byte].
Proof. repeat split; reflexivity. Qed.

Example extensions :
  map Path.parse_ext ["/tmp/out.png"; "/tmp/outdir"; "/tmp/.hidden"; "/tmp/a.d/x"; "/tmp/a.d/"]
  = [".png"; ""; ""; ""; ".d"]
  /\ map Path.parse_ext ["/.."; "/../"; "/a/.."; ".."; "//.."] = ["."; "."; ""; ""; ""]
  /\ map Path.extname ["/tmp/out.png"; "/tmp/a.JPG"; "/.."; ".."] = [".png"; ".JPG"; ""; ""]
  /\ map Path.parse_dir ["/tmp/out.png"; "/out.png"; "out.png"] = ["/tmp"; "/"; ""].
Proof. repeat split; reflexivity. Qed.

Example joins :
  Path.join "/tmp/outdir" "u.png" = "/tmp/outdir/u.png"
  /\ Path.join "/tmp/a/../b/" "u.png" = "/tmp/b/u.png"
  /\ Path.join "/tmp" "u.webp" = "/tmp/u.webp".
Proof. repeat split; reflexivity. Qed.

Example keys_in_enumeration_order :
  Obj.keys (Obj.set (Obj.set (Obj.set [] "b" "1") "10" "2") "2" "3") = ["2"; "10"; "b"]
  /\ Obj.set [] "__proto__" "x" = []
  /\ Obj.get OPENAI_MODELS "DALLE3" = Obj.Str "dall-e-3"
  /\ Obj.get OPENAI_MODELS "dall-e-3" = Obj.Undefined.
Proof. repeat split; reflexivity. Qed.

Example numbers_as_text : Z_toString 12 = "12" /\ decimal 2 = "2".
Proof. split; reflexivity. Qed.

Example replicate_selection :
  models_of (ReplicateImageProvider
               {| apiKey := Some "r8-test"; allowedModels := Some ["flux"; "my-model"] |})
  = Some [("FLUX_SCHNELL",
           "black-forest-labs/flux-schnell:bf2f2b6c6d3c4f7b7c5e8c6f4d2f1e6b8a9c0e8f");
          ("my-model", "my-model")].
Proof. reflexivity. Qed.

Example sample_providers_are_constructed :
  fst (OpenAIImageProvider {| apiKey := Some "sk-test"; allowedModels := None |})
  = Return sample_openai
  /\ fst (ReplicateImageProvider {| apiKey := Some "r8-test"; allowedModels := None |})
     = Return sample_replicate
  /\ fst (HuggingFaceImageProvider {| apiKey := Some "hf-test"; allowedModels := None |})
     = Return sample_huggingface.
Proof. repeat split; reflexivity. Qed.

(** The whole text-to-image handler on the sample server, with a backend
    that answers one image: the file is written and its path is the text
    of the result. *)
Example generate_and_save :
  let respond := fun (_ : Provider) (_ : GenerateCall) =>
    Return {| created := 0%Z;
              data := [{| url := None; b64_json := Some "TWFu"; revised_prompt := None |}] |} in
  let r := text_to_image sample_server respond Fs.empty "u"
             (generate_args (Some "openai/DALLE3") None) in
  snd r = "/tmp/out.png"
  /\ Fs.file (fst r) "/tmp/out.png" = Some ["M"%byte; "a"%byte; "n"%byte].
Proof. split; reflexivity. Qed.

End Checks.

(* ================================================================== *)
(** * Further properties of result persistence *)
(* ================================================================== *)

Section PersistenceFrame.

Import Base64.

(** X1.  What [saveImageToTempFile] leaves behind, whatever its arguments
    and its outcome.  Every directory that was there is still there.  When
    the save throws, every regular file holds what it held; directories
    made before the error stay.  When it returns a path, the bytes read
    through that path are the decoded image, and one regular file has
    changed: it holds those bytes and every other file holds what it
    held. *)
Theorem save_touches_one_file (fs : Fs.FileSystem) (uuid imageData : string)
    (fmt outputPath : option string) :
  let r := saveImageToTempFile fs uuid imageData fmt outputPath in
  (forall k, Fs.dir fs k = true -> Fs.dir (fst r) k = true)
  /\ (forall msg, snd r = Throw msg -> forall k, Fs.file (fst r) k = Fs.file fs k)
  /\ (forall path, snd r = Return path ->
        Fs.contents (fst r) path = Some (base64ToBuffer imageData)
        /\ exists k, Fs.file (fst r) k = Some (base64ToBuffer imageData)
                     /\ forall q, q <> k -> Fs.file (fst r) q = Fs.file fs q).
Proof.
  pose proof (save_outcome fs uuid imageData fmt outputPath) as [Hd Hout].
  cbv zeta in *. split; [exact Hd|]. split.
  - intros msg Hr. rewrite Hr in Hout. exact Hout.
  - intros path Hr. rewrite Hr in Hout. destruct Hout as (_ & Hc & Hk).
    split; [exact Hc | exact Hk].
Qed.

(** X2.  [saveResponseImageToTempFile] saves the image at the index (the
    first one when no index is given): when that image carries a base64 text
    that is not empty the call is [saveImageToTempFile] on that text, with
    its outcome and its file system, and a path it returns is read back to
    the bytes of the image; when the index is outside the data, or the
    image has no base64 text, the error says so and nothing is changed. *)
Theorem save_response_image (fs : Fs.FileSystem) (uuid : string)
    (response : ImageGenerationResponse) (index : option Z)
    (fmt outputPath : option string) :
  let i := match index with Some i => i | None => 0%Z end in
  let r := saveResponseImageToTempFile fs uuid response index fmt outputPath in
  (forall img d,
     (0 <= i)%Z -> nth_error (data response) (Z.to_nat i) = Some img ->
     b64_json img = Some d -> d <> "" ->
     r = saveImageToTempFile fs uuid d fmt outputPath
     /\ forall path, snd r = Return path ->
          Fs.contents (fst r) path = Some (base64ToBuffer d)
          /\ path = resolveFilePath uuid (match fmt with Some f => f | None => "png" end)
                      outputPath)
  /\ ((i < 0)%Z \/ (List.length (data response) <= Z.to_nat i)%nat
      \/ (exists img, nth_error (data response) (Z.to_nat i) = Some img
                      /\ truthy_opt (b64_json img) = false) ->
      r = (fs, Throw "Response does not contain base64 image data")).
Proof.
  cbv zeta. unfold saveResponseImageToTempFile.
  set (i := match index with Some i => i | None => 0%Z end).
  split.
  - intros img d Hi Hn Hd Hne.
    assert (Hlt : (i <? 0)%Z = false) by (apply Z.ltb_ge; exact Hi).
    rewrite Hlt, Hn, Hd. cbn [truthy_opt]. rewrite (truthy_true d Hne).
    split; [reflexivity|]. intros path Hr.
    pose proof (save_outcome fs uuid d fmt outputPath) as [_ Hout].
    cbv zeta in Hout. rewrite Hr in Hout. destruct Hout as (Hp & Hc & _).
    split; [exact Hc | exact Hp].
  - intros [Hneg | [Hout | (img & Hn & Hb)]].
    + assert (Hlt : (i <? 0)%Z = true) by (apply Z.ltb_lt; exact Hneg).
      rewrite Hlt. reflexivity.
    + destruct (i <? 0)%Z; [reflexivity|].
      apply nth_error_None in Hout. rewrite Hout. reflexivity.
    + destruct (i <? 0)%Z; [reflexivity|]. rewrite Hn, Hb. reflexivity.
Qed.

Lemma save_response_image_witness :
  saveResponseImageToTempFile Fs.empty "u"
    {| created := 0; data := [{| url := None; b64_json := Some "TWFu"; revised_prompt := None |}] |}
    None None (Some "/tmp/out.png")
  = saveImageToTempFile Fs.empty "u" "TWFu" None (Some "/tmp/out.png")
  /\ Fs.contents
       (fst (saveResponseImageToTempFile Fs.empty "u"
               {| created := 0;
                  data := [{| url := None; b64_json := Some "TWFu"; revised_prompt := None |}] |}
               None None (Some "/tmp/out.png")))
       "/tmp/out.png"
     = Some ["M"%byte; "a"%byte; "n"%byte]
  /\ saveResponseImageToTempFile Fs.empty "u"
       {| created := 0; data := [{| url := None; b64_json := Some "TWFu"; revised_prompt := None |}] |}
       (Some 1%Z) None (Some "/tmp/out.png")
     = (Fs.empty, Throw "Response does not contain base64 image data").
Proof.
  destruct (save_response_image Fs.empty "u"
              {| created := 0;
                 data := [{| url := None; b64_json := Some "TWFu"; revised_prompt := None |}] |}
              None None (Some "/tmp/out.png")) as [Hsave _].
  destruct (save_response_image Fs.empty "u"
              {| created := 0;
                 data := [{| url := None; b64_json := Some "TWFu"; revised_prompt := None |}] |}
              (Some 1%Z) None (Some "/tmp/out.png")) as [_ Hmiss].
  destruct (Hsave {| url := None; b64_json := Some "TWFu"; revised_prompt := None |} "TWFu")
    as (Hr & Hread);
    [vm_compute; discriminate | reflexivity | reflexivity | discriminate |].
  split; [exact Hr|]. split.
  - destruct (Hread "/tmp/out.png") as [Hc _]; [reflexivity | exact Hc].
  - apply Hmiss. right. left. cbn. lia.
Defined.

Lemma mime_cases (filePath : string) :
  getMimeType filePath = "image/png" \/ getMimeType filePath = "image/jpeg"
  \/ getMimeType filePath = "image/webp" \/ getMimeType filePath = "image/gif".
Proof.
  unfold getMimeType.
  destruct (_ =? ".png"); [left; reflexivity|].
  destruct ((_ =? ".jpg") || (_ =? ".jpeg")); [right; left; reflexivity|].
  destruct (_ =? ".webp"); [right; right; left; reflexivity|].
  destruct (_ =? ".gif"); [right; right; right; reflexivity | left; reflexivity].
Qed.

Lemma stripDataUrl_dataUri (fs : Fs.FileSystem) (filePath : string) :
  stripDataUrl (dataUri fs filePath) = encode (Fs.readFileSync fs filePath).
Proof.
  unfold dataUri, stripDataUrl.
  destruct (mime_cases filePath) as [E | [E | [E | E]]]; rewrite E;
    match goal with
    | |- context [Js.includes "base64," ?s] =>
        assert (Hinc : Js.includes "base64," s = true)
          by (cbn; repeat (rewrite ?orb_true_r, ?orb_true_l); reflexivity)
    end;
    rewrite Hinc; unfold Js.split; cbn;
    rewrite split_from_absent by (apply lacks_comma_no_marker, encode_lacks_comma);
    reflexivity.
Qed.

(** X3.  The data URI the Replicate provider builds for a file is read back
    to the bytes of the file, whatever the MIME type [getMimeType] chose:
    by [base64ToBuffer], and by [saveImageToTempFile], whose returned path
    is read back to those bytes; the save returns whenever the way of its
    output path is clear ([writable]). *)
Theorem data_uri_roundtrip (fs g : Fs.FileSystem) (filePath uuid : string)
    (fmt outputPath : option string) :
  let r := saveImageToTempFile g uuid (dataUri fs filePath) fmt outputPath in
  base64ToBuffer (dataUri fs filePath) = Fs.readFileSync fs filePath
  /\ (forall path, snd r = Return path ->
        Fs.contents (fst r) path = Some (Fs.readFileSync fs filePath))
  /\ (writable g uuid fmt outputPath = true ->
        exists path, snd r = Return path
                     /\ Fs.file (fst r) path = Some (Fs.readFileSync fs filePath)).
Proof.
  assert (H : base64ToBuffer (dataUri fs filePath) = Fs.readFileSync fs filePath).
  { unfold base64ToBuffer. rewrite stripDataUrl_dataUri. apply decode_encode. }
  cbv zeta. split; [exact H|]. split.
  - intros path Hr.
    pose proof (save_outcome g uuid (dataUri fs filePath) fmt outputPath) as [_ Hout].
    cbv zeta in Hout. rewrite Hr in Hout. destruct Hout as (_ & Hc & _).
    rewrite H in Hc. exact Hc.
  - intros Hw.
    destruct (save_writable g uuid (dataUri fs filePath) fmt outputPath Hw) as (g1 & path & E).
    rewrite E, H. exists path. split; [reflexivity|].
    cbn [fst Fs.put Fs.file]. rewrite String.eqb_refl. reflexivity.
Qed.

End PersistenceFrame.

(** X1 at two saves on the file system that has the root directory only:
    to [/new/a.d/], where the directory [/new] is made and the write fails;
    and to [/tmp/./out.png], where the file is read back through the path
    returned. *)
Lemma save_touches_one_file_witness :
  (snd (saveImageToTempFile Fs.empty "u" "TWFu" None (Some "/new/a.d/"))
   = Throw "EISDIR: illegal operation on a directory, open '/new/a.d/'"
   /\ Fs.dir (fst (saveImageToTempFile Fs.empty "u" "TWFu" None (Some "/new/a.d/"))) "/new" = true
   /\ Fs.dir (fst (saveImageToTempFile Fs.empty "u" "TWFu" None (Some "/new/a.d/"))) "/" = true
   /\ forall k,
        Fs.file (fst (saveImageToTempFile Fs.empty "u" "TWFu" None (Some "/new/a.d/"))) k = None)
  /\ Fs.contents (fst (saveImageToTempFile Fs.empty "u" "TWFu" None (Some "/tmp/./out.png")))
       "/tmp/./out.png"
     = Some ["M"%byte; "a"%byte; "n"%byte].
Proof.
  destruct (save_touches_one_file Fs.empty "u" "TWFu" None (Some "/new/a.d/"))
    as (Hdirs & Hthrow & _).
  destruct (save_touches_one_file Fs.empty "u" "TWFu" None (Some "/tmp/./out.png"))
    as (_ & _ & Hret).
  split; [split; [reflexivity | split; [reflexivity | split]]|].
  - apply Hdirs. reflexivity.
  - intros k. rewrite (Hthrow _ eq_refl k). reflexivity.
  - destruct (Hret "/tmp/./out.png" eq_refl) as [Hc _]. exact Hc.
Defined.

(** X3 at the file [/in/a.png], saved to [/tmp/out.png] on the file system
    that has the root directory only. *)
Lemma data_uri_roundtrip_witness :
  Fs.contents
    (fst (saveImageToTempFile Fs.empty "u" (dataUri one_image "/in/a.png") None
            (Some "/tmp/out.png")))
    "/tmp/out.png"
  = Some (Fs.readFileSync one_image "/in/a.png")
  /\ exists path,
       snd (saveImageToTempFile Fs.empty "u" (dataUri one_image "/in/a.png") None
              (Some "/tmp/out.png")) = Return path
       /\ Fs.file (fst (saveImageToTempFile Fs.empty "u" (dataUri one_image "/in/a.png") None
                          (Some "/tmp/out.png"))) path
          = Some (Fs.readFileSync one_image "/in/a.png").
Proof.
  destruct (data_uri_roundtrip one_image Fs.empty "/in/a.png" "u" None (Some "/tmp/out.png"))
    as (_ & Hread & Hw).
  split; [apply Hread; reflexivity | apply Hw; reflexivity].
Defined.

(* ================================================================== *)
(** * Further properties of the constructors *)
(* ================================================================== *)

Section Catalogs.

Lemma In_replace (o : Obj.t) (k v : string) (e : string * string) :
  In e (Obj.replace o k v) -> In e o \/ e = (k, v).
Proof.
  induction o as [|[k' v'] o IH]; simpl; [intros []|].
  destruct (String.eqb_spec k' k) as [->|Hne]; simpl.
  - intros [<-|H]; [right; reflexivity | left; right; exact H].
  - intros [<-|H]; [left; left; reflexivity|].
    destruct (IH H) as [H1|H1]; [left; right; exact H1 | right; exact H1].
Qed.

Lemma In_insert_index (n : N) (o : Obj.t) (k v : string) (e : string * string) :
  In e (Obj.insert_index n k v o) -> In e o \/ e = (k, v).
Proof.
  induction o as [|[k' v'] o IH]; simpl.
  - intros [<-|[]]; right; reflexivity.
  - destruct (Obj.array_index k') as [m|]; [destruct (m <? n)%N|]; simpl.
    + intros [<-|H]; [left; left; reflexivity|].
      destruct (IH H) as [H1|H1]; [left; right; exact H1 | right; exact H1].
    + intros [<-|H]; [right; reflexivity | left; exact H].
    + intros [<-|H]; [right; reflexivity | left; exact H].
Qed.

Lemma In_set (o : Obj.t) (k v : string) (e : string * string) :
  In e (Obj.set o k v) -> In e o \/ e = (k, v).
Proof.
  unfold Obj.set. destruct (k =? "__proto__"); [left; assumption|].
  destruct (Obj.own o k); [apply In_replace|].
  destruct (Obj.array_index k); [apply In_insert_index|].
  intros H. apply in_app_or in H. destruct H as [H|[<-|[]]]; [left; exact H | right; reflexivity].
Qed.

Lemma own_In (o : Obj.t) (k v : string) : Obj.own o k = Some v -> In (k, v) o.
Proof.
  induction o as [|[k' v'] o IH]; simpl; [discriminate|].
  destruct (String.eqb_spec k' k) as [->|Hne].
  - intros [= ->]. left; reflexivity.
  - intros H. right. apply IH, H.
Qed.

Lemma In_own (o : Obj.t) (k v : string) :
  NoDup (Obj.keys o) -> In (k, v) o -> Obj.own o k = Some v.
Proof.
  induction o as [|[k' v'] o IH]; simpl; [intros _ []|].
  intros Hnd [[= -> ->]|H].
  - rewrite String.eqb_refl. reflexivity.
  - inversion Hnd as [|? ? Hnot Hnd']; subst.
    destruct (String.eqb_spec k' k) as [->|Hne].
    + exfalso. apply Hnot. change (In (fst (k, v)) (map fst o)). apply in_map, H.
    + apply IH; assumption.
Qed.

(** ** The loop that selects by value *)

Section ByValue.

Variable catalog : Obj.t.
Variable unknown : string -> string.
Hypothesis catalog_keys : NoDup (Obj.keys catalog).
Hypothesis catalog_proto : ~ In "__proto__" (Obj.keys catalog).

Lemma by_value_entries (names : list string) (allowed : Obj.t) (out : list Event)
    (e : string * string) :
  In e (fst (forEach (select_by_value catalog unknown) names (allowed, out))) ->
  In e allowed \/ (In e catalog /\ In (snd e) names).
Proof.
  unfold forEach. revert allowed out; induction names as [|n names IH]; intros allowed out H.
  - left; exact H.
  - cbn [fold_left] in H. unfold select_by_value at 2 in H.
    destruct (find (fun e0 => snd e0 =? n) (Obj.entries catalog)) as [[k v]|] eqn:Ef.
    + apply find_some in Ef. destruct Ef as [Hin Hv]. cbn [snd] in Hv.
      apply String.eqb_eq in Hv. subst v.
      destruct (IH _ _ H) as [H1|[H1 H2]].
      * destruct (In_set _ _ _ _ H1) as [H3| ->]; [left; exact H3|].
        right. split; [exact Hin | left; reflexivity].
      * right. split; [exact H1 | right; exact H2].
    + destruct (IH _ _ H) as [H1|[H1 H2]]; [left; exact H1|].
      right. split; [exact H1 | right; exact H2].
Qed.

Lemma by_value_own (names : list string) (allowed : Obj.t) (out : list Event)
    (k v : string) :
  In (k, v) catalog ->
  (exists n, In n names /\ find (fun e => snd e =? n) (Obj.entries catalog) = Some (k, v))
  \/ Obj.own allowed k = Some v ->
  Obj.own (fst (forEach (select_by_value catalog unknown) names (allowed, out))) k = Some v.
Proof.
  intros Hin. unfold forEach. revert allowed out; induction names as [|a names IH];
    intros allowed out H.
  - destruct H as [(n & [] & _)|H]; exact H.
  - cbn [fold_left]. unfold select_by_value at 2.
    assert (Hk : k <> "__proto__").
    { intros ->. apply catalog_proto.
      change (In (fst ("__proto__", v)) (map fst catalog)). apply in_map, Hin. }
    destruct (find (fun e0 => snd e0 =? a) (Obj.entries catalog)) as [[k' v']|] eqn:Ef.
    + apply IH.
      destruct (String.eqb_spec k k') as [<-|Hne].
      * right. apply find_some in Ef. destruct Ef as [Hin' _].
        assert (v' = v).
        { pose proof (In_own _ _ _ catalog_keys Hin) as H1.
          pose proof (In_own _ _ _ catalog_keys Hin') as H2. congruence. }
        subst v'. apply own_set_same, Hk.
      * destruct H as [(n & [->|Hn] & Hf)|H].
        -- rewrite Hf in Ef. congruence.
        -- left. exists n. split; assumption.
        -- right. rewrite own_set_other by exact Hne. exact H.
    + apply IH. destruct H as [(n & [->|Hn] & Hf)|H].
      * rewrite Hf in Ef. discriminate.
      * left. exists n. split; assumption.
      * right. exact H.
Qed.

Lemma by_value_warnings (names : list string) (allowed : Obj.t) (out : list Event)
    (ev : Event) :
  In ev out
  \/ (exists n, In n names /\ find (fun e => snd e =? n) (Obj.entries catalog) = None
                /\ ev = Warn (unknown n)) ->
  In ev (snd (forEach (select_by_value catalog unknown) names (allowed, out))).
Proof.
  unfold forEach. revert allowed out; induction names as [|a names IH]; intros allowed out H.
  - destruct H as [H|(n & [] & _)]; exact H.
  - cbn [fold_left]. unfold select_by_value at 2.
    destruct (find (fun e0 => snd e0 =? a) (Obj.entries catalog)) as [[k' v']|] eqn:Ef.
    + apply IH. destruct H as [H|(n & [->|Hn] & Hf & Hev)].
      * left; exact H.
      * rewrite Hf in Ef; discriminate.
      * right. exists n. repeat split; assumption.
    + apply IH. destruct H as [H|(n & [->|Hn] & Hf & Hev)].
      * left. apply in_or_app; left; exact H.
      * left. apply in_or_app; right. left. symmetry; exact Hev.
      * right. exists n. repeat split; assumption.
Qed.

Lemma by_value_result (names : list string) (a : Obj.t) (o : list Event) :
  forEach (select_by_value catalog unknown) names ([], []) = (a, o) ->
  (forall e, In e a -> In e catalog /\ In (snd e) names)
  /\ (forall k v n, In (k, v) catalog -> In n names ->
        find (fun e => snd e =? n) (Obj.entries catalog) = Some (k, v) ->
        Obj.own a k = Some v)
  /\ (forall n, In n names -> find (fun e => snd e =? n) (Obj.entries catalog) = None ->
        In (Warn (unknown n)) o).
Proof.
  intros E.
  assert (E1 : fst (forEach (select_by_value catalog unknown) names ([], [])) = a)
    by (rewrite E; reflexivity).
  assert (E2 : snd (forEach (select_by_value catalog unknown) names ([], [])) = o)
    by (rewrite E; reflexivity).
  split; [|split].
  - intros e He. rewrite <- E1 in He.
    destruct (by_value_entries names [] [] e He) as [[]|H1]; exact H1.
  - intros k v n Hin Hn Hf. rewrite <- E1.
    apply (by_value_own names [] [] k v Hin). left. exists n. split; assumption.
  - intros n Hn Hf. rewrite <- E2.
    apply (by_value_warnings names [] [] (Warn (unknown n))).
    right. exists n. repeat split; assumption.
Qed.

End ByValue.

Lemma find_value (p : ProviderType) (k v : string) :
  p = OPENAI \/ p = STABILITY ->
  In (k, v) (default_catalog p) ->
  find (fun e => snd e =? v) (Obj.entries (default_catalog p)) = Some (k, v).
Proof.
  intros [-> | ->] H; simpl in H;
    repeat (destruct H as [[= <- <-]|H]; [reflexivity|]); contradiction.
Qed.

Lemma find_not_value (catalog : Obj.t) (n : string) :
  ~ In n (Obj.values catalog) -> find (fun e => snd e =? n) (Obj.entries catalog) = None.
Proof.
  intros H. apply find_none_existsb. apply not_true_is_false. intros Hex.
  apply existsb_exists in Hex. destruct Hex as ([k v] & Hin & Hv).
  cbn [snd] in Hv. apply String.eqb_eq in Hv. subst v.
  apply H. change (In (snd (k, n)) (map snd catalog)). apply in_map, Hin.
Qed.

Lemma default_catalog_keys (p : ProviderType) :
  NoDup (Obj.keys (default_catalog p)) /\ ~ In "__proto__" (Obj.keys (default_catalog p)).
Proof.
  split.
  - destruct p; cbn; repeat constructor; cbn; intuition discriminate.
  - destruct p; cbn; intuition discriminate.
Qed.

(** X4.  With a key and any allow-list, the OpenAI and the Stability
    constructors return a provider that holds the key and exposes only
    entries of the default catalog.  When some entry of the allow-list is a
    model of the default catalog, the provider exposes exactly the entries
    of the default catalog whose model is in the allow-list.  Every entry
    of the allow-list that is no model of the default catalog is warned
    about by name. *)
Theorem value_selected_catalog (p : ProviderType) (k : string) (names : list string) :
  p = OPENAI \/ p = STABILITY ->
  Js.truthy k = true ->
  exists client out,
    construct p {| apiKey := Some k; allowedModels := Some names |} = (Return client, out)
    /\ kind client = p
    /\ key client = k
    /\ (forall e, In e (models client) -> In e (default_catalog p))
    /\ ((exists n, In n names /\ In n (Obj.values (default_catalog p))) ->
        forall e, In e (models client) <-> In e (default_catalog p) /\ In (snd e) names)
    /\ (forall n, In n names -> ~ In n (Obj.values (default_catalog p)) ->
        In (Warn (unknown_warning p n)) out).
Proof.
  intros Hp Hk.
  destruct (default_catalog_keys p) as [Hnd Hproto].
  assert (Hcon : construct p {| apiKey := Some k; allowedModels := Some names |}
                 = (let '(allowed, out) :=
                      match names with
                      | [] => (default_catalog p, [])
                      | _ =>
                          let '(allowed, out) :=
                            forEach (select_by_value (default_catalog p) (unknown_warning p))
                                    names ([], []) in
                          if (List.length (Obj.keys allowed) =? 0)%nat
                          then (default_catalog p, (out ++ [Warn (fallback_warning p)])%list)
                          else (allowed, out)
                      end in
                    (Return {| kind := p; key := k; models := allowed |}, out))).
  { destruct Hp as [-> | ->]; unfold construct, OpenAIImageProvider, StabilityImageProvider,
      openai_allowed, stability_allowed, has_allow_list;
      cbn [apiKey allowedModels truthy_opt]; rewrite Hk;
      destruct names as [|x l]; reflexivity. }
  rewrite Hcon. clear Hcon.
  assert (Hgoal : forall allowed out,
            (forall e, In e allowed -> In e (default_catalog p))
            /\ ((exists n, In n names /\ In n (Obj.values (default_catalog p))) ->
                forall e, In e allowed <-> In e (default_catalog p) /\ In (snd e) names)
            /\ (forall n, In n names -> ~ In n (Obj.values (default_catalog p)) ->
                In (Warn (unknown_warning p n)) out) ->
            exists client out',
              (Return {| kind := p; key := k; models := allowed |}, out) = (Return client, out')
              /\ kind client = p
              /\ key client = k
              /\ (forall e, In e (models client) -> In e (default_catalog p))
              /\ ((exists n, In n names /\ In n (Obj.values (default_catalog p))) ->
                  forall e, In e (models client) <-> In e (default_catalog p) /\ In (snd e) names)
              /\ (forall n, In n names -> ~ In n (Obj.values (default_catalog p)) ->
                  In (Warn (unknown_warning p n)) out')).
  { intros allowed out H. exists {| kind := p; key := k; models := allowed |}, out.
    cbn [kind key models]. destruct H as (H1 & H2 & H3).
    split; [reflexivity|]. split; [reflexivity|]. split; [reflexivity|].
    split; [exact H1|]. split; [exact H2 | exact H3]. }
  destruct names as [|x l].
  - apply Hgoal. split; [intros e He; exact He|]. split.
    + intros (n & [] & _).
    + intros n [].
  - match goal with
    | |- context [forEach ?g ?l ?i] => destruct (forEach g l i) as [a o] eqn:Er
    end.
    destruct (by_value_result (default_catalog p) (unknown_warning p) Hnd Hproto (x :: l) a o Er)
      as (Hent & Hown & Hwarn).
    assert (Hw : forall n, In n (x :: l) -> ~ In n (Obj.values (default_catalog p)) ->
                           In (Warn (unknown_warning p n)) o).
    { intros n Hn Hnot. apply Hwarn; [exact Hn | apply find_not_value; exact Hnot]. }
    assert (Hsome : (exists n, In n (x :: l) /\ In n (Obj.values (default_catalog p))) ->
                    a <> []).
    { intros (n & Hn & Hv). apply in_map_iff in Hv. destruct Hv as ([k0 v0] & Hv0 & Hin).
      cbn [snd] in Hv0. subst v0.
      assert (Ho : Obj.own a k0 = Some n).
      { apply (Hown k0 n n); [exact Hin | exact Hn | apply find_value; assumption]. }
      intros ->. discriminate Ho. }
    destruct (List.length (Obj.keys a) =? 0)%nat eqn:El; apply Hgoal.
    + assert (Ha : a = []).
      { apply keys_nil. destruct (Obj.keys a); [reflexivity | discriminate El]. }
      split; [intros e He; exact He|]. split.
      * intros Hex. exfalso. apply (Hsome Hex), Ha.
      * intros n Hn Hnot. apply in_or_app; left. apply Hw; assumption.
    + split; [intros e He; apply (Hent e He)|].
      split; [|exact Hw].
      intros _ e. split.
      * apply Hent.
      * intros [Hin Hn]. destruct e as [k0 v0]. cbn [snd] in Hn.
        apply own_In. apply (Hown k0 v0 v0); [exact Hin | exact Hn|].
        apply find_value; assumption.
Qed.

Lemma value_selected_catalog_witness :
  exists client out,
    construct OPENAI {| apiKey := Some "sk-test"; allowedModels := Some ["dall-e-3"; "my-model"] |}
    = (Return client, out)
    /\ key client = "sk-test"
    /\ (forall e, In e (models client) <-> In e OPENAI_MODELS /\ In (snd e) ["dall-e-3"; "my-model"])
    /\ In (Warn (openai_unknown "my-model")) out.
Proof.
  destruct (value_selected_catalog OPENAI "sk-test" ["dall-e-3"; "my-model"])
    as (client & out & Hc & _ & Hk & _ & Hex & Hw);
    [left; reflexivity | reflexivity |].
  exists client, out. split; [exact Hc|]. split; [exact Hk|]. split.
  - apply Hex. exists "dall-e-3". split; [left; reflexivity | right; right; left; reflexivity].
  - apply (Hw "my-model"); [right; left; reflexivity|].
    cbn. intuition discriminate.
Defined.

Lemma no_allow_list_full_catalog_shape (p : ProviderType) (k : string) :
  Js.truthy k = true ->
  construct p {| apiKey := Some k; allowedModels := None |}
  = (Return {| kind := p; key := k; models := default_catalog p |}, [])
  /\ construct p {| apiKey := Some k; allowedModels := Some [] |}
     = (Return {| kind := p; key := k; models := default_catalog p |}, []).
Proof.
  intros Hk.
  split; destruct p; unfold construct, OpenAIImageProvider, StabilityImageProvider,
    ReplicateImageProvider, HuggingFaceImageProvider,
    openai_allowed, stability_allowed, replicate_allowed, huggingface_allowed, has_allow_list;
    cbn [apiKey allowedModels truthy_opt]; rewrite Hk; reflexivity.
Qed.

(** X5.  Without an allow-list, or with an empty one, every constructor
    exposes the whole default catalog of its provider and warns about
    nothing; so does the OpenAI client. *)
Theorem no_allow_list_full_catalog (p : ProviderType) (k : string)
    (names : option (list string)) :
  Js.truthy k = true ->
  names = None \/ names = Some [] ->
  construct p {| apiKey := Some k; allowedModels := names |}
  = (Return {| kind := p; key := k; models := default_catalog p |}, [])
  /\ OpenAIImageClient k names = ({| kind := OPENAI; key := k; models := OPENAI_MODELS |}, []).
Proof.
  intros Hk Hn. split.
  - destruct (no_allow_list_full_catalog_shape p k Hk) as [H1 H2].
    destruct Hn as [-> | ->]; assumption.
  - unfold OpenAIImageClient, has_allow_list. cbn [allowedModels].
    destruct Hn as [-> | ->]; reflexivity.
Qed.

Lemma no_allow_list_full_catalog_witness :
  construct REPLICATE {| apiKey := Some "r8-test"; allowedModels := Some [] |}
  = (Return {| kind := REPLICATE; key := "r8-test"; models := REPLICATE_MODELS |}, []).
Proof.
  apply (no_allow_list_full_catalog REPLICATE "r8-test" (Some [])); [reflexivity|].
  right; reflexivity.
Defined.

(** ** The loop that passes unmatched entries through *)

Lemma keys_set_keeps (o : Obj.t) (k v k0 : string) :
  In k0 (Obj.keys o) -> In k0 (Obj.keys (Obj.set o k v)).
Proof.
  intros H. apply own_In_keys. apply own_In_keys in H.
  destruct (String.eqb_spec k0 k) as [->|Hne].
  - destruct (String.eqb_spec k "__proto__") as [->|Hp].
    + unfold Obj.set. cbn. exact H.
    + rewrite own_set_same by exact Hp. discriminate.
  - rewrite own_set_other by exact Hne. exact H.
Qed.

Lemma keys_set_new (o : Obj.t) (k v : string) :
  k <> "__proto__" -> In k (Obj.keys (Obj.set o k v)).
Proof.
  intros Hp. apply own_In_keys. rewrite own_set_same by exact Hp. discriminate.
Qed.

Lemma In_length_zero {A} (l : list A) (x : A) :
  (List.length l =? 0)%nat = true -> In x l -> False.
Proof. destruct l; [intros _ [] | discriminate]. Qed.

Section ByMatch.

Variable catalog : Obj.t.
Variable matches : string -> string * string -> bool.
Hypothesis catalog_proto : ~ In "__proto__" (Obj.keys catalog).

Lemma pass_entries (names : list string) (allowed : Obj.t) (e : string * string) :
  In e (forEach (select_or_pass catalog matches) names allowed) ->
  In e allowed
  \/ In e catalog
  \/ (fst e = snd e /\ In (fst e) names
      /\ find (matches (fst e)) (Obj.entries catalog) = None).
Proof.
  unfold forEach. revert allowed; induction names as [|n names IH]; intros allowed H.
  - left; exact H.
  - cbn [fold_left] in H. unfold select_or_pass at 2 in H.
    destruct (find (matches n) (Obj.entries catalog)) as [[k v]|] eqn:Ef.
    + destruct (IH _ H) as [H1|[H1|(H1 & H2 & H3)]].
      * destruct (In_set _ _ _ _ H1) as [H4| ->]; [left; exact H4|].
        right; left. apply find_some in Ef. apply Ef.
      * right; left; exact H1.
      * right; right. repeat split; [exact H1 | right; exact H2 | exact H3].
    + destruct (IH _ H) as [H1|[H1|(H1 & H2 & H3)]].
      * destruct (In_set _ _ _ _ H1) as [H4| ->]; [left; exact H4|].
        right; right. cbn [fst snd]. repeat split; [left; reflexivity | exact Ef].
      * right; left; exact H1.
      * right; right. repeat split; [exact H1 | right; exact H2 | exact H3].
Qed.

Lemma pass_keeps (names : list string) (allowed : Obj.t) (k : string) :
  In k (Obj.keys allowed) ->
  In k (Obj.keys (forEach (select_or_pass catalog matches) names allowed)).
Proof.
  unfold forEach. revert allowed; induction names as [|n names IH]; intros allowed H;
    [exact H|].
  cbn [fold_left]. apply IH. unfold select_or_pass.
  destruct (find (matches n) (Obj.entries catalog)) as [[k' v']|]; apply keys_set_keeps, H.
Qed.

Lemma pass_keys (names : list string) (allowed : Obj.t) (n : string) :
  In n names -> n <> "__proto__" ->
  In (match find (matches n) (Obj.entries catalog) with
      | Some (k, _) => k
      | None => n
      end)
     (Obj.keys (forEach (select_or_pass catalog matches) names allowed)).
Proof.
  unfold forEach. revert allowed; induction names as [|a names IH]; intros allowed Hn Hp;
    [contradiction|].
  cbn [fold_left]. destruct Hn as [->|Hn]; [|apply IH; assumption].
  apply pass_keeps. unfold select_or_pass.
  destruct (find (matches n) (Obj.entries catalog)) as [[k v]|] eqn:Ef.
  - apply keys_set_new. intros ->. apply catalog_proto.
    apply find_some in Ef. destruct Ef as [Hin _].
    change (In (fst ("__proto__", v)) (map fst catalog)). apply in_map, Hin.
  - apply keys_set_new, Hp.
Qed.

End ByMatch.

Lemma empty_name_selects (p : ProviderType) :
  p = REPLICATE \/ p = HUGGINGFACE -> selected p "" <> None.
Proof. intros [-> | ->]; vm_compute; discriminate. Qed.

Lemma default_entries_truthy (p : ProviderType) (e : string * string) :
  In e (default_catalog p) -> fst e <> "" /\ snd e <> "".
Proof.
  destruct p; simpl; intros H;
    repeat (destruct H as [<-|H]; [split; discriminate|]); contradiction.
Qed.

(** The catalog a constructor builds, for any configuration: entries of the
    default catalog and, for Replicate and Hugging Face, entries of the
    allow-list that select nothing, under their own names. *)
Lemma construct_entries (p : ProviderType) (cfg : ProviderConfig) (client : Provider)
    (out : list Event) :
  construct p cfg = (Return client, out) ->
  forall e, In e (models client) ->
    In e (default_catalog p)
    \/ ((p = REPLICATE \/ p = HUGGINGFACE) /\ fst e = snd e /\ selected p (fst e) = None
        /\ exists names, allowedModels cfg = Some names /\ In (fst e) names).
Proof.
  destruct (default_catalog_keys p) as [Hnd Hproto].
  destruct p; unfold construct, OpenAIImageProvider, StabilityImageProvider,
    ReplicateImageProvider, HuggingFaceImageProvider,
    openai_allowed, stability_allowed, replicate_allowed, huggingface_allowed, has_allow_list;
    destruct (truthy_opt (apiKey cfg)); try discriminate;
    destruct (allowedModels cfg) as [[|x l]|] eqn:Enames;
    try (intros [= <- _] e He; left; exact He).
  - match goal with
    | |- context [forEach ?g ?l ?i] => destruct (forEach g l i) as [a o] eqn:Er
    end.
    destruct (by_value_result OPENAI_MODELS openai_unknown Hnd Hproto (x :: l) a o Er)
      as (Hent & _).
    destruct (List.length (Obj.keys a) =? 0)%nat; intros [= <- _] e He; left;
      [exact He | apply (Hent e He)].
  - match goal with
    | |- context [forEach ?g ?l ?i] => destruct (forEach g l i) as [a o] eqn:Er
    end.
    destruct (by_value_result STABILITY_MODELS stability_unknown Hnd Hproto (x :: l) a o Er)
      as (Hent & _).
    destruct (List.length (Obj.keys a) =? 0)%nat; intros [= <- _] e He; left;
      [exact He | apply (Hent e He)].
  - pose proof (pass_entries REPLICATE_MODELS replicate_matches (x :: l) []) as Hent.
    destruct (List.length (Obj.keys _) =? 0)%nat; intros [= <- _] e He; cbn [models] in He.
    + left. destruct He as [<-|[]]. left; reflexivity.
    + destruct (Hent e He) as [[]|[H1|(H1 & H2 & H3)]]; [left; exact H1|].
      right. split; [left; reflexivity|]. split; [exact H1|]. split; [exact H3|].
      exists (x :: l). split; [reflexivity | exact H2].
  - pose proof (pass_entries HUGGINGFACE_MODELS huggingface_matches (x :: l) []) as Hent.
    destruct (List.length (Obj.keys _) =? 0)%nat; intros [= <- _] e He; cbn [models] in He.
    + left. destruct He as [<-|[]]. left; reflexivity.
    + destruct (Hent e He) as [[]|[H1|(H1 & H2 & H3)]]; [left; exact H1|].
      right. split; [right; reflexivity|]. split; [exact H1|]. split; [exact H3|].
      exists (x :: l). split; [reflexivity | exact H2].
Qed.

Lemma construct_entries_truthy (p : ProviderType) (cfg : ProviderConfig) (client : Provider)
    (out : list Event) :
  construct p cfg = (Return client, out) ->
  forall e, In e (models client) -> fst e <> "" /\ snd e <> "".
Proof.
  intros Hc e He.
  destruct (construct_entries p cfg client out Hc e He) as [H|(Hp & Heq & Hsel & _)].
  - apply (default_entries_truthy p e H).
  - assert (Hne : fst e <> "").
    { intros E. rewrite E in Hsel. apply (empty_name_selects p Hp Hsel). }
    split; [exact Hne | rewrite <- Heq; exact Hne].
Qed.

(** X6.  With a key and any allow-list that is not empty, the Replicate and
    the Hugging Face constructors return a provider that holds the key.
    Every entry it exposes is an entry of the default catalog or an entry of
    the allow-list that selects nothing, exposed under its own name; no key
    and no model of it is the empty string.  Every entry of the allow-list
    leaves a key: the key of the catalog entry it selects, or itself. *)
Theorem pass_through_catalog (p : ProviderType) (k : string) (names : list string) :
  p = REPLICATE \/ p = HUGGINGFACE ->
  Js.truthy k = true ->
  names <> [] ->
  exists client out,
    construct p {| apiKey := Some k; allowedModels := Some names |} = (Return client, out)
    /\ kind client = p
    /\ key client = k
    /\ (forall e, In e (models client) ->
          (In e (default_catalog p)
           \/ (fst e = snd e /\ In (fst e) names /\ selected p (fst e) = None))
          /\ fst e <> "" /\ snd e <> "")
    /\ (forall n, In n names -> n <> "__proto__" ->
          In (match selected p n with Some (key, _) => key | None => n end)
             (Obj.keys (models client))).
Proof.
  intros Hp Hk Hnames.
  destruct (default_catalog_keys p) as [_ Hproto].
  destruct (construct p {| apiKey := Some k; allowedModels := Some names |})
    as [[client|msg] out] eqn:Ec.
  - exists client, out. split; [reflexivity|].
    pose proof (construct_entries _ _ _ _ Ec) as Hent.
    pose proof (construct_entries_truthy _ _ _ _ Ec) as Htr.
    assert (Hshape : client = {| kind := p; key := k;
                                 models := forEach (select_or_pass (default_catalog p)
                                                      (match p with
                                                       | REPLICATE => replicate_matches
                                                       | _ => huggingface_matches
                                                       end)) names [] |}
                     \/ (forall n, In n names -> n = "__proto__")
                        /\ kind client = p /\ key client = k).
    { revert Ec. destruct names as [|x l]; [contradiction Hnames; reflexivity|].
      destruct Hp as [-> | ->]; unfold construct, ReplicateImageProvider, HuggingFaceImageProvider,
        replicate_allowed, huggingface_allowed, has_allow_list;
        cbn [apiKey allowedModels truthy_opt]; rewrite Hk; cbn [default_catalog].
      - pose proof (pass_keys REPLICATE_MODELS replicate_matches Hproto (x :: l) []) as Hkeys.
        destruct (List.length (Obj.keys _) =? 0)%nat eqn:El.
        + intros [= <- _]. right. split; [|split; reflexivity].
          intros n Hn. destruct (String.eqb_spec n "__proto__") as [E|E]; [exact E|].
          exfalso. exact (In_length_zero _ _ El (Hkeys n Hn E)).
        + intros [= <- _]. left. reflexivity.
      - pose proof (pass_keys HUGGINGFACE_MODELS huggingface_matches Hproto (x :: l) []) as Hkeys.
        destruct (List.length (Obj.keys _) =? 0)%nat eqn:El.
        + intros [= <- _]. right. split; [|split; reflexivity].
          intros n Hn. destruct (String.eqb_spec n "__proto__") as [E|E]; [exact E|].
          exfalso. exact (In_length_zero _ _ El (Hkeys n Hn E)).
        + intros [= <- _]. left. reflexivity. }
    assert (Hkind : kind client = p /\ key client = k).
    { destruct Hshape as [-> | (_ & H1 & H2)]; split; try reflexivity; assumption. }
    split; [apply Hkind|]. split; [apply Hkind|]. split.
    + intros e He. split; [|apply (Htr e He)].
      destruct (Hent e He) as [H|(_ & H1 & H2 & names' & [= <-] & H3)];
        [left; exact H | right; repeat split; assumption].
    + intros n Hn Hne. destruct Hshape as [-> | (Hall & _)].
      * cbn [models]. destruct Hp as [-> | ->]; cbn [selected default_catalog].
        -- apply (pass_keys REPLICATE_MODELS replicate_matches Hproto names [] n Hn Hne).
        -- apply (pass_keys HUGGINGFACE_MODELS huggingface_matches Hproto names [] n Hn Hne).
      * contradiction (Hne (Hall n Hn)).
  - exfalso. revert Ec.
    destruct Hp as [-> | ->]; unfold construct, ReplicateImageProvider, HuggingFaceImageProvider;
      cbn [apiKey truthy_opt]; rewrite Hk.
    + destruct (replicate_allowed _); discriminate.
    + destruct (huggingface_allowed _); discriminate.
Qed.

Lemma pass_through_catalog_witness :
  exists client out,
    construct HUGGINGFACE
      {| apiKey := Some "hf-test"; allowedModels := Some ["FLUX.1"; "my-org/my-model"] |}
    = (Return client, out)
    /\ key client = "hf-test"
    /\ In "FLUX_SCHNELL" (Obj.keys (models client))
    /\ In "my-org/my-model" (Obj.keys (models client)).
Proof.
  destruct (pass_through_catalog HUGGINGFACE "hf-test" ["FLUX.1"; "my-org/my-model"])
    as (client & out & Hc & _ & Hk & _ & Hkeys);
    [right; reflexivity | reflexivity | discriminate |].
  exists client, out. split; [exact Hc|]. split; [exact Hk|]. split.
  - apply (Hkeys "FLUX.1"); [left; reflexivity | discriminate].
  - apply (Hkeys "my-org/my-model"); [right; left; reflexivity | discriminate].
Defined.

End Catalogs.

(* ================================================================== *)
(** * Further properties of the registry *)
(* ================================================================== *)

Section RegistryShape.

Lemma keys_set_map (m : PMap.t) (k : ProviderType) (v : Provider) :
  PMap.keys (PMap.set m k v)
  = if existsb (provider_eqb k) (PMap.keys m) then PMap.keys m else (PMap.keys m ++ [k])%list.
Proof.
  induction m as [|[k' v'] m IH]; [reflexivity|].
  cbn [PMap.set PMap.keys map fst existsb].
  rewrite (provider_eqb_sym k k').
  destruct (provider_eqb k' k); cbn [map fst orb]; [reflexivity|].
  change (map fst (PMap.set m k v)) with (PMap.keys (PMap.set m k v)). rewrite IH.
  unfold PMap.keys. destruct (existsb (provider_eqb k) (map fst m)); reflexivity.
Qed.

Lemma initialize_all_keys (config : MultiProviderConfig) (env : Env)
    (ps : list ProviderType) (m : PMap.t) (out : list Event) :
  PMap.keys (fst (initialize_all config env ps (m, out)))
  = fold_left (fun seen p => if existsb (provider_eqb p) seen then seen else (seen ++ [p])%list)
              (filter (constructs config env) ps) (PMap.keys m).
Proof.
  revert m out; induction ps as [|q ps IH]; intros m out; [reflexivity|].
  unfold initialize_all in *. cbn [fold_left filter]. unfold initialize_one at 2.
  destruct (createProvider config env q) as [[client|msg] evs] eqn:Eq.
  - assert (Hc : constructs config env q = true)
      by (unfold constructs; rewrite Eq; reflexivity).
    rewrite IH, Hc. cbn [fold_left]. rewrite keys_set_map. reflexivity.
  - assert (Hc : constructs config env q = false)
      by (unfold constructs; rewrite Eq; reflexivity).
    rewrite IH, Hc. reflexivity.
Qed.

Lemma registry_keys (config : MultiProviderConfig) (env : Env) :
  PMap.keys (built_registry config env)
  = first_mentions (filter (constructs config env) (providers config)).
Proof. unfold built_registry. rewrite initialize_all_keys. reflexivity. Qed.

Lemma mentions_NoDup (ps seen : list ProviderType) :
  NoDup seen ->
  NoDup (fold_left (fun seen p => if existsb (provider_eqb p) seen then seen
                                  else (seen ++ [p])%list) ps seen).
Proof.
  revert seen; induction ps as [|p ps IH]; intros seen H; [exact H|].
  cbn [fold_left]. apply IH.
  destruct (existsb (provider_eqb p) seen) eqn:E; [exact H|].
  apply NoDup_app; [exact H | repeat constructor; intros [] |].
  intros x Hx [<-|[]].
  apply existsb_eqb_In in Hx. congruence.
Qed.

Lemma mentions_In (ps seen : list ProviderType) (p : ProviderType) :
  In p (fold_left (fun seen p => if existsb (provider_eqb p) seen then seen
                                 else (seen ++ [p])%list) ps seen)
  <-> In p seen \/ In p ps.
Proof.
  revert seen; induction ps as [|q ps IH]; intros seen; cbn [fold_left].
  - split; [intros H; left; exact H | intros [H|[]]; exact H].
  - rewrite IH. destruct (existsb (provider_eqb q) seen) eqn:E.
    + apply existsb_eqb_In in E. split.
      * intros [H|H]; [left; exact H | right; right; exact H].
      * intros [H|[<-|H]]; [left; exact H | left; exact E | right; exact H].
    + split.
      * intros [H|H]; [|right; right; exact H].
        apply in_app_or in H. destruct H as [H|[<-|[]]]; [left; exact H | right; left; reflexivity].
      * intros [H|[<-|H]].
        -- left. apply in_or_app; left; exact H.
        -- left. apply in_or_app; right; left; reflexivity.
        -- right; exact H.
Qed.

Lemma mentions_of_NoDup (ps seen : list ProviderType) :
  NoDup (seen ++ ps)%list ->
  fold_left (fun seen p => if existsb (provider_eqb p) seen then seen
                           else (seen ++ [p])%list) ps seen
  = (seen ++ ps)%list.
Proof.
  revert seen; induction ps as [|p ps IH]; intros seen H; cbn [fold_left].
  - rewrite app_nil_r. reflexivity.
  - assert (E : existsb (provider_eqb p) seen = false).
    { apply not_true_is_false. intros Hex. apply existsb_eqb_In in Hex.
      apply NoDup_remove_2 in H. apply H. apply in_or_app; left; exact Hex. }
    rewrite E. rewrite IH; rewrite <- app_assoc; [reflexivity | exact H].
Qed.

(** X7.  In a registry that the constructor returns, the available
    providers are the configured providers that construct, each once, in
    the order of their first mention in the configuration. *)
Theorem available_providers_listed (config : MultiProviderConfig) (env : Env)
    (f : ImageProviderFactory) (out : list Event) :
  new_ImageProviderFactory config env = (Return f, out) ->
  getAvailableProviders f = first_mentions (filter (constructs config env) (providers config))
  /\ NoDup (getAvailableProviders f)
  /\ (forall p, In p (getAvailableProviders f)
                <-> In p (providers config) /\ constructs config env p = true)
  /\ (NoDup (providers config) ->
      getAvailableProviders f = filter (constructs config env) (providers config)).
Proof.
  intros Hnew. destruct (new_factory_return config env f out Hnew) as (Hm & _).
  unfold getAvailableProviders. rewrite Hm, registry_keys.
  split; [reflexivity|]. split; [apply mentions_NoDup; constructor|]. split.
  - intros p. unfold first_mentions. rewrite mentions_In, filter_In.
    split; [intros [[]|H]; exact H | intros H; right; exact H].
  - intros Hnd. unfold first_mentions.
    rewrite mentions_of_NoDup; [reflexivity|]. cbn [app]. apply NoDup_filter, Hnd.
Qed.

Lemma available_providers_listed_witness :
  new_ImageProviderFactory sample_config sample_env = (Return sample_factory, sample_out)
  /\ getAvailableProviders sample_factory
     = filter (constructs sample_config sample_env) (providers sample_config).
Proof.
  assert (H : new_ImageProviderFactory sample_config sample_env
              = (Return sample_factory, sample_out)) by (vm_compute; reflexivity).
  split; [exact H|].
  destruct (available_providers_listed sample_config sample_env sample_factory sample_out H)
    as (_ & _ & _ & Hnd).
  apply Hnd. vm_compute. repeat constructor; cbn; intuition discriminate.
Defined.

End RegistryShape.

Section LiveClients.

Variable config : MultiProviderConfig.
Variable env : Env.

Lemma createProvider_construct (p : ProviderType) (client : Provider) :
  fst (createProvider config env p) = Return client ->
  exists k out,
    env (envKey (PROVIDER_CONFIGS p)) = Some k
    /\ Js.truthy k = true
    /\ construct p (provider_config config p k) = (Return client, out).
Proof.
  unfold createProvider.
  destruct (env (envKey (PROVIDER_CONFIGS p))) as [k|]; [|discriminate].
  destruct (Js.truthy k) eqn:Ek; [|discriminate].
  intros H. exists k.
  assert (E : match p with
              | OPENAI => OpenAIImageProvider (provider_config config p k)
              | STABILITY => StabilityImageProvider (provider_config config p k)
              | REPLICATE => ReplicateImageProvider (provider_config config p k)
              | HUGGINGFACE => HuggingFaceImageProvider (provider_config config p k)
              end = construct p (provider_config config p k))
    by (destruct p; reflexivity).
  rewrite E in H.
  destruct (construct p (provider_config config p k)) as [r out]. cbn [fst] in H. subst r.
  exists out. split; [reflexivity | split; [exact Ek | reflexivity]].
Qed.

Lemma construct_key (p : ProviderType) (cfg : ProviderConfig) (client : Provider)
    (out : list Event) :
  construct p cfg = (Return client, out) ->
  apiKey cfg = Some (key client) /\ key client <> "" /\ kind client = p.
Proof.
  destruct p; unfold construct, OpenAIImageProvider, StabilityImageProvider,
    ReplicateImageProvider, HuggingFaceImageProvider;
    destruct (apiKey cfg) as [k|]; cbn [truthy_opt]; try discriminate;
    (destruct (Js.truthy k) eqn:Ek; [|discriminate]).
  - destruct (openai_allowed _); intros [= <- _]; cbn [key kind].
    split; [reflexivity | split; [intros ->; discriminate Ek | reflexivity]].
  - destruct (stability_allowed _); intros [= <- _]; cbn [key kind].
    split; [reflexivity | split; [intros ->; discriminate Ek | reflexivity]].
  - destruct (replicate_allowed _); intros [= <- _]; cbn [key kind].
    split; [reflexivity | split; [intros ->; discriminate Ek | reflexivity]].
  - destruct (huggingface_allowed _); intros [= <- _]; cbn [key kind].
    split; [reflexivity | split; [intros ->; discriminate Ek | reflexivity]].
Qed.

Lemma registry_client (p : ProviderType) (client : Provider) :
  PMap.get (built_registry config env) p = Some client ->
  In p (providers config) /\ fst (createProvider config env p) = Return client.
Proof.
  rewrite registry_get.
  destruct (existsb (provider_eqb p) (providers config)) eqn:E; [|discriminate].
  apply existsb_eqb_In in E.
  destruct (fst (createProvider config env p)); [|discriminate].
  intros [= ->]. split; [exact E | reflexivity].
Qed.

Lemma first_value (o : Obj.t) :
  o <> [] -> exists e, In e o /\ hd_error (Obj.values o) = Some (snd e).
Proof.
  destruct o as [|e o]; [intros H; contradiction H; reflexivity|].
  intros _. exists e. split; [left; reflexivity | reflexivity].
Qed.

(** X8.  Every client of a registry that the constructor returns is of the
    class of the identity it is registered under, holds the credential of
    that provider, which is not empty, and is what [getProvider] returns for
    the identity.  Its catalog is not empty; its entries are entries of the
    default catalog of the provider or, for Replicate and Hugging Face,
    names exposed as they are; no key and no model is the empty string, so
    its default model is a model of its catalog that is not empty. *)
Theorem live_client_invariants (f : ImageProviderFactory) (out : list Event)
    (p : ProviderType) (client : Provider) :
  new_ImageProviderFactory config env = (Return f, out) ->
  PMap.get (this_providers f) p = Some client ->
  kind client = p
  /\ credential config env p = Some (key client)
  /\ key client <> ""
  /\ getProvider f (Some (provider_id p)) = Return client
  /\ (exists m, getDefaultModel client = Some m /\ m <> ""
                /\ In m (Obj.values (getAllowedModels client)))
  /\ (forall e, In e (getAllowedModels client) ->
        (In e (default_catalog p) \/ ((p = REPLICATE \/ p = HUGGINGFACE) /\ fst e = snd e))
        /\ fst e <> "" /\ snd e <> "").
Proof.
  intros Hnew Hget.
  destruct (new_factory_return config env f out Hnew) as (Hm & _).
  pose proof Hget as Hget'. rewrite Hm in Hget'.
  destruct (registry_client p client Hget') as [_ Hcreate].
  destruct (createProvider_construct p client Hcreate) as (k & o & Hk & Htr & Hcon).
  destruct (construct_key _ _ _ _ Hcon) as (Hkey & Hne & Hkind).
  pose proof (construct_entries_truthy _ _ _ _ Hcon) as Htruthy.
  pose proof (construct_entries _ _ _ _ Hcon) as Hent.
  split; [exact Hkind|]. split; [|split; [exact Hne|]].
  { unfold credential. rewrite Hk, Htr. exact Hkey. }
  split; [apply getProvider_live; exact Hget|]. split.
  - destruct (first_value (models client) (constructed_catalog config env p client Hcreate))
      as (e & He & Hhd).
    exists (snd e). split; [exact Hhd|]. split; [apply (Htruthy e He)|].
    unfold getAllowedModels, Obj.values. apply in_map, He.
  - intros e He. split; [|apply (Htruthy e He)].
    destruct (Hent e He) as [H|(H1 & H2 & _)]; [left; exact H | right; split; assumption].
Qed.

End LiveClients.

Lemma live_client_invariants_witness :
  kind sample_openai = OPENAI
  /\ credential sample_config sample_env OPENAI = Some (key sample_openai)
  /\ getProvider sample_factory (Some "openai") = Return sample_openai.
Proof.
  destruct (live_client_invariants sample_config sample_env sample_factory sample_out
              OPENAI sample_openai) as (H1 & H2 & _ & H3 & _);
    [vm_compute; reflexivity | vm_compute; reflexivity |].
  split; [exact H1|]. split; [exact H2 | exact H3].
Defined.

(* ================================================================== *)
(** * Start-up: the environment and the command line *)
(* ================================================================== *)

Section Startup.

Variable env : Env.

Lemma constructs_env (config : MultiProviderConfig) (p : ProviderType) :
  keys_from_env config -> constructs config env p = has_key env p.
Proof.
  intros Hkeys. rewrite constructs_credential. unfold credential, has_key.
  destruct (env (envKey (PROVIDER_CONFIGS p))) as [k|]; [|reflexivity].
  cbn [truthy_opt]. destruct (Js.truthy k) eqn:Ek; [|reflexivity].
  unfold provider_config.
  destruct (providerSettings config p) as [st|] eqn:Est.
  - rewrite (Hkeys p st Est). cbn. exact Ek.
  - cbn. exact Ek.
Qed.

Lemma filter_all {A} (g : A -> bool) (l : list A) :
  (forall x, In x l -> g x = true) -> filter g l = l.
Proof.
  induction l as [|a l IH]; intros H; [reflexivity|].
  cbn [filter]. rewrite (H a (or_introl eq_refl)).
  rewrite IH; [reflexivity|]. intros x Hx. apply H. right; exact Hx.
Qed.

Lemma filter_same {A} (g h : A -> bool) (l : list A) :
  (forall x, g x = h x) -> filter g l = filter h l.
Proof. intros H. apply filter_ext, H. Qed.

Lemma all_provider_types_NoDup : NoDup all_provider_types.
Proof. repeat constructor; cbn; intuition discriminate. Qed.

(** The registry of a configuration whose keys come from the environment:
    the providers of the configuration that have a key. *)
Lemma env_registry (config : MultiProviderConfig) (f : ImageProviderFactory)
    (out : list Event) :
  keys_from_env config ->
  new_ImageProviderFactory config env = (Return f, out) ->
  getAvailableProviders f = first_mentions (filter (has_key env) (providers config)).
Proof.
  intros Hkeys Hnew. destruct (new_factory_return config env f out Hnew) as (Hm & _).
  unfold getAvailableProviders. rewrite Hm, registry_keys.
  rewrite (filter_same (constructs config env) (has_key env));
    [reflexivity | intros p; apply constructs_env, Hkeys].
Qed.

Lemma env_registry_empty (config : MultiProviderConfig) (msg : string) (out : list Event) :
  keys_from_env config ->
  new_ImageProviderFactory config env = (Throw msg, out) ->
  msg = no_providers_message /\ forall p, In p (providers config) -> has_key env p = false.
Proof.
  intros Hkeys Hnew. destruct (new_factory_throw config env msg out Hnew) as (Hm & Hmsg).
  split; [exact Hmsg|]. intros p Hp.
  destruct (has_key env p) eqn:E; [|reflexivity]. exfalso.
  assert (Hin : In p (PMap.keys (built_registry config env))).
  { rewrite registry_keys. unfold first_mentions. apply mentions_In. right.
    apply filter_In. split; [exact Hp|]. rewrite constructs_env by exact Hkeys. exact E. }
  rewrite Hm in Hin. exact Hin.
Qed.

(** X9.  Without a configuration, [createFromConfig] enables the providers
    that have a key in the environment, in the order of the enum; the first
    of them is the default provider and each exposes its whole default
    catalog.  When no provider has a key, OpenAI alone is tried and the
    construction fails with the message that no provider was initialized. *)
Theorem auto_detected_providers :
  match filter (has_key env) all_provider_types with
  | [] => fst (createFromConfig None env) = Throw no_providers_message
  | first :: rest =>
      exists f,
        fst (createFromConfig None env) = Return f
        /\ getAvailableProviders f = first :: rest
        /\ this_defaultProvider f = Some first
        /\ forall p client, PMap.get (this_providers f) p = Some client ->
             models client = default_catalog p
             /\ env (envKey (PROVIDER_CONFIGS p)) = Some (key client)
  end.
Proof.
  unfold createFromConfig.
  change (filter (fun p => truthy_opt (env (envKey (PROVIDER_CONFIGS p)))) all_provider_types)
    with (filter (has_key env) all_provider_types).
  destruct (filter (has_key env) all_provider_types) as [|first rest] eqn:Ed.
  - set (config := {| providers := [OPENAI]; defaultProvider := Some OPENAI;
                      providerSettings := fun _ => None |}).
    assert (Hkeys : keys_from_env config) by (intros p st; discriminate).
    destruct (new_ImageProviderFactory config env) as [[f|msg] out] eqn:Enew; cbn [fst].
    + exfalso. pose proof (env_registry config f out Hkeys Enew) as Hav.
      destruct (new_factory_return config env f out Enew) as (Hm & Hne & _).
      assert (Hno : has_key env OPENAI = false).
      { destruct (has_key env OPENAI) eqn:E; [|reflexivity].
        assert (Hin : In OPENAI (filter (has_key env) all_provider_types))
          by (apply filter_In; split; [left; reflexivity | exact E]).
        rewrite Ed in Hin. contradiction. }
      unfold getAvailableProviders in Hav. cbn [providers config filter] in Hav.
      rewrite Hno in Hav. rewrite Hm in Hav. apply Hne.
      exact (map_eq_nil _ _ Hav).
    + f_equal. apply (env_registry_empty config msg out Hkeys Enew).
  - set (config := {| providers := first :: rest; defaultProvider := Some first;
                      providerSettings := fun _ => None |}).
    assert (Hkeys : keys_from_env config) by (intros p st; discriminate).
    assert (Hall : forall p, In p (first :: rest) -> has_key env p = true).
    { intros p Hp. rewrite <- Ed in Hp. apply filter_In in Hp. apply Hp. }
    assert (Hnd : NoDup (first :: rest)).
    { rewrite <- Ed. apply NoDup_filter, all_provider_types_NoDup. }
    destruct (new_ImageProviderFactory config env) as [[f|msg] out] eqn:Enew; cbn [fst].
    + exists f. split; [reflexivity|].
      pose proof (env_registry config f out Hkeys Enew) as Hav.
      cbn [providers config] in Hav. rewrite (filter_all _ _ Hall) in Hav.
      unfold first_mentions in Hav. rewrite mentions_of_NoDup in Hav by exact Hnd.
      cbn [app] in Hav. split; [exact Hav|]. split.
      * rewrite (built_default_choice config env f out Enew). cbn [defaultProvider config].
        unfold initialized. cbn [providers config existsb].
        rewrite provider_eqb_refl, constructs_env by exact Hkeys.
        rewrite (Hall first (or_introl eq_refl)). reflexivity.
      * intros p client Hget.
        destruct (new_factory_return config env f out Enew) as (Hm & _).
        rewrite Hm in Hget. destruct (registry_client config env p client Hget) as [_ Hc].
        destruct (createProvider_construct config env p client Hc) as (k & o & Hk & Htr & Hcon).
        unfold provider_config in Hcon. cbn [providerSettings config] in Hcon.
        destruct (no_allow_list_full_catalog_shape p k Htr) as [E _].
        rewrite E in Hcon. injection Hcon as <- _. cbn [models key]. split; [reflexivity | exact Hk].
    + exfalso. destruct (env_registry_empty config msg out Hkeys Enew) as [_ Hno].
      specialize (Hno first (or_introl eq_refl)).
      rewrite (Hall first (or_introl eq_refl)) in Hno. discriminate.
Qed.

End Startup.

Section CommandLine.

Variable args : list string.
Variable env : Env.

Lemma after_flag_In (flag : string) (l rest : list string) :
  after_flag flag l = Some rest -> forall a, In a rest -> In a l.
Proof.
  induction l as [|x l IH]; simpl; [discriminate|].
  destruct (x =? flag).
  - intros [= ->] a Ha. right; exact Ha.
  - intros H a Ha. right. apply (IH H a Ha).
Qed.

Lemma until_flag_In (l : list string) (a : string) :
  In a (until_flag l) -> In a l /\ Js.startsWith "--" a = false.
Proof.
  induction l as [|x l IH]; cbn [until_flag In]; [intros []|].
  destruct (Js.startsWith "--" x) eqn:E; [intros []|].
  intros [<-|H]; [split; [left; reflexivity | exact E]|].
  destruct (IH H) as [H1 H2]. split; [right; exact H1 | exact H2].
Qed.

Lemma provider_of_string_id (a : string) (p : ProviderType) :
  provider_of_string a = Some p -> provider_id p = a.
Proof.
  unfold provider_of_string. intros H. apply find_some in H.
  destruct H as [_ H]. apply String.eqb_eq, H.
Qed.

Lemma parse_providers_In (p : ProviderType) :
  In p (parse_providers args) ->
  In (provider_id p) args /\ Js.startsWith "--" (provider_id p) = false.
Proof.
  unfold parse_providers.
  destruct (after_flag "--providers" args) as [rest|] eqn:Ea; [|intros []].
  intros H. apply in_flat_map in H. destruct H as (a & Ha & Hp).
  destruct (provider_of_string a) as [q|] eqn:Eq; [|contradiction].
  destruct Hp as [<-|[]]. apply provider_of_string_id in Eq. subst a.
  destruct (until_flag_In _ _ Ha) as [H1 H2].
  split; [apply (after_flag_In _ _ _ Ea _ H1) | exact H2].
Qed.

Lemma parse_models_In (m : string) :
  In m (parse_models args) -> In m args /\ Js.startsWith "--" m = false.
Proof.
  unfold parse_models.
  destruct (after_flag "--models" args) as [rest|] eqn:Ea; [|intros []].
  intros H. destruct (until_flag_In _ _ H) as [H1 H2].
  split; [apply (after_flag_In _ _ _ Ea _ H1) | exact H2].
Qed.

Lemma start_config : start args env = new_ImageProviderFactory (startup_config args env) env.
Proof.
  unfold start, createFromConfig, factoryConfig, startup_config.
  change (filter (fun p => truthy_opt (env (envKey (PROVIDER_CONFIGS p)))) all_provider_types)
    with (filter (has_key env) all_provider_types).
  cbn [partial_providers partial_defaultProvider partial_providerSettings].
  destruct (parse_providers args) as [|e0 enabled];
    destruct (parse_models args) as [|m0 models];
    destruct (filter (has_key env) all_provider_types) as [|first rest]; reflexivity.
Qed.

Lemma startup_keys_from_env : keys_from_env (startup_config args env).
Proof.
  intros p st. unfold startup_config. cbn [providerSettings].
  destruct (parse_models args) as [|m0 models]; [discriminate|].
  unfold settings_for. destruct (existsb _ _); [|discriminate].
  intros [= <-]. reflexivity.
Qed.

Lemma startup_default_is_head (f : ImageProviderFactory) (out : list Event) :
  new_ImageProviderFactory (startup_config args env) env = (Return f, out) ->
  this_defaultProvider f = hd_error (getAvailableProviders f).
Proof.
  intros Hnew.
  destruct (new_factory_return _ _ f out Hnew) as (Hm & _).
  unfold getAvailableProviders. rewrite Hm, registry_head.
  rewrite (built_default_choice _ _ f out Hnew).
  assert (Hd : exists d rest, defaultProvider (startup_config args env) = Some d
                              /\ providers (startup_config args env) = d :: rest).
  { unfold startup_config. cbn [defaultProvider providers].
    destruct (parse_providers args) as [|e0 enabled];
      [destruct (filter (has_key env) all_provider_types) as [|first rest]|];
      eexists; eexists; split; reflexivity. }
  destruct Hd as (d & rest & Hd & Hp). rewrite Hd.
  unfold initialized, first_initialized. rewrite Hp. cbn [existsb find].
  rewrite provider_eqb_refl. cbn [orb andb].
  destruct (constructs (startup_config args env) env d); reflexivity.
Qed.

Lemma startup_client (f : ImageProviderFactory) (out : list Event)
    (p : ProviderType) (client : Provider) :
  new_ImageProviderFactory (startup_config args env) env = (Return f, out) ->
  PMap.get (this_providers f) p = Some client ->
  In p (providers (startup_config args env))
  /\ exists k,
       env (envKey (PROVIDER_CONFIGS p)) = Some k
       /\ fst (construct p (provider_config (startup_config args env) p k)) = Return client.
Proof.
  intros Hnew Hget.
  destruct (new_factory_return _ _ f out Hnew) as (Hm & _).
  rewrite Hm in Hget. destruct (registry_client _ env p client Hget) as [Hin Hc].
  split; [exact Hin|].
  destruct (createProvider_construct _ env p client Hc) as (k & o & Hk & _ & Hcon).
  exists k. split; [exact Hk|]. rewrite Hcon. reflexivity.
Qed.

(** X10.  With providers named after [--providers], the registry index.ts
    builds holds the named providers that have a key in the environment,
    each once, in the order they are named, and no other provider, whatever
    keys the environment has; the default provider is the first of them;
    each client is built from its key and the models after [--models].
    When none of the named providers has a key the start fails with the
    message that no provider was initialized. *)
Theorem named_providers_only :
  parse_providers args <> [] ->
  match fst (start args env) with
  | Return f =>
      getAvailableProviders f = first_mentions (filter (has_key env) (parse_providers args))
      /\ this_defaultProvider f = hd_error (getAvailableProviders f)
      /\ (forall p, In p (getAvailableProviders f) ->
            In (provider_id p) args /\ has_key env p = true)
      /\ (forall p client, PMap.get (this_providers f) p = Some client ->
            exists k,
              env (envKey (PROVIDER_CONFIGS p)) = Some k
              /\ fst (construct p {| apiKey := Some k; allowedModels := cli_allow_list args |})
                 = Return client)
  | Throw msg =>
      msg = no_providers_message
      /\ forall p, In p (parse_providers args) -> has_key env p = false
  end.
Proof.
  intros Hnamed. rewrite start_config.
  assert (Hp : providers (startup_config args env) = parse_providers args).
  { unfold startup_config. cbn [providers].
    destruct (parse_providers args); [contradiction Hnamed; reflexivity | reflexivity]. }
  destruct (new_ImageProviderFactory (startup_config args env) env) as [[f|msg] out] eqn:Enew;
    cbn [fst].
  - pose proof (env_registry env _ f out startup_keys_from_env Enew) as Hav.
    rewrite Hp in Hav. split; [exact Hav|].
    split; [apply (startup_default_is_head f out Enew)|]. split.
    + intros p Hin. rewrite Hav in Hin. unfold first_mentions in Hin.
      apply mentions_In in Hin. destruct Hin as [[]|Hin].
      apply filter_In in Hin. destruct Hin as [Hin Hk].
      split; [apply (parse_providers_In p Hin) | exact Hk].
    + intros p client Hget.
      destruct (startup_client f out p client Enew Hget) as (Hin & k & Hk & Hcon).
      exists k. split; [exact Hk|].
      rewrite Hp in Hin. revert Hcon.
      unfold provider_config, startup_config, cli_allow_list. cbn [providerSettings].
      destruct (parse_models args) as [|m0 models]; [intros H; exact H|].
      unfold settings_for.
      assert (E : existsb (provider_eqb p)
                    (match parse_providers args with
                     | [] => [OPENAI]
                     | _ => parse_providers args
                     end) = true).
      { destruct (parse_providers args) as [|e0 enabled] eqn:Ee;
          [contradiction Hnamed; reflexivity|].
        apply existsb_eqb_In. exact Hin. }
      rewrite E. cbn. intros H; exact H.
  - destruct (env_registry_empty env _ msg out startup_keys_from_env Enew) as [Hmsg Hno].
    split; [exact Hmsg|]. rewrite Hp in Hno. exact Hno.
Qed.

(** X11.  Without [--providers], the registry holds the providers that have
    a key in the environment, in the order of the enum, and the models
    after [--models] restrict the OpenAI client alone: every other client
    exposes its whole default catalog. *)
Theorem models_without_providers (f : ImageProviderFactory) :
  parse_providers args = [] ->
  fst (start args env) = Return f ->
  getAvailableProviders f = filter (has_key env) all_provider_types
  /\ this_defaultProvider f = hd_error (getAvailableProviders f)
  /\ (forall p client, PMap.get (this_providers f) p = Some client ->
        exists k,
          env (envKey (PROVIDER_CONFIGS p)) = Some k
          /\ (p = OPENAI ->
              fst (construct p {| apiKey := Some k; allowedModels := cli_allow_list args |})
              = Return client)
          /\ (p <> OPENAI -> models client = default_catalog p)).
Proof.
  intros Hnone. rewrite start_config.
  destruct (new_ImageProviderFactory (startup_config args env) env) as [[f'|msg] out] eqn:Enew;
    cbn [fst]; [|discriminate].
  intros [= ->].
  pose proof (env_registry env _ f out startup_keys_from_env Enew) as Hav.
  assert (Hreg : getAvailableProviders f = filter (has_key env) all_provider_types).
  { assert (Hp : providers (startup_config args env)
                 = match filter (has_key env) all_provider_types with
                   | [] => [OPENAI]
                   | _ => filter (has_key env) all_provider_types
                   end).
    { unfold startup_config. cbn [providers]. rewrite Hnone. reflexivity. }
    rewrite Hp in Hav. rewrite Hav. clear Hp.
    destruct (filter (has_key env) all_provider_types) as [|first rest] eqn:Ed.
    - exfalso. destruct (new_factory_return _ _ f out Enew) as (Hm & Hne & _).
      unfold getAvailableProviders in Hav. rewrite Hm in Hav.
      cbn [filter] in Hav.
      assert (Hno : has_key env OPENAI = false).
      { destruct (has_key env OPENAI) eqn:E; [|reflexivity].
        assert (Hin : In OPENAI (filter (has_key env) all_provider_types))
          by (apply filter_In; split; [left; reflexivity | exact E]).
        rewrite Ed in Hin. contradiction. }
      rewrite Hno in Hav. apply Hne. exact (map_eq_nil _ _ Hav).
    - assert (Hall : forall p, In p (first :: rest) -> has_key env p = true).
      { intros p Hp. rewrite <- Ed in Hp. apply filter_In in Hp. apply Hp. }
      rewrite (filter_all _ _ Hall). unfold first_mentions.
      rewrite mentions_of_NoDup; [reflexivity|]. cbn [app].
      rewrite <- Ed. apply NoDup_filter, all_provider_types_NoDup. }
  split; [exact Hreg|]. split; [apply (startup_default_is_head f out Enew)|].
  intros p client Hget.
  destruct (startup_client f out p client Enew Hget) as (_ & k & Hk & Hcon).
  exists k. split; [exact Hk|].
  assert (Htr : Js.truthy k = true).
  { assert (Hin : In p (getAvailableProviders f)).
    { unfold getAvailableProviders, PMap.keys.
      clear - Hget. induction (this_providers f) as [|[q v] m IH]; [discriminate|].
      cbn in Hget |- *. destruct (provider_eqb q p) eqn:E.
      - left. apply provider_eqb_eq, E.
      - right. apply IH, Hget. }
    rewrite Hreg in Hin. apply filter_In in Hin. destruct Hin as [_ Hin].
    unfold has_key in Hin. rewrite Hk in Hin. exact Hin. }
  revert Hcon. unfold provider_config, startup_config, cli_allow_list. cbn [providerSettings].
  rewrite Hnone.
  destruct (parse_models args) as [|m0 models].
  - intros Hcon. split; [intros _; exact Hcon|].
    intros _. destruct (no_allow_list_full_catalog_shape p k Htr) as [E _].
    rewrite E in Hcon. cbn [fst] in Hcon. injection Hcon as <-. reflexivity.
  - unfold settings_for. cbn [existsb].
    destruct p; cbn [provider_eqb orb over settings_apiKey settings_allowedModels];
      intros Hcon; (split; [intros Hp; try discriminate Hp; exact Hcon|]); intros Hp;
      try (contradiction Hp; reflexivity);
      match goal with
      | H : fst (construct ?q _) = _ |- _ =>
          destruct (no_allow_list_full_catalog_shape q k Htr) as [E _];
          rewrite E in H; cbn [fst] in H; injection H as <-; reflexivity
      end.
Qed.

End CommandLine.

Lemma named_providers_only_witness :
  exists f,
    fst (start ["--providers"; "stability"; "openai"; "--models"; "dall-e-3"] sample_env) = Return f
    /\ getAvailableProviders f = [OPENAI]
    /\ this_defaultProvider f = Some OPENAI.
Proof.
  pose proof (named_providers_only
                ["--providers"; "stability"; "openai"; "--models"; "dall-e-3"] sample_env) as H.
  destruct (fst (start ["--providers"; "stability"; "openai"; "--models"; "dall-e-3"] sample_env))
    as [f|msg] eqn:E.
  - exists f. split; [reflexivity|].
    destruct H as (Hav & Hd & _); [vm_compute; discriminate|].
    split; [exact Hav | rewrite Hd, Hav; reflexivity].
  - exfalso. destruct H as (_ & Hno); [vm_compute; discriminate|].
    specialize (Hno OPENAI). discriminate Hno. vm_compute. right; left; reflexivity.
Defined.

Lemma models_without_providers_witness :
  exists f,
    fst (start ["--models"; "dall-e-3"] sample_env) = Return f
    /\ getAvailableProviders f = [OPENAI; HUGGINGFACE].
Proof.
  destruct (fst (start ["--models"; "dall-e-3"] sample_env)) as [f|msg] eqn:E;
    [|vm_compute in E; discriminate E].
  exists f. split; [reflexivity|].
  destruct (models_without_providers ["--models"; "dall-e-3"] sample_env f) as (Hav & _);
    [reflexivity | exact E | exact Hav].
Defined.

Section Statistics.

Lemma get_In_keys (m : PMap.t) (p : ProviderType) (client : Provider) :
  PMap.get m p = Some client -> In p (PMap.keys m) /\ In (p, client) m.
Proof.
  induction m as [|[q v] m IH]; [discriminate|].
  cbn [PMap.get PMap.keys map fst In]. destruct (provider_eqb q p) eqn:E.
  - apply provider_eqb_eq in E. subst q. intros [= ->]. split; left; reflexivity.
  - intros H. destruct (IH H) as [H1 H2]. split; right; assumption.
Qed.

Lemma count_one (l : list ProviderType) (d : ProviderType) :
  NoDup l -> In d l -> List.length (filter (fun p => provider_eqb p d) l) = 1%nat.
Proof.
  induction l as [|q l IH]; [intros _ []|].
  intros Hnd Hin. inversion Hnd as [|? ? Hnot Hnd']; subst. cbn [filter].
  destruct (provider_eqb q d) eqn:E.
  - apply provider_eqb_eq in E. subst q. cbn [List.length]. f_equal.
    assert (Hnone : filter (fun p => provider_eqb p d) l = []).
    { clear - Hnot. induction l as [|x l IH]; [reflexivity|].
      cbn [filter]. destruct (provider_eqb x d) eqn:E.
      - apply provider_eqb_eq in E. subst x. contradiction Hnot. left; reflexivity.
      - apply IH. intros H. apply Hnot. right; exact H. }
    rewrite Hnone. reflexivity.
  - destruct Hin as [->|Hin]; [rewrite provider_eqb_refl in E; discriminate|].
    apply IH; assumption.
Qed.

Lemma filter_map_length {A B} (g : A -> B) (h : B -> bool) (l : list A) :
  List.length (filter h (map g l)) = List.length (filter (fun a => h (g a)) l).
Proof.
  induction l as [|a l IH]; [reflexivity|].
  cbn [map filter]. destruct (h (g a)); cbn [List.length]; rewrite IH; reflexivity.
Qed.

(** X12.  The statistics of a registry that the constructor returns have
    one entry for each available provider, in the order of the registry;
    exactly one entry is marked as the default; every entry counts the
    models it lists, at least one. *)
Theorem provider_stats_default (config : MultiProviderConfig) (env : Env)
    (f : ImageProviderFactory) (out : list Event) :
  new_ImageProviderFactory config env = (Return f, out) ->
  map fst (getProviderStats f) = map provider_id (getAvailableProviders f)
  /\ List.length (filter (fun e => isDefault (snd e)) (getProviderStats f)) = 1%nat
  /\ (forall e, In e (getProviderStats f) ->
        modelCount (snd e) = List.length (stats_models (snd e))
        /\ (1 <= modelCount (snd e))%nat).
Proof.
  intros Hnew. split; [|split].
  - unfold getProviderStats, getAvailableProviders, PMap.keys.
    rewrite !map_map. reflexivity.
  - destruct (built_default_in config env f out Hnew) as (d & Hd & Hhas).
    unfold getProviderStats. rewrite filter_map_length. cbn [snd isDefault fst]. rewrite Hd.
    assert (Hcount : List.length (filter (fun e : ProviderType * Provider => provider_eqb (fst e) d)
                                         (this_providers f))
                     = List.length (filter (fun p => provider_eqb p d)
                                           (PMap.keys (this_providers f)))).
    { unfold PMap.keys. rewrite filter_map_length. reflexivity. }
    rewrite Hcount. apply count_one.
    + destruct (new_factory_return config env f out Hnew) as (Hm & _).
      rewrite Hm, registry_keys. apply mentions_NoDup. constructor.
    + unfold PMap.has in Hhas.
      destruct (PMap.get (this_providers f) d) as [client|] eqn:Eg; [|discriminate].
      apply (get_In_keys _ _ _ Eg).
  - intros e He. unfold getProviderStats in He. apply in_map_iff in He.
    destruct He as ([p client] & <- & Hin). cbn [snd modelCount stats_models fst].
    split; [reflexivity|].
    destruct (built_constructed config env f out Hnew) as (_ & Hall).
    rewrite Forall_forall in Hall. specialize (Hall _ Hin). cbn [snd] in Hall.
    unfold getAllowedModels. destruct (models client); [contradiction Hall; reflexivity|].
    cbn. lia.
Qed.

Lemma provider_stats_default_witness :
  map fst (getProviderStats sample_factory) = ["huggingface"; "openai"]
  /\ map (fun e => isDefault (snd e)) (getProviderStats sample_factory) = [true; false].
Proof.
  destruct (provider_stats_default sample_config sample_env sample_factory sample_out)
    as (Hkeys & _); [vm_compute; reflexivity|].
  split; [rewrite Hkeys; reflexivity | reflexivity].
Defined.

End Statistics.

(* ================================================================== *)
(** * Further properties of the resolution of model names *)
(* ================================================================== *)

Section ResolutionTotal.

Lemma resolve_plain_none (m : PMap.t) (modelId : string) :
  (forall e, In e m -> lists (snd e) modelId = false) -> resolve_plain m modelId = None.
Proof.
  induction m as [|[q v] m IH]; intros H; [reflexivity|].
  cbn [resolve_plain]. pose proof (H (q, v) (or_introl eq_refl)) as Hq.
  unfold lists in Hq. cbn [snd] in Hq. rewrite Hq.
  apply IH. intros e He. apply H. right; exact He.
Qed.

Lemma resolve_plain_first (before after : PMap.t) (p : ProviderType) (client : Provider)
    (modelId : string) :
  (forall e, In e before -> lists (snd e) modelId = false) ->
  lists client modelId = true ->
  resolve_plain (before ++ (p, client) :: after)%list modelId
  = Some (client, Obj.or_else (Obj.get (getAllowedModels client) modelId) modelId).
Proof.
  intros Hb Hc. induction before as [|[q v] before IH]; cbn [app resolve_plain].
  - unfold lists in Hc. rewrite Hc. reflexivity.
  - pose proof (Hb (q, v) (or_introl eq_refl)) as Hq.
    unfold lists in Hq. cbn [snd] in Hq. rewrite Hq.
    apply IH. intros e He. apply Hb. right; exact He.
Qed.

Lemma resolve_plain_live (m : PMap.t) (modelId : string) (client : Provider) (v : Obj.value) :
  resolve_plain m modelId = Some (client, v) -> In client (map snd m).
Proof.
  induction m as [|[q c] m IH]; [discriminate|].
  cbn [resolve_plain map snd].
  destruct (_ || _); [intros [= <- _]; left; reflexivity|].
  intros H. right. apply IH, H.
Qed.

Lemma get_id_live (m : PMap.t) (s : string) (client : Provider) :
  PMap.get_id m s = Some client -> In client (map snd m).
Proof.
  unfold PMap.get_id. destruct (provider_of_string s) as [p|]; [|discriminate].
  intros H. destruct (get_In_keys m p client H) as [_ Hin].
  change client with (snd (p, client)). apply in_map, Hin.
Qed.

Lemma resolve_prefixed_live (f : ImageProviderFactory) (modelId : string)
    (client : Provider) (v : Obj.value) :
  resolve_prefixed f modelId = Some (client, v) -> In client (map snd (this_providers f)).
Proof.
  unfold resolve_prefixed. destruct (Js.includes "/" modelId); [|discriminate].
  destruct (Js.split_limit "/" modelId 2) as [|a [|b [|c l]]]; try discriminate.
  destruct (PMap.get_id (this_providers f) a) as [provider|] eqn:Eg; [|discriminate].
  destruct (_ || _); [|discriminate].
  intros [= <- _]. apply (get_id_live _ _ _ Eg).
Qed.

Lemma resolve_prefixed_plain (f : ImageProviderFactory) (modelId : string) :
  lacks "/" modelId = true -> resolve_prefixed f modelId = None.
Proof.
  intros H. unfold resolve_prefixed. rewrite (lacks_slash_no_separator _ H). reflexivity.
Qed.

Lemma default_values_not_inherited (p : ProviderType) (e : string * string) :
  In e (default_catalog p) -> existsb (String.eqb (snd e)) Obj.proto_members = false.
Proof.
  destruct p; simpl; intros H;
    repeat (destruct H as [<-|H]; [reflexivity|]); contradiction.
Qed.

Variable config : MultiProviderConfig.
Variable env : Env.
Variable f : ImageProviderFactory.
Variable out : list Event.
Hypothesis built : new_ImageProviderFactory config env = (Return f, out).

Lemma built_entries :
  forall e, In e (this_providers f) ->
    fst (createProvider config env (fst e)) = Return (snd e).
Proof.
  destruct (new_factory_return config env f out built) as (Hm & _).
  rewrite Hm. unfold built_registry. apply Forall_forall.
  apply initialize_all_constructed. constructor.
Qed.

Lemma built_default_client :
  exists d dflt,
    this_defaultProvider f = Some d
    /\ PMap.get (this_providers f) d = Some dflt
    /\ getDefaultProvider f = Return dflt.
Proof.
  destruct (built_default_in config env f out built) as (d & Hd & Hhas).
  unfold PMap.has in Hhas.
  destruct (PMap.get (this_providers f) d) as [dflt|] eqn:Eg; [|discriminate].
  exists d, dflt. split; [exact Hd|]. split; [exact Eg|].
  unfold getDefaultProvider. rewrite Hd. cbn [option_map].
  apply getProvider_live, Eg.
Qed.

(** X13.  On a registry that the constructor returns, [getProviderFromModel]
    throws for no string: it returns a client of the registry.  A string
    without a slash that no client lists, as a model or as a key, goes to
    the default provider as it is. *)
Theorem resolution_never_fails (modelId : string) :
  exists client v,
    getProviderFromModel f modelId = Return (client, v)
    /\ In client (map snd (this_providers f))
    /\ (lacks "/" modelId = true ->
        (forall e, In e (this_providers f) -> lists (snd e) modelId = false) ->
        getDefaultProvider f = Return client /\ v = Obj.Str modelId).
Proof.
  destruct built_default_client as (d & dflt & Hd & Hget & Hdef).
  unfold getProviderFromModel.
  destruct (resolve_prefixed f modelId) as [[client v]|] eqn:Ep.
  - exists client, v. split; [reflexivity|].
    split; [apply (resolve_prefixed_live _ _ _ _ Ep)|].
    intros Hl _. rewrite (resolve_prefixed_plain f modelId Hl) in Ep. discriminate.
  - destruct (resolve_plain (this_providers f) modelId) as [[client v]|] eqn:Er.
    + exists client, v. split; [reflexivity|].
      split; [apply (resolve_plain_live _ _ _ _ Er)|].
      intros _ Hnone. rewrite (resolve_plain_none _ _ Hnone) in Er. discriminate.
    + rewrite Hdef. cbn [bind]. exists dflt, (Obj.Str modelId). split; [reflexivity|].
      split; [|intros _ _; split; reflexivity].
      destruct (get_In_keys _ _ _ Hget) as [_ Hin].
      change dflt with (snd (d, dflt)). apply in_map, Hin.
Qed.

(** X14.  On a registry that the constructor returns, a string without a
    slash goes to the first client, in the order of the registry, that
    lists it as a model or as a key; the model sent is the model of the key
    when the string is a key of that client, and the string itself
    otherwise. *)
Theorem plain_model_first_provider (modelId : string) (before after : PMap.t)
    (p : ProviderType) (client : Provider) :
  lacks "/" modelId = true ->
  this_providers f = (before ++ (p, client) :: after)%list ->
  (forall e, In e before -> lists (snd e) modelId = false) ->
  lists client modelId = true ->
  getProviderFromModel f modelId
  = Return (client,
            Obj.Str (match Obj.own (models client) modelId with
                     | Some v => v
                     | None => modelId
                     end)).
Proof.
  intros Hl Hsplit Hbefore Hlists.
  unfold getProviderFromModel.
  rewrite (resolve_prefixed_plain f modelId Hl), Hsplit.
  rewrite (resolve_plain_first before after p client modelId Hbefore Hlists).
  f_equal. f_equal.
  assert (Hin : In (p, client) (this_providers f)).
  { rewrite Hsplit. apply in_or_app. right; left; reflexivity. }
  pose proof (built_entries _ Hin) as Hcreate. cbn [fst snd] in Hcreate.
  destruct (createProvider_construct config env p client Hcreate) as (k & o & _ & _ & Hcon).
  pose proof (construct_entries_truthy _ _ _ _ Hcon) as Htruthy.
  pose proof (construct_entries _ _ _ _ Hcon) as Hent.
  unfold getAllowedModels, Obj.get, Obj.or_else.
  destruct (Obj.own (models client) modelId) as [v|] eqn:Eo.
  - cbn [Obj.value_truthy].
    rewrite (truthy_true v (proj2 (Htruthy _ (own_In _ _ _ Eo)))). reflexivity.
  - assert (Hval : In modelId (Obj.values (models client))).
    { unfold lists, getAllowedModels in Hlists. apply orb_true_iff in Hlists.
      destruct Hlists as [H|H]; unfold Obj.includes in H; apply existsb_exists in H;
        destruct H as (x & Hx & Ex); apply String.eqb_eq in Ex; subst x; [exact Hx|].
      apply own_In_keys in Hx. contradiction. }
    apply in_map_iff in Hval. destruct Hval as ([k0 v0] & Hv0 & Hin0).
    cbn [snd] in Hv0. subst v0.
    destruct (Hent _ Hin0) as [Hdef|(_ & Hsame & _)].
    + pose proof (default_values_not_inherited p _ Hdef) as Hni. cbn [snd] in Hni.
      rewrite Hni. reflexivity.
    + cbn [fst snd] in Hsame. subst k0.
      assert (Hk : In modelId (Obj.keys (models client))).
      { change modelId with (fst (modelId, modelId)). apply in_map, Hin0. }
      apply own_In_keys in Hk. contradiction.
Qed.

End ResolutionTotal.

Lemma resolution_never_fails_witness :
  exists client v,
    getProviderFromModel plain_factory "no-such-model" = Return (client, v)
    /\ getDefaultProvider plain_factory = Return client
    /\ v = Obj.Str "no-such-model".
Proof.
  assert (Hb : new_ImageProviderFactory plain_config sample_env
               = (Return plain_factory, snd (new_ImageProviderFactory plain_config sample_env)))
    by (vm_compute; reflexivity).
  destruct (resolution_never_fails plain_config sample_env plain_factory _ Hb "no-such-model")
    as (client & v & Hr & _ & Hplain).
  exists client, v. split; [exact Hr|]. apply Hplain; [reflexivity|].
  intros e [<-|[<-|[]]]; reflexivity.
Defined.

Lemma plain_model_first_provider_witness :
  getProviderFromModel plain_factory "STABLE_DIFFUSION_XL"
  = Return (sample_huggingface, Obj.Str "stabilityai/stable-diffusion-xl-base-1.0").
Proof.
  assert (Hb : new_ImageProviderFactory plain_config sample_env
               = (Return plain_factory, snd (new_ImageProviderFactory plain_config sample_env)))
    by (vm_compute; reflexivity).
  apply (plain_model_first_provider plain_config sample_env plain_factory _ Hb
           "STABLE_DIFFUSION_XL" [(OPENAI, sample_openai)] [] HUGGINGFACE sample_huggingface).
  - reflexivity.
  - reflexivity.
  - intros e [<-|[]]. reflexivity.
  - reflexivity.
Defined.

Section Enumeration.

Lemma fold_set_has {E} (g h : E -> string) (l : list E) (o : Obj.t) (k : string) :
  In k (Obj.keys o) \/ (exists e, In e l /\ k = g e /\ g e <> "__proto__") ->
  In k (Obj.keys (fold_left (fun acc e => Obj.set acc (g e) (h e)) l o)).
Proof.
  revert o; induction l as [|a l IH]; intros o H; cbn [fold_left].
  - destruct H as [H|(e & [] & _)]; exact H.
  - apply IH. destruct H as [H|(e & [<-|He] & Hk & Hp)].
    + left. apply keys_set_keeps, H.
    + left. subst k. apply keys_set_new, Hp.
    + right. exists e. repeat split; assumption.
Qed.

Lemma assign_has (target source : Obj.t) (k : string) :
  In k (Obj.keys target) \/ (In k (Obj.keys source) /\ k <> "__proto__") ->
  In k (Obj.keys (Obj.assign target source)).
Proof.
  intros H. unfold Obj.assign, Obj.entries.
  apply (fold_set_has fst snd). destruct H as [H|[H Hp]]; [left; exact H|].
  right. apply in_map_iff in H. destruct H as (e & He & Hin).
  exists e. subst k. repeat split; assumption.
Qed.

Lemma flat_has (all : list (string * Obj.t)) (flat : Obj.t) (k : string) :
  In k (Obj.keys flat)
  \/ (exists e, In e all /\ In k (Obj.keys (snd e)) /\ k <> "__proto__") ->
  In k (Obj.keys (fold_left (fun flat e => Obj.assign flat (snd e)) all flat)).
Proof.
  revert flat; induction all as [|a all IH]; intros flat H; cbn [fold_left].
  - destruct H as [H|(e & [] & _)]; exact H.
  - apply IH. destruct H as [H|(e & [<-|He] & Hk & Hp)].
    + left. apply assign_has. left; exact H.
    + left. apply assign_has. right. split; assumption.
    + right. exists e. repeat split; assumption.
Qed.

Lemma prefixed_has (p : ProviderType) (catalog : Obj.t) (k : string) :
  In k (Obj.keys catalog) ->
  In (provider_id p ++ "/" ++ k) (Obj.keys (prefixed p catalog)).
Proof.
  intros H. unfold prefixed, Obj.entries.
  apply (fold_set_has (fun e => provider_id p ++ "/" ++ fst e) snd).
  right. apply in_map_iff in H. destruct H as (e & He & Hin).
  exists e. subst k. split; [exact Hin|]. split; [reflexivity | apply prefixed_not_proto].
Qed.

Lemma default_keys_plain (p : ProviderType) (k : string) :
  In k (Obj.keys (default_catalog p)) -> lacks "/" k = true.
Proof.
  destruct p; simpl; intros H;
    repeat (destruct H as [<-|H]; [reflexivity|]); contradiction.
Qed.

(** X15.  On a registry that the constructor returns, every key of a client
    that has no slash is enumerated, with the identity of its provider in
    front, among the names of [flatModels], and that name resolves to the
    client and to the model of the key.  No key of a default catalog has a
    slash: every name of a client that exposes its default catalog
    resolves. *)
Theorem enumerated_name_roundtrip (config : MultiProviderConfig) (env : Env)
    (f : ImageProviderFactory) (out : list Event) (p : ProviderType) (client : Provider) :
  new_ImageProviderFactory config env = (Return f, out) ->
  PMap.get (this_providers f) p = Some client ->
  (forall k v, Obj.own (models client) k = Some v -> lacks "/" k = true ->
     In (provider_id p ++ "/" ++ k) (Obj.keys (flatModels f))
     /\ getProviderFromModel f (provider_id p ++ "/" ++ k) = Return (client, Obj.Str v))
  /\ (models client = default_catalog p ->
      forall k, In k (Obj.keys (models client)) -> lacks "/" k = true).
Proof.
  intros Hnew Hget. split.
  - intros k v Hown Hplain.
    destruct (get_In_keys _ _ _ Hget) as [_ Hin]. split.
    + unfold flatModels. apply flat_has. right.
      exists (provider_id p, prefixed p (getAllowedModels client)). split; [|split].
      * unfold getAllProviderModels.
        change (provider_id p, prefixed p (getAllowedModels client))
          with ((fun e : ProviderType * Provider =>
                   (provider_id (fst e), prefixed (fst e) (getAllowedModels (snd e))))
                  (p, client)).
        apply in_map, Hin.
      * cbn [snd]. apply prefixed_has. unfold getAllowedModels.
        apply own_In_keys. rewrite Hown. discriminate.
      * apply prefixed_not_proto.
    + apply prefixed_key_resolves; [exact Hget | exact Hown | | exact Hplain].
      pose proof (built_entries config env f out Hnew _ Hin) as Hcreate.
      cbn [fst snd] in Hcreate.
      destruct (createProvider_construct config env p client Hcreate)
        as (key & o & _ & _ & Hcon).
      apply (proj2 (construct_entries_truthy _ _ _ _ Hcon _ (own_In _ _ _ Hown))).
  - intros Hdef k Hk. rewrite Hdef in Hk. apply (default_keys_plain p k Hk).
Qed.

End Enumeration.

Lemma enumerated_name_roundtrip_witness :
  In "huggingface/FLUX_SCHNELL" (Obj.keys (flatModels plain_factory))
  /\ getProviderFromModel plain_factory "huggingface/FLUX_SCHNELL"
     = Return (sample_huggingface, Obj.Str "black-forest-labs/FLUX.1-schnell").
Proof.
  assert (Hb : new_ImageProviderFactory plain_config sample_env
               = (Return plain_factory, snd (new_ImageProviderFactory plain_config sample_env)))
    by (vm_compute; reflexivity).
  destruct (enumerated_name_roundtrip plain_config sample_env plain_factory _
              HUGGINGFACE sample_huggingface Hb) as [Hres _]; [reflexivity|].
  apply (Hres "FLUX_SCHNELL" "black-forest-labs/FLUX.1-schnell"); reflexivity.
Defined.

(* ================================================================== *)
(** * Further properties of the tool handlers *)
(* ================================================================== *)

Section Handlers.

Variable srv : Server.
Variable fs : Fs.FileSystem.
Variable uuid : string.

(** What a handler answers, by the place where it stops. *)
Lemma finish_answers (label : string)
    (selected : Outcome (Provider * ImageGenerationResponse))
    (fmt : option string) (outputPath : string) :
  let r := finish label fs uuid selected fmt outputPath in
  (forall msg, selected = Throw msg -> r = (fs, label ++ msg))
  /\ (forall client response, selected = Return (client, response) ->
        (data response = [] -> r = (fs, label ++ "No images were generated"))
        /\ (forall image, hd_error (data response) = Some image ->
              truthy_opt (b64_json image) = false ->
              r = (fs, label ++ "Image data not found in response"))
        /\ (forall image d, hd_error (data response) = Some image ->
              b64_json image = Some d -> d <> "" ->
              let s := saveImageToTempFile fs uuid d fmt (Some outputPath) in
              (forall msg, snd s = Throw msg ->
                 r = (fst s, label ++ msg)
                 /\ forall k, Fs.file (fst r) k = Fs.file fs k)
              /\ (forall path, snd s = Return path ->
                    r = (fst s, path)
                    /\ Fs.contents (fst r) path = Some (base64ToBuffer d))
              /\ (writable fs uuid fmt (Some outputPath) = true ->
                    exists path, snd s = Return path))).
Proof.
  cbv zeta. unfold finish. split.
  - intros msg ->. reflexivity.
  - intros client response ->. cbn [bind snd]. split; [|split].
    + intros ->. reflexivity.
    + intros image Hhd Hb. destruct (data response) as [|x rest]; [discriminate Hhd|].
      injection Hhd as ->. rewrite Hb. reflexivity.
    + intros image d Hhd Hb Hd. destruct (data response) as [|x rest]; [discriminate Hhd|].
      injection Hhd as ->. rewrite Hb. cbn [truthy_opt]. rewrite (truthy_true d Hd).
      pose proof (save_outcome fs uuid d fmt (Some outputPath)) as [_ Hout].
      cbv zeta in Hout.
      destruct (saveImageToTempFile fs uuid d fmt (Some outputPath)) as [fs' [path|msg]] eqn:Es;
        cbn [fst snd] in *.
      * split; [intros msg Hm; discriminate Hm|]. split.
        -- intros path' [= <-]. split; [reflexivity | exact (proj1 (proj2 Hout))].
        -- intros _. exists path. reflexivity.
      * split; [|split].
        -- intros msg' [= <-]. split; [reflexivity | exact Hout].
        -- intros path Hp. discriminate Hp.
        -- intros Hw.
           destruct (save_writable fs uuid d fmt (Some outputPath) Hw) as (fs1 & path & E).
           rewrite Es in E. discriminate E.
Qed.

(** X16.  What each tool handler answers, by the place where it stops.  An
    error thrown while the target is chosen, or by the provider's method,
    becomes the text of the answer with the label of the tool in front, and
    the file system is left as it was; so does a response without an image
    and a first image without base64 data.  Otherwise the base64 text of
    the first image is saved under the output path of the call: when the
    save throws, the error becomes the text in the same way and every
    regular file holds what it held; when it returns, the text is the path
    returned and the bytes read through that path are the bytes of that
    image; it returns whenever the way of the output path is clear
    ([writable]). *)
Theorem handler_saves_or_reports
    (generate : Provider -> GenerateCall -> Outcome ImageGenerationResponse)
    (edit : Provider -> EditCall -> Outcome ImageGenerationResponse)
    (gargs : TextToImageArgs) (eargs : ImageToImageArgs) :
  let g := text_to_image srv generate fs uuid gargs in
  let e := image_to_image srv edit fs uuid eargs in
  (forall msg, text_to_image_call srv gargs = Throw msg ->
     g = (fs, "Error generating image: " ++ msg))
  /\ (forall client call, text_to_image_call srv gargs = Return (client, call) ->
      (forall msg, generate client call = Throw msg ->
         g = (fs, "Error generating image: " ++ msg))
      /\ (forall response, generate client call = Return response ->
          (data response = [] -> g = (fs, "Error generating image: No images were generated"))
          /\ (forall image, hd_error (data response) = Some image ->
                truthy_opt (b64_json image) = false ->
                g = (fs, "Error generating image: Image data not found in response"))
          /\ (forall image d, hd_error (data response) = Some image ->
                b64_json image = Some d -> d <> "" ->
                let s := saveImageToTempFile fs uuid d (arg_output_format gargs)
                           (Some (arg_outputPath gargs)) in
                (forall msg, snd s = Throw msg ->
                   g = (fst s, "Error generating image: " ++ msg)
                   /\ forall k, Fs.file (fst g) k = Fs.file fs k)
                /\ (forall path, snd s = Return path ->
                      g = (fst s, path)
                      /\ Fs.contents (fst g) path = Some (base64ToBuffer d))
                /\ (writable fs uuid (arg_output_format gargs) (Some (arg_outputPath gargs)) = true ->
                      exists path, snd s = Return path))))
  /\ (forall msg, image_to_image_call srv eargs = Throw msg ->
     e = (fs, "Error editing image: " ++ msg))
  /\ (forall client call, image_to_image_call srv eargs = Return (client, call) ->
      (forall msg, edit client call = Throw msg ->
         e = (fs, "Error editing image: " ++ msg))
      /\ (forall response, edit client call = Return response ->
          (data response = [] -> e = (fs, "Error editing image: No images were generated"))
          /\ (forall image, hd_error (data response) = Some image ->
                truthy_opt (b64_json image) = false ->
                e = (fs, "Error editing image: Image data not found in response"))
          /\ (forall image d, hd_error (data response) = Some image ->
                b64_json image = Some d -> d <> "" ->
                let s := saveImageToTempFile fs uuid d (edit_output_format eargs)
                           (Some (edit_outputPath eargs)) in
                (forall msg, snd s = Throw msg ->
                   e = (fst s, "Error editing image: " ++ msg)
                   /\ forall k, Fs.file (fst e) k = Fs.file fs k)
                /\ (forall path, snd s = Return path ->
                      e = (fst s, path)
                      /\ Fs.contents (fst e) path = Some (base64ToBuffer d))
                /\ (writable fs uuid (edit_output_format eargs) (Some (edit_outputPath eargs)) = true ->
                      exists path, snd s = Return path)))).
Proof.
  cbv zeta. unfold text_to_image, image_to_image.
  split; [|split; [|split]].
  - intros msg E. rewrite E. cbn [bind].
    apply (proj1 (finish_answers _ _ _ _) msg eq_refl).
  - intros client call E. rewrite E. cbn [bind fst snd]. split.
    + intros msg Er. rewrite Er. cbn [bind].
      apply (proj1 (finish_answers _ _ _ _) msg eq_refl).
    + intros response Er. rewrite Er. cbn [bind].
      exact (proj2 (finish_answers "Error generating image: " (Return (client, response))
                      (arg_output_format gargs) (arg_outputPath gargs))
               client response eq_refl).
  - intros msg E. rewrite E. cbn [bind].
    apply (proj1 (finish_answers _ _ _ _) msg eq_refl).
  - intros client call E. rewrite E. cbn [bind fst snd]. split.
    + intros msg Er. rewrite Er. cbn [bind].
      apply (proj1 (finish_answers _ _ _ _) msg eq_refl).
    + intros response Er. rewrite Er. cbn [bind].
      exact (proj2 (finish_answers "Error editing image: " (Return (client, response))
                      (edit_output_format eargs) (edit_outputPath eargs))
               client response eq_refl).
Qed.

Lemma get_of_key (m : PMap.t) (p : ProviderType) :
  In p (PMap.keys m) -> exists client, PMap.get m p = Some client.
Proof.
  induction m as [|[k v] m IH]; intros H; [destruct H|].
  cbn [PMap.get]. destruct (provider_eqb k p) eqn:E; [exists v; reflexivity|].
  destruct H as [H|H]; [|exact (IH H)].
  cbn [fst] in H. subst k. destruct p; discriminate E.
Qed.

(** X17.  The provider argument of both tools is, by their schema, one of
    [getAvailableProviders()].  For each of those names [getProvider]
    returns the client the registry holds for it, and the target the
    handlers choose is that client with the model argument as it was given
    (or the default model of the server); the model is not looked up. *)
Theorem listed_provider_selected (model : option string) (p : ProviderType) (dflt : Provider) :
  getDefaultProvider (providerFactory srv) = Return dflt ->
  In p (getAvailableProviders (providerFactory srv)) ->
  exists client,
    PMap.get (this_providers (providerFactory srv)) p = Some client
    /\ getProvider (providerFactory srv) (Some (provider_id p)) = Return client
    /\ select_target srv model (Some (provider_id p))
       = Return (client, Obj.of_option (or_opt model (server_defaultModel srv))).
Proof.
  intros Hdef Hin. destruct (get_of_key _ _ Hin) as (client & Hget).
  assert (Hp : getProvider (providerFactory srv) (Some (provider_id p)) = Return client).
  { unfold getProvider. cbn [truthy_opt]. rewrite provider_id_truthy.
    unfold PMap.get_id. rewrite provider_of_id, Hget. reflexivity. }
  exists client. split; [exact Hget|]. split; [exact Hp|].
  unfold select_target. rewrite Hdef. cbn [bind truthy_opt].
  rewrite provider_id_truthy, Hp. reflexivity.
Qed.

End Handlers.

(** X16 on the sample server: a backend that answers one image, whose
    file is written to [/tmp/out.png] and read back; a backend that fails;
    a response without images; and the edit tool with a backend that
    fails. *)
Lemma handler_saves_or_reports_witness :
  (text_to_image sample_server
     (fun _ _ => Return {| created := 0%Z;
                           data := [{| url := None; b64_json := Some "TWFu";
                                       revised_prompt := None |}] |})
     Fs.empty "u" (generate_args (Some "openai/DALLE3") None)
   = (fst (saveImageToTempFile Fs.empty "u" "TWFu" (Some "png") (Some "/tmp/out.png")),
      "/tmp/out.png")
   /\ Fs.contents
        (fst (text_to_image sample_server
                (fun _ _ => Return {| created := 0%Z;
                                      data := [{| url := None; b64_json := Some "TWFu";
                                                  revised_prompt := None |}] |})
                Fs.empty "u" (generate_args (Some "openai/DALLE3") None)))
        "/tmp/out.png"
      = Some ["M"%byte; "a"%byte; "n"%byte])
  /\ text_to_image sample_server (fun _ _ => Throw "backend down") Fs.empty "u"
       (generate_args (Some "openai/DALLE3") None)
     = (Fs.empty, "Error generating image: backend down")
  /\ text_to_image sample_server (fun _ _ => Return {| created := 0%Z; data := [] |})
       Fs.empty "u" (generate_args (Some "openai/DALLE3") None)
     = (Fs.empty, "Error generating image: No images were generated")
  /\ image_to_image sample_server (fun _ _ => Throw "backend down") Fs.empty "u"
       (edit_args None None)
     = (Fs.empty, "Error editing image: backend down").
Proof.
  destruct (text_to_image_call sample_server (generate_args (Some "openai/DALLE3") None))
    as [[client call]|msg] eqn:Ec; [|vm_compute in Ec; discriminate Ec].
  destruct (image_to_image_call sample_server (edit_args None None))
    as [[eclient ecall]|msg] eqn:Ee; [|vm_compute in Ee; discriminate Ee].
  split; [|split; [|split]].
  - destruct (handler_saves_or_reports sample_server Fs.empty "u"
                (fun _ _ => Return {| created := 0%Z;
                                      data := [{| url := None; b64_json := Some "TWFu";
                                                  revised_prompt := None |}] |})
                (fun _ _ => Throw "unreachable")
                (generate_args (Some "openai/DALLE3") None) (edit_args None None))
      as (_ & Hg & _).
    destruct (Hg client call Ec) as [_ Hresp].
    destruct (Hresp _ eq_refl) as (_ & _ & Hsave).
    destruct (Hsave {| url := None; b64_json := Some "TWFu"; revised_prompt := None |} "TWFu")
      as (_ & Hret & _); [reflexivity | reflexivity | discriminate |].
    exact (Hret "/tmp/out.png" eq_refl).
  - destruct (handler_saves_or_reports sample_server Fs.empty "u"
                (fun _ _ => Throw "backend down") (fun _ _ => Throw "unreachable")
                (generate_args (Some "openai/DALLE3") None) (edit_args None None))
      as (_ & Hg & _).
    destruct (Hg client call Ec) as [Hfail _].
    exact (Hfail "backend down" eq_refl).
  - destruct (handler_saves_or_reports sample_server Fs.empty "u"
                (fun _ _ => Return {| created := 0%Z; data := [] |})
                (fun _ _ => Throw "unreachable")
                (generate_args (Some "openai/DALLE3") None) (edit_args None None))
      as (_ & Hg & _).
    destruct (Hg client call Ec) as [_ Hresp].
    destruct (Hresp _ eq_refl) as (Hnone & _).
    exact (Hnone eq_refl).
  - destruct (handler_saves_or_reports sample_server Fs.empty "u"
                (fun _ _ => Throw "unreachable") (fun _ _ => Throw "backend down")
                (generate_args (Some "openai/DALLE3") None) (edit_args None None))
      as (_ & _ & _ & He).
    destruct (He eclient ecall Ee) as [Hfail _].
    exact (Hfail "backend down" eq_refl).
Defined.

(** X17 on the sample server, for the provider [openai]. *)
Lemma listed_provider_selected_witness :
  exists client,
    getProvider (providerFactory sample_server) (Some "openai") = Return client
    /\ select_target sample_server (Some "DALLE3") (Some "openai")
       = Return (client, Obj.of_option (Some "DALLE3")).
Proof.
  destruct (getDefaultProvider (providerFactory sample_server)) as [dflt|msg] eqn:Ed;
    [|vm_compute in Ed; discriminate Ed].
  destruct (listed_provider_selected sample_server (Some "DALLE3") OPENAI dflt Ed)
    as (client & _ & Hp & Hs); [vm_compute; tauto|].
  exists client. split; [exact Hp | exact Hs].
Defined.

(* ================================================================== *)
(** * Further properties of the edit requests *)
(* ================================================================== *)

Section EditRequests.

Variable fs : Fs.FileSystem.

Ltac sent H :=
  match type of H with
  | (if ?c then Throw _ else _) = Return _ => destruct c eqn:?; [discriminate H|]
  end.

Lemma attach_images_sent (paths : list string) (parts : list FormPart) :
  attach_images fs paths = Return parts ->
  parts = map (file_part fs "image[]") paths /\ forallb (Fs.existsSync fs) paths = true.
Proof.
  revert parts; induction paths as [|p paths IH]; intros parts; cbn [attach_images].
  - intros [= <-]. split; reflexivity.
  - destruct (Fs.existsSync fs p) eqn:Ep; cbn [negb]; [|discriminate].
    destruct (attach_images fs paths) as [rest|msg]; cbn [bind]; [|discriminate].
    intros [= <-]. destruct (IH rest eq_refl) as [-> Hall].
    cbn [map forallb]. rewrite Ep, Hall. split; reflexivity.
Qed.

Lemma text_part_text (field : string) (o : option string) :
  forallb is_text (text_part field o) = true.
Proof.
  unfold text_part. destruct o as [s|]; [destruct (Js.truthy s)|]; reflexivity.
Qed.

Lemma client_editImages (this : Provider) (params : Edit.Params) :
  OpenAIImageClient_editImages this fs params = OpenAIImageProvider_editImages this fs params.
Proof.
  unfold OpenAIImageClient_editImages, OpenAIImageProvider_editImages, validateParams.
  destruct (List.length (Edit.images params) =? 0)%nat; [reflexivity|].
  destruct (Js.truthy (Edit.prompt params)); reflexivity.
Qed.

(** X18.  An edit request that the OpenAI provider sends, and the OpenAI
    client with it, has a prompt and at least one image; its model is
    [dall-e-2] or [gpt-image-1], never [dall-e-3], and a model of the
    catalog; [dall-e-2] gets one image only.  Every image and the mask
    exist, and the form starts with one [image[]] file for each image, in
    their order, then the mask, then the prompt; the rest are text
    fields. *)
Theorem openai_edit_request (this : Provider) (params : Edit.Params) (request : Request) :
  OpenAIImageProvider_editImages this fs params = Return request ->
  let model := over "gpt-image-1" (Edit.model params) in
  OpenAIImageClient_editImages this fs params = Return request
  /\ Edit.images params <> [] /\ Edit.prompt params <> ""
  /\ (truthy_opt model = true ->
      (model = Some "dall-e-2" \/ model = Some "gpt-image-1")
      /\ In (show_opt model) (Obj.values (models this)))
  /\ (model = Some "dall-e-2" -> exists p, Edit.images params = [p])
  /\ forallb (Fs.existsSync fs) (Edit.images params ++ mask_path params)%list = true
  /\ exists rest,
       request
       = FetchForm openai_editUrl (key this)
           (map (file_part fs "image[]") (Edit.images params)
              ++ map (file_part fs "mask") (mask_path params)
              ++ TextPart "prompt" (Edit.prompt params) :: rest)%list
       /\ forallb is_text rest = true.
Proof.
  intros H. cbv zeta. split; [rewrite client_editImages; exact H|].
  unfold OpenAIImageProvider_editImages, validateParams in H.
  sent H. destruct (Js.truthy (Edit.prompt params)) eqn:Hprompt; cbn [bind] in H;
    [|discriminate H].
  do 4 sent H.
  destruct (attach_images fs (Edit.images params)) as [parts|msg] eqn:Ea; cbn [bind] in H;
    [|discriminate H].
  destruct (attach_images_sent _ _ Ea) as [-> Hall].
  split; [apply length_zero; assumption|].
  split; [intros E; rewrite E in Hprompt; discriminate Hprompt|].
  split; [|split].
  - intros Ht.
    match goal with
    | Hm : (truthy_opt _ && negb (Obj.includes _ _))%bool = false |- _ =>
        rewrite Ht in Hm; cbn [andb] in Hm; apply negb_false_iff in Hm; rename Hm into Hinc
    end.
    match goal with
    | Hm : (truthy_opt _ && negb (equals _ "dall-e-2") && negb (equals _ "gpt-image-1"))%bool
           = false |- _ =>
        rewrite Ht in Hm; cbn [andb] in Hm; rename Hm into Heq
    end.
    split.
    + destruct (equals (over "gpt-image-1" (Edit.model params)) "dall-e-2") eqn:E2.
      * left. apply equals_spec, E2.
      * right. cbn [negb andb] in Heq. apply negb_false_iff in Heq.
        apply equals_spec, Heq.
    + unfold Obj.includes in Hinc. apply existsb_exists in Hinc.
      destruct Hinc as (x & Hx & Ex). apply String.eqb_eq in Ex. subst x. exact Hx.
  - intros Hm.
    match goal with
    | Hs : (equals _ "dall-e-2" && negb (List.length _ =? 1)%nat)%bool = false |- _ =>
        rewrite (proj2 (equals_spec _ _) Hm) in Hs; cbn [andb] in Hs;
          apply negb_false_iff, Nat.eqb_eq in Hs; rename Hs into Hone
    end.
    destruct (Edit.images params) as [|p [|q l]]; try discriminate Hone.
    exists p. reflexivity.
  - assert (Hmask : exists maskParts,
               (match read (Edit.mask params) with
                | Some m =>
                    if Js.truthy m
                    then if negb (Fs.existsSync fs m) then Throw (mask_not_found m)
                         else Return [FilePart "mask" (Fs.readFileSync fs m) (Path.parse_base m)]
                    else Return []
                | None => Return []
                end) = Return maskParts
               /\ maskParts = map (file_part fs "mask") (mask_path params)
               /\ forallb (Fs.existsSync fs) (mask_path params) = true).
    { revert H. unfold mask_path. destruct (Edit.mask params) as [| |m]; cbn [read].
      - intros _. exists []. repeat split.
      - intros _. exists []. repeat split.
      - destruct (Js.truthy m); [|intros _; exists []; repeat split].
        destruct (Fs.existsSync fs m) eqn:Em; cbn [negb bind]; [|discriminate].
        intros _. eexists. split; [reflexivity|]. split; [reflexivity|].
        cbn [forallb]. rewrite Em. reflexivity. }
    destruct Hmask as (maskParts & Hm & -> & Hexists).
    rewrite Hm in H. cbn [bind] in H. injection H as <-.
    split; [rewrite forallb_app, Hall, Hexists; reflexivity|].
    eexists. split.
    + reflexivity.
    + rewrite !forallb_app, !text_part_text.
      destruct (num_truthy _); destruct (negb (equals _ "gpt-image-1"));
        rewrite ?text_part_text; reflexivity.
Qed.

(** X19.  The Stability, the Replicate and the Hugging Face providers read
    the first image of an edit request and no other: the outcome is the one
    of the request with the first image alone. *)
Theorem only_first_image_read (this : Provider) (params : Edit.Params) :
  kind this <> OPENAI ->
  editImages this fs params
  = editImages this fs (with_images (firstn 1 (Edit.images params)) params).
Proof.
  intros Hk. unfold editImages.
  destruct (kind this); [contradiction Hk; reflexivity| | |];
    unfold StabilityImageProvider_editImages, ReplicateImageProvider_editImages,
      HuggingFaceImageProvider_editImages, with_images;
    cbn [Edit.images Edit.prompt Edit.mask Edit.model Edit.n Edit.size];
    destruct (Edit.images params) as [|p l]; reflexivity.
Qed.

End EditRequests.

Lemma openai_edit_request_witness :
  exists rest,
    OpenAIImageClient_editImages sample_openai one_image (edit_request ["/in/a.png"] Absent)
    = Return (FetchForm openai_editUrl "sk-test"
                (FilePart "image[]" [x89; x50; x4e; x47] "a.png"
                   :: TextPart "prompt" "add a rainbow" :: rest)).
Proof.
  destruct (OpenAIImageProvider_editImages sample_openai one_image
              (edit_request ["/in/a.png"] Absent)) as [request|msg] eqn:E;
    [|vm_compute in E; discriminate E].
  destruct (openai_edit_request one_image sample_openai (edit_request ["/in/a.png"] Absent) request E)
    as (Hc & _ & _ & _ & _ & _ & rest & -> & _).
  exists rest. exact Hc.
Defined.

Lemma only_first_image_read_witness :
  editImages sample_replicate one_image (edit_request ["/in/a.png"; "/in/none.png"] Absent)
  = editImages sample_replicate one_image (edit_request ["/in/a.png"] Absent).
Proof.
  apply (only_first_image_read one_image sample_replicate
           (edit_request ["/in/a.png"; "/in/none.png"] Absent)).
  discriminate.
Defined.

(* ================================================================== *)
(** * Further properties of the generation requests *)
(* ================================================================== *)

Section GenerationRequests.

Variable this : Provider.

(** X20.  Every provider, and the OpenAI client, rejects a generation
    request without a prompt with the same message; every edit request
    without an image is rejected for its images, whatever else it holds,
    and one with images and without a prompt for its prompt. *)
Theorem missing_input_rejected (fs : Fs.FileSystem) (gparams : Generation.Params)
    (eparams : Edit.Params) :
  (Generation.prompt gparams = "" ->
   OpenAIImageProvider_generateImages this gparams = Throw prompt_required
   /\ OpenAIImageClient_generateImages this gparams = Throw prompt_required
   /\ StabilityImageProvider_generateImages this gparams = Throw prompt_required
   /\ ReplicateImageProvider_generateImages this gparams = Throw prompt_required
   /\ HuggingFaceImageProvider_generateImages this gparams = Throw prompt_required)
  /\ (Edit.images eparams = [] ->
      editImages this fs eparams = Throw images_required
      /\ OpenAIImageClient_editImages this fs eparams = Throw images_required)
  /\ (Edit.images eparams <> [] -> Edit.prompt eparams = "" ->
      editImages this fs eparams = Throw prompt_required
      /\ OpenAIImageClient_editImages this fs eparams = Throw prompt_required).
Proof.
  split; [|split].
  - intros Hp.
    unfold OpenAIImageProvider_generateImages, OpenAIImageClient_generateImages,
      StabilityImageProvider_generateImages, ReplicateImageProvider_generateImages,
      HuggingFaceImageProvider_generateImages, validateParams.
    rewrite Hp. repeat split; reflexivity.
  - intros Hi. rewrite client_editImages. unfold editImages.
    destruct (kind this);
      unfold OpenAIImageProvider_editImages, StabilityImageProvider_editImages,
        ReplicateImageProvider_editImages, HuggingFaceImageProvider_editImages;
      rewrite Hi; split; reflexivity.
  - intros Hi Hp. rewrite client_editImages. unfold editImages.
    apply length_zero in Hi.
    destruct (kind this);
      unfold OpenAIImageProvider_editImages, StabilityImageProvider_editImages,
        ReplicateImageProvider_editImages, HuggingFaceImageProvider_editImages, validateParams;
      rewrite Hi, Hp; split; reflexivity.
Qed.

Lemma not_included (l : list string) (m : string) : ~ In m l -> Obj.includes l m = false.
Proof.
  intros H. apply not_true_is_false. intros Hex. unfold Obj.includes in Hex.
  apply existsb_exists in Hex. destruct Hex as (x & Hx & Ex).
  apply String.eqb_eq in Ex. subst x. contradiction.
Qed.

Lemma included (l : list string) (m : string) : Obj.includes l m = true -> In m l.
Proof.
  unfold Obj.includes. intros Hex. apply existsb_exists in Hex.
  destruct Hex as (x & Hx & Ex). apply String.eqb_eq in Ex. subst x. exact Hx.
Qed.

(** X21.  A model that the catalog of a provider does not have, neither as
    a model nor as a key, is rejected by the OpenAI and the Stability
    providers with the list of the models allowed, and is sent as it is by
    the Replicate and the Hugging Face providers: their [generateImages]
    does not enforce the catalog. *)
Theorem model_outside_catalog (params : Generation.Params) (m : string) :
  Generation.prompt params <> "" ->
  Generation.model params = Given m ->
  m <> "" ->
  ~ In m (Obj.values (models this)) ->
  Obj.get (models this) m = Obj.Undefined ->
  OpenAIImageProvider_generateImages this params
  = Throw (not_allowed_message (Some m) (Obj.values (models this)))
  /\ StabilityImageProvider_generateImages this params
     = Throw (not_allowed_message (Some m) (Obj.values (models this)))
  /\ (exists input,
        ReplicateImageProvider_generateImages this params
        = Return (ReplicateGenerate (Obj.Str m) input))
  /\ (exists parameters,
        HuggingFaceImageProvider_generateImages this params
        = Return (TextToImage (Obj.Str m) (Generation.prompt params) parameters)).
Proof.
  intros Hp Hm Hne Hval Hget.
  pose proof (truthy_true _ Hp) as Hpt. pose proof (truthy_true _ Hne) as Hmt.
  pose proof (not_included _ _ Hval) as Hinc.
  assert (Hlook : lookup_model this (Some m) = Obj.Str m).
  { unfold lookup_model. cbn [show_opt]. rewrite Hget. reflexivity. }
  split; [|split; [|split]].
  - unfold OpenAIImageProvider_generateImages, validateParams.
    rewrite Hpt, Hm. cbn [bind truthy_opt show_opt]. rewrite Hmt, Hinc. reflexivity.
  - unfold StabilityImageProvider_generateImages, validateParams.
    rewrite Hpt, Hm. cbn [bind read]. unfold or_opt. cbn [truthy_opt]. rewrite Hmt, Hinc.
    reflexivity.
  - unfold ReplicateImageProvider_generateImages, validateParams.
    rewrite Hpt, Hm. cbn [bind read]. unfold or_opt. cbn [truthy_opt]. rewrite Hmt, Hlook.
    cbn [Obj.value_truthy]. rewrite Hmt. cbn [negb].
    unfold wrap. eexists. reflexivity.
  - unfold HuggingFaceImageProvider_generateImages, validateParams.
    rewrite Hpt, Hm. cbn [bind read]. unfold or_opt. cbn [truthy_opt]. rewrite Hmt, Hlook.
    cbn [Obj.value_truthy]. rewrite Hmt. cbn [negb].
    unfold supportsCustomSize, supportsStyle, supports.
    destruct (truthy_opt (read (Generation.size params)));
      destruct (truthy_opt (read (Generation.style params)));
      cbn [bind wrap]; eexists; reflexivity.
Qed.

Ltac sent H :=
  match type of H with
  | (if ?c then Throw _ else _) = Return _ => destruct c eqn:?; [discriminate H|]
  end.

(** X22.  A request that the Stability provider sends, for a generation or
    for an edit, carries the key of the provider and goes to the URL of a
    model of its catalog: the model of the request or, without one, the
    first model of the catalog.  A generation request without a number of
    images, or with zero, asks for one. *)
Theorem stability_request_model (fs : Fs.FileSystem) :
  (forall params request,
     StabilityImageProvider_generateImages this params = Return request ->
     exists m body,
       or_opt (read (Generation.model params)) (getDefaultModel this) = Some m
       /\ In m (Obj.values (models this))
       /\ request = StabilityFetch (stability_baseUrl ++ "/generation/" ++ m ++ "/text-to-image")
                                   (key this) body
       /\ text_prompt body = Generation.prompt params
       /\ Generation.prompt params <> ""
       /\ (read (Generation.n params) = None \/ read (Generation.n params) = Some 0%Z ->
           body_samples body = 1%Z))
  /\ (forall params request,
        StabilityImageProvider_editImages this fs params = Return request ->
        exists m form,
          or_opt (read (Edit.model params)) (getDefaultModel this) = Some m
          /\ In m (Obj.values (models this))
          /\ request = FetchForm (stability_baseUrl ++ "/generation/" ++ m ++ "/image-to-image")
                                 (key this) form
          /\ In (file_part fs "init_image" (nth 0 (Edit.images params) "")) form).
Proof.
  split.
  - intros params request H.
    unfold StabilityImageProvider_generateImages, validateParams in H.
    destruct (Js.truthy (Generation.prompt params)) eqn:Hp; cbn [bind] in H; [|discriminate H].
    sent H.
    destruct (or_opt (read (Generation.model params)) (getDefaultModel this)) as [m|] eqn:Em;
      [|discriminate].
    match goal with
    | Hc : negb _ = false |- _ => apply negb_false_iff, included in Hc; rename Hc into Hin
    end.
    injection H as <-. eexists m, _. split; [reflexivity|]. split; [exact Hin|].
    split; [reflexivity|]. cbn [text_prompt body_samples]. split; [reflexivity|].
    split; [intros E; rewrite E in Hp; discriminate Hp|].
    intros [-> | ->]; reflexivity.
  - intros params request H.
    unfold StabilityImageProvider_editImages, validateParams in H.
    sent H.
    destruct (Js.truthy (Edit.prompt params)) eqn:Hp; cbn [bind] in H; [|discriminate H].
    sent H.
    destruct (or_opt (read (Edit.model params)) (getDefaultModel this)) as [m|] eqn:Em;
      [|discriminate].
    match goal with
    | Hc : negb (Obj.includes _ _) = false |- _ =>
        apply negb_false_iff, included in Hc; rename Hc into Hin
    end.
    sent H.
    match type of H with
    | bind ?mask _ = _ => destruct mask as [maskParts|msg]; cbn [bind] in H; [|discriminate H]
    end.
    injection H as <-. eexists m, _. split; [reflexivity|]. split; [exact Hin|].
    split; [reflexivity|]. right; right; left. reflexivity.
Qed.

(** X23.  A generation request that the OpenAI provider sends goes to the
    generations URL with the key of the provider and the prompt, which is
    not empty.  Its model, when it has one, is a model of the catalog; a
    request that leaves the model, the number or the size out gets the
    first model of the catalog, one image and [1024x1024].  The style is
    sent to [dall-e-3] alone and the response format to [dall-e-2] and
    [dall-e-3] alone; the output path of the request is sent with it. *)
Theorem openai_generate_request (params : Generation.Params) (request : Request) :
  OpenAIImageProvider_generateImages this params = Return request ->
  exists body,
    request = FetchJson openai_baseUrl (key this) body
    /\ body_prompt body = Generation.prompt params
    /\ Generation.prompt params <> ""
    /\ (truthy_opt (body_model body) = true ->
        In (show_opt (body_model body)) (Obj.values (models this)))
    /\ (Generation.model params = Absent -> body_model body = getDefaultModel this)
    /\ (Generation.n params = Absent -> body_n body = Some 1%Z)
    /\ (Generation.size params = Absent -> body_size body = Some "1024x1024")
    /\ (body_style body <> None -> body_model body = Some "dall-e-3")
    /\ (body_response_format body <> None ->
        body_model body = Some "dall-e-2" \/ body_model body = Some "dall-e-3")
    /\ body_outputPath body = read (Generation.outputPath params).
Proof.
  intros H. unfold OpenAIImageProvider_generateImages, validateParams in H.
  destruct (Js.truthy (Generation.prompt params)) eqn:Hp; cbn [bind] in H; [|discriminate H].
  do 5 sent H. injection H as <-.
  eexists. split; [reflexivity|].
  cbn [body_prompt body_model body_n body_size body_style body_response_format body_outputPath].
  split; [reflexivity|]. split; [intros E; rewrite E in Hp; discriminate Hp|].
  split; [|split; [|split; [|split; [|split; [|split]]]]].
  - intros Ht.
    match goal with
    | Hm : (truthy_opt _ && negb (Obj.includes _ _))%bool = false |- _ =>
        rewrite Ht in Hm; cbn [andb] in Hm; apply negb_false_iff, included in Hm; exact Hm
    end.
  - intros ->. reflexivity.
  - intros ->. reflexivity.
  - intros ->. reflexivity.
  - match goal with
    | |- context [equals ?model "dall-e-3"] =>
        destruct (equals model "dall-e-3") eqn:E3; cbn [negb]
    end.
    + intros _. apply equals_spec, E3.
    + intros Hs. contradiction Hs. reflexivity.
  - match goal with
    | |- context [negb (equals ?model "dall-e-2") && negb (equals ?model "dall-e-3")] =>
        destruct (equals model "dall-e-2") eqn:E2; destruct (equals model "dall-e-3") eqn:E3;
          cbn [negb andb]
    end.
    + intros _. left. apply equals_spec, E2.
    + intros _. left. apply equals_spec, E2.
    + intros _. right. apply equals_spec, E3.
    + intros Hs. contradiction Hs. reflexivity.
  - reflexivity.
Qed.

End GenerationRequests.

Lemma missing_input_rejected_witness :
  editImages sample_replicate one_image (edit_request [] Absent) = Throw images_required
  /\ StabilityImageProvider_generateImages sample_stability (prompt_only "") = Throw prompt_required.
Proof.
  destruct (missing_input_rejected sample_replicate one_image (prompt_only "")
              (edit_request [] Absent)) as (_ & He & _).
  destruct (missing_input_rejected sample_stability one_image (prompt_only "")
              (edit_request [] Absent)) as (Hg & _).
  split; [apply He; reflexivity | apply Hg; reflexivity].
Defined.

Lemma model_outside_catalog_witness :
  StabilityImageProvider_generateImages sample_stability (prompt_for "a red circle" "my-model")
  = Throw (not_allowed_message (Some "my-model") (Obj.values STABILITY_MODELS))
  /\ exists input,
       ReplicateImageProvider_generateImages sample_replicate
         (prompt_for "a red circle" "my-org/my-model")
       = Return (ReplicateGenerate (Obj.Str "my-org/my-model") input).
Proof.
  destruct (model_outside_catalog sample_stability (prompt_for "a red circle" "my-model")
              "my-model") as (_ & Hs & _);
    [discriminate | reflexivity | discriminate | cbn; intuition discriminate | reflexivity |].
  destruct (model_outside_catalog sample_replicate
              (prompt_for "a red circle" "my-org/my-model") "my-org/my-model")
    as (_ & _ & Hr & _);
    [discriminate | reflexivity | discriminate | cbn; intuition discriminate | reflexivity |].
  split; [exact Hs | exact Hr].
Defined.

Lemma openai_generate_request_witness :
  exists body,
    OpenAIImageProvider_generateImages sample_openai (prompt_only "a red circle")
    = Return (FetchJson openai_baseUrl "sk-test" body)
    /\ body_model body = Some "gpt-image-1"
    /\ body_n body = Some 1%Z
    /\ body_size body = Some "1024x1024".
Proof.
  destruct (OpenAIImageProvider_generateImages sample_openai (prompt_only "a red circle"))
    as [request|msg] eqn:E; [|vm_compute in E; discriminate E].
  destruct (openai_generate_request sample_openai (prompt_only "a red circle") request E)
    as (body & -> & _ & _ & _ & Hm & Hn & Hs & _).
  exists body. split; [reflexivity|].
  split; [apply Hm; reflexivity | split; [apply Hn; reflexivity | apply Hs; reflexivity]].
Defined.

(* ================================================================== *)
(** * The report of the initialization *)
(* ================================================================== *)

Section Report.

(** X24.  A registry that the constructor returns is reported on the
    console: the last two lines give the number of its providers and the
    name of its default provider.  When the default provider asked for is
    not in the registry, a line before them says which provider the default
    was switched to. *)
Theorem initialization_report (config : MultiProviderConfig) (env : Env)
    (f : ImageProviderFactory) (out : list Event) :
  new_ImageProviderFactory config env = (Return f, out) ->
  exists d before,
    this_defaultProvider f = Some d
    /\ out = (before
              ++ [Log ("🚀 Image provider factory initialized with "
                         ++ decimal (List.length (getAvailableProviders f)) ++ " provider(s)");
                  Log ("📌 Default provider: " ++ name (PROVIDER_CONFIGS d))])%list
    /\ (match requested_default config with
        | Some r => PMap.has (this_providers f) r = false
        | None => True
        end ->
        hd_error (getAvailableProviders f) = Some d
        /\ In (Log ("Default provider switched to: " ++ name (PROVIDER_CONFIGS d))) before).
Proof.
  unfold new_ImageProviderFactory, initializeProviders.
  cbn [this_config this_providers this_defaultProvider].
  change (match defaultProvider config with
          | Some d => Some d
          | None => hd_error (providers config)
          end) with (requested_default config).
  match goal with
  | |- context [fold_left ?g ?l ?i] => destruct (fold_left g l i) as [m o] eqn:Em
  end.
  cbv beta iota.
  destruct m as [|[k v] m]; [cbn [PMap.size List.length Nat.eqb]; discriminate|].
  cbn [PMap.size List.length Nat.eqb PMap.keys map fst hd_error].
  destruct (requested_default config) as [r|].
  - destruct (PMap.has ((k, v) :: m) r) eqn:Eh; intros [= <- <-];
      cbn [this_defaultProvider this_providers getAvailableProviders].
    + exists r, o. split; [reflexivity|]. split.
      * unfold getAvailableProviders, PMap.keys. cbn [this_providers].
        rewrite length_map. reflexivity.
      * intros Hno. rewrite Eh in Hno. discriminate Hno.
    + exists k. eexists. split; [reflexivity|]. split.
      * unfold getAvailableProviders, PMap.keys. cbn [this_providers].
        rewrite length_map. reflexivity.
      * intros _. split; [reflexivity|]. apply in_or_app. right. left. reflexivity.
  - intros [= <- <-]. cbn [this_defaultProvider this_providers].
    exists k. eexists. split; [reflexivity|]. split.
    + unfold getAvailableProviders, PMap.keys. cbn [this_providers].
      rewrite length_map. reflexivity.
    + intros _. split; [reflexivity|]. apply in_or_app. right. left. reflexivity.
Qed.

End Report.

Lemma initialization_report_witness :
  this_defaultProvider sample_factory = Some HUGGINGFACE
  /\ In (Log "Default provider switched to: Hugging Face") sample_out
  /\ In (Log "📌 Default provider: Hugging Face") sample_out.
Proof.
  destruct (initialization_report sample_config sample_env sample_factory sample_out)
    as (d & before & Hd & Hout & Hsw); [vm_compute; reflexivity|].
  assert (E : d = HUGGINGFACE) by (cbn in Hd; congruence). subst d.
  split; [exact Hd|].
  destruct Hsw as [_ Hin]; [reflexivity|].
  rewrite Hout. split.
  - apply in_or_app. left. exact Hin.
  - apply in_or_app. right. right. left. reflexivity.
Defined.

(** A Stability request on concrete values. *)
Lemma stability_request_model_witness :
  exists body,
    StabilityImageProvider_generateImages sample_stability (prompt_only "a red circle")
    = Return (StabilityFetch
                "https://api.stability.ai/v1/generation/stable-diffusion-xl-1024-v1-0/text-to-image"
                "sk-stab" body)
    /\ body_samples body = 1%Z.
Proof.
  destruct (StabilityImageProvider_generateImages sample_stability (prompt_only "a red circle"))
    as [request|msg] eqn:E; [|vm_compute in E; discriminate E].
  destruct (stability_request_model sample_stability one_image) as [Hgen _].
  destruct (Hgen (prompt_only "a red circle") request E)
    as (m & body & Hm & _ & -> & _ & _ & Hn).
  injection Hm as <-. exists body. split; [reflexivity|].
  apply Hn. left; reflexivity.
Defined.
